(** * MathMaster: the answer comparator, the scoring calculator, the streak
    tracker, the adaptive difficulty controller and the session aggregator
    of [game.py], embedded in Rocq.

    The Python built-ins the class relies on ([int], [float], [str.strip],
    [str.split], [fractions.Fraction], list indexing, [sum], [max]) are
    modelled in the first half of the file; the class [MathGame] follows,
    method by method; the theorems come last. *)

From Stdlib Require Import ZArith QArith Qabs Qround Qpower Qreduction Lia Lqa List Bool.
From Stdlib Require Import Strings.String Strings.Ascii.
From Stdlib Require Import Numbers.DecimalString Numbers.DecimalZ Numbers.DecimalPos Numbers.DecimalN.
Import ListNotations.

Local Open Scope Z_scope.

(* ================================================================== *)
(** ** Exceptions *)
(* ================================================================== *)

(** The exception classes the modelled code can raise.  All of them are
    subclasses of Python's [Exception]. *)
Inductive exn : Type :=
| ValueError
| ZeroDivisionError
| OverflowError
| IndexError
| UnboundLocalError.

Definition exn_eqb (a b : exn) : bool :=
  match a, b with
  | ValueError, ValueError => true
  | ZeroDivisionError, ZeroDivisionError => true
  | OverflowError, OverflowError => true
  | IndexError, IndexError => true
  | UnboundLocalError, UnboundLocalError => true
  | _, _ => false
  end.

(** The outcome of evaluating an expression: a value, or a raised exception. *)
Inductive result (A : Type) : Type :=
| Ok (a : A)
| Raise (e : exn).
Arguments Ok {A} a.
Arguments Raise {A} e.

Definition bind {A B : Type} (r : result A) (k : A -> result B) : result B :=
  match r with
  | Ok a => k a
  | Raise e => Raise e
  end.

Declare Scope py_scope.
Delimit Scope py_scope with py.
Notation "x <- r ;; k" := (bind r (fun x => k))
  (at level 61, r at next level, right associativity) : py_scope.
Local Open Scope py_scope.

(** [try: body  except (classes): handler]. *)
Definition try_except {A : Type} (body : result A) (classes : list exn)
    (handler : result A) : result A :=
  match body with
  | Ok a => Ok a
  | Raise e => if existsb (exn_eqb e) classes then handler else Raise e
  end.

(** [try: body  except Exception: handler]. *)
Definition try_except_Exception {A : Type} (body : result A)
    (handler : exn -> result A) : result A :=
  match body with
  | Ok a => Ok a
  | Raise e => handler e
  end.

(** [l[i]] on a Python list: a negative index counts from the end. *)
Definition getitem {A : Type} (l : list A) (i : Z) : result A :=
  let n := Z.of_nat (List.length l) in
  let j := if i <? 0 then i + n else i in
  if (0 <=? j) && (j <? n) then
    match nth_error l (Z.to_nat j) with
    | Some a => Ok a
    | None => Raise IndexError
    end
  else Raise IndexError.

(* ================================================================== *)
(** ** Python floats (IEEE-754 binary64) *)
(* ================================================================== *)

(** A float is a finite value (kept as the exact rational it denotes), an
    infinity or a NaN.  The sign of zero is not kept: no operation used by
    the game observes it (division by either zero raises). *)
Inductive float : Type :=
| Fin (q : Q)
| Inf (neg : bool)
| NaN.

(** [scale2 n d e] is the fraction [n/d * 2^(-e)]. *)
Definition scale2 (n d e : Z) : Z * Z :=
  if 0 <=? e then (n, d * 2 ^ e) else (n * 2 ^ (- e), d).

(** [a/b] rounded to the nearest integer, ties to even ([0 <= a], [0 < b]). *)
Definition rne (a b : Z) : Z :=
  let q := a / b in
  let r := a mod b in
  match 2 * r ?= b with
  | Lt => q
  | Gt => q + 1
  | Eq => if Z.even q then q else q + 1
  end.

(** [ilog2 n d] is the [l] with [2^l <= n/d < 2^(l+1)]. *)
Definition ilog2 (n d : positive) : Z :=
  let k := Z.log2 (Zpos n) - Z.log2 (Zpos d) in
  let '(a, b) := scale2 (Zpos n) (Zpos d) k in
  if b <=? a then k else k - 1.

(** The rational [m * 2^e]. *)
Definition dyadic (m e : Z) : Q :=
  if 0 <=? e then inject_Z (m * 2 ^ e)
  else Qred (Qmake m (Z.to_pos (2 ^ (- e)))).

(** Round the positive rational [n/d] to binary64: 53 bits of precision,
    least exponent -1074 (gradual underflow), overflow to infinity. *)
Definition rnd_pos (neg : bool) (n d : positive) : float :=
  let e := Z.max (ilog2 n d - 52) (-1074) in
  let '(a, b) := scale2 (Zpos n) (Zpos d) e in
  let m := rne a b in
  if (971 <? e) || ((e =? 971) && (2 ^ 53 <=? m)) then Inf neg
  else Fin (dyadic (if neg then - m else m) e).

(** Round to nearest, ties to even. *)
Definition rnd (x : Q) : float :=
  match Qnum x with
  | Z0 => Fin 0
  | Zpos n => rnd_pos false n (Qden x)
  | Zneg n => rnd_pos true n (Qden x)
  end.

Definition Qeq0 (q : Q) : bool := Qnum q =? 0.

Definition Qltb (a b : Q) : bool := Qnum a * Zpos (Qden b) <? Qnum b * Zpos (Qden a).

Definition fneg (x : float) : float :=
  match x with
  | Fin q => Fin (Qopp q)
  | Inf s => Inf (negb s)
  | NaN => NaN
  end.

Definition fabs (x : float) : float :=
  match x with
  | Fin q => Fin (Qabs q)
  | Inf _ => Inf false
  | NaN => NaN
  end.

(** [x + y]; as in IEEE-754, adding a zero returns the other operand
    unchanged. *)
Definition fadd (x y : float) : float :=
  match x, y with
  | NaN, _ | _, NaN => NaN
  | Inf a, Inf b => if Bool.eqb a b then Inf a else NaN
  | Inf a, Fin _ => Inf a
  | Fin _, Inf b => Inf b
  | Fin a, Fin b =>
      if Qeq0 b then x else if Qeq0 a then y else rnd (a + b)%Q
  end.

Definition fsub (x y : float) : float := fadd x (fneg y).

Definition fmul (x y : float) : float :=
  match x, y with
  | NaN, _ | _, NaN => NaN
  | Inf a, Inf b => Inf (xorb a b)
  | Inf a, Fin q | Fin q, Inf a =>
      if Qeq0 q then NaN else Inf (xorb a (Qnum q <? 0))
  | Fin a, Fin b => rnd (a * b)%Q
  end.

(** Python's float [/]: a zero divisor raises. *)
Definition fdiv (x y : float) : result float :=
  match y with
  | NaN => Ok NaN
  | Fin b =>
      if Qeq0 b then Raise ZeroDivisionError
      else match x with
           | NaN => Ok NaN
           | Inf a => Ok (Inf (xorb a (Qnum b <? 0)))
           | Fin a => Ok (rnd (a / b)%Q)
           end
  | Inf _ =>
      match x with
      | Fin _ => Ok (Fin 0)
      | _ => Ok NaN
      end
  end.

(** [x < y]; any comparison with a NaN is false. *)
Definition flt (x y : float) : bool :=
  match x, y with
  | NaN, _ | _, NaN => false
  | Inf a, Inf b => a && negb b
  | Inf a, Fin _ => a
  | Fin _, Inf b => negb b
  | Fin a, Fin b => Qltb a b
  end.

(** [float(z)] for a Python int. *)
Definition float_of_Z (z : Z) : result float :=
  match rnd (inject_Z z) with
  | Fin q => Ok (Fin q)
  | _ => Raise OverflowError
  end.

(** [int(x)] for a float: truncation towards zero. *)
Definition int_of_float (x : float) : result Z :=
  match x with
  | Fin q => Ok (Z.quot (Qnum q) (Zpos (Qden q)))
  | Inf _ => Raise OverflowError
  | NaN => Raise ValueError
  end.

(** [math.floor(x)]. *)
Definition floor_of_float (x : float) : result Z :=
  match x with
  | Fin q => Ok (Qfloor q)
  | Inf _ => Raise OverflowError
  | NaN => Raise ValueError
  end.

(* ================================================================== *)
(** ** Python strings *)
(* ================================================================== *)

(** Answers are ASCII text: the strings the question generators produce
    and the ones typed at the prompt. *)

Local Open Scope string_scope.
Local Open Scope Z_scope.

(** The ASCII characters for which [str.isspace] holds: the ones
    [str.strip] and the pattern class [\s] remove. *)
Definition is_space (c : ascii) : bool :=
  let n := nat_of_ascii c in
  (Nat.leb 9 n && Nat.leb n 13) || (Nat.leb 28 n && Nat.leb n 32).

(** The ASCII characters the parsers of [int] and [float] skip around a
    literal. *)
Definition is_literal_space (c : ascii) : bool :=
  let n := nat_of_ascii c in
  (Nat.leb 9 n && Nat.leb n 13) || Nat.eqb n 32.

Fixpoint lstrip_of (p : ascii -> bool) (s : string) : string :=
  match s with
  | EmptyString => EmptyString
  | String c r => if p c then lstrip_of p r else s
  end.

Fixpoint rstrip_of (p : ascii -> bool) (s : string) : string :=
  match s with
  | EmptyString => EmptyString
  | String c r =>
      match rstrip_of p r with
      | EmptyString => if p c then EmptyString else String c EmptyString
      | r' => String c r'
      end
  end.

(** [s.strip()]. *)
Definition strip (s : string) : string :=
  rstrip_of is_space (lstrip_of is_space s).

(** The literal inside the blanks that [int] and [float] ignore. *)
Definition literal_of (s : string) : string :=
  rstrip_of is_literal_space (lstrip_of is_literal_space s).

(** [c in s] for a one-character [c]. *)
Fixpoint contains (c : ascii) (s : string) : bool :=
  match s with
  | EmptyString => false
  | String a r => Ascii.eqb a c || contains c r
  end.

(** [s.split(sep)] for a one-character separator. *)
Fixpoint split (sep : ascii) (s : string) : list string :=
  match s with
  | EmptyString => [EmptyString]
  | String c r =>
      if Ascii.eqb c sep then EmptyString :: split sep r
      else match split sep r with
           | h :: t => String c h :: t
           | [] => [String c EmptyString]
           end
  end.

Definition digit_cons (c : ascii) (u : Decimal.uint) : option Decimal.uint :=
  match c with
  | "0"%char => Some (Decimal.D0 u)
  | "1"%char => Some (Decimal.D1 u)
  | "2"%char => Some (Decimal.D2 u)
  | "3"%char => Some (Decimal.D3 u)
  | "4"%char => Some (Decimal.D4 u)
  | "5"%char => Some (Decimal.D5 u)
  | "6"%char => Some (Decimal.D6 u)
  | "7"%char => Some (Decimal.D7 u)
  | "8"%char => Some (Decimal.D8 u)
  | "9"%char => Some (Decimal.D9 u)
  | _ => None
  end.

(** A non-empty run of decimal digits, where single underscores may separate
    digits (the digit part of Python's numeric literals). *)
Fixpoint digits (s : string) : option Decimal.uint :=
  match s with
  | EmptyString => None
  | String c r =>
      match r with
      | EmptyString => digit_cons c Decimal.Nil
      | String "_"%char r' =>
          match digits r' with
          | Some u => digit_cons c u
          | None => None
          end
      | _ =>
          match digits r with
          | Some u => digit_cons c u
          | None => None
          end
      end
  end.

(** A possibly empty run of digits. *)
Definition digits_opt (s : string) : option Decimal.uint :=
  match s with
  | EmptyString => Some Decimal.Nil
  | _ => digits s
  end.

(** Split off an optional sign; [true] stands for [-]. *)
Definition take_sign (s : string) : bool * string :=
  match s with
  | String "-"%char r => (true, r)
  | String "+"%char r => (false, r)
  | _ => (false, s)
  end.

(** [int(s)] for a string: surrounding whitespace, an optional sign, digits.
    (The interpreter's limit on the number of digits is not modelled.) *)
Definition py_int (s : string) : result Z :=
  let '(neg, body) := take_sign (literal_of s) in
  match digits body with
  | Some u => Ok (if neg then - Z.of_uint u else Z.of_uint u)
  | None => Raise ValueError
  end.

(** [str(z)] for a Python int. *)
Definition str_of_Z (z : Z) : string := NilEmpty.string_of_int (Z.to_int z).

(** [s] cut at the first character satisfying [p]: the part before it, and
    the part after it when there is one. *)
Fixpoint cut (p : ascii -> bool) (s : string) : string * option string :=
  match s with
  | EmptyString => (EmptyString, None)
  | String c r =>
      if p c then (EmptyString, Some r)
      else let '(a, b) := cut p r in (String c a, b)
  end.

Definition is_exp_mark (c : ascii) : bool :=
  Ascii.eqb c "e"%char || Ascii.eqb c "E"%char.

Definition is_dot (c : ascii) : bool := Ascii.eqb c "."%char.

Definition is_slash (c : ascii) : bool := Ascii.eqb c "/"%char.

(** The rational [n * 10^k]. *)
Definition decimal_value (n k : Z) : Q :=
  if 0 <=? k then inject_Z (n * 10 ^ k)
  else Qmake n (Z.to_pos (10 ^ (- k))).

(** An unsigned decimal literal [digits [. digits] [e [sign] digits]] with
    at least one digit before the exponent; its exact value. *)
Definition parse_decimal (s : string) : option Q :=
  let '(mant, ex) := cut is_exp_mark s in
  let '(ip, fp) := cut is_dot mant in
  let fp := match fp with Some f => f | None => EmptyString end in
  match ip, fp with
  | EmptyString, EmptyString => None
  | _, _ =>
      match digits_opt ip, digits_opt fp with
      | Some ui, Some uf =>
          let n := Z.of_uint (Decimal.app ui uf) in
          let nf := Z.of_nat (Decimal.nb_digits uf) in
          match ex with
          | None => Some (decimal_value n (- nf))
          | Some e =>
              let '(eneg, ebody) := take_sign e in
              match digits ebody with
              | Some ue =>
                  let ev := if eneg then - Z.of_uint ue else Z.of_uint ue in
                  Some (decimal_value n (ev - nf))
              | None => None
              end
          end
      | _, _ => None
      end
  end.

Definition lower (c : ascii) : ascii :=
  let n := nat_of_ascii c in
  if Nat.leb 65 n && Nat.leb n 90 then ascii_of_nat (n + 32) else c.

Fixpoint lower_string (s : string) : string :=
  match s with
  | EmptyString => EmptyString
  | String c r => String (lower c) (lower_string r)
  end.

(** [float(s)] for a string: surrounding whitespace, an optional sign, then
    [inf], [infinity], [nan] (in any case) or a decimal literal, which is
    rounded correctly. *)
Definition py_float (s : string) : result float :=
  let '(neg, body) := take_sign (literal_of s) in
  let low := lower_string body in
  if String.eqb low "inf" || String.eqb low "infinity" then Ok (Inf neg)
  else if String.eqb low "nan" then Ok NaN
  else match parse_decimal body with
       | Some q => Ok (if neg then fneg (rnd q) else rnd q)
       | None => Raise ValueError
       end.

(* ================================================================== *)
(** ** fractions.Fraction *)
(* ================================================================== *)

(** A [Fraction] object: always in lowest terms with a positive
    denominator, which the constructors below ensure. *)
Record Fraction : Type := mkFraction { numerator : Z; denominator : Z }.

(** [Fraction(n, d)] for two ints. *)
Definition Fraction_of_ints (n d : Z) : result Fraction :=
  if d =? 0 then Raise ZeroDivisionError
  else
    let g := Z.gcd n d in
    let g := if d <? 0 then - g else g in
    Ok (mkFraction (n / g) (d / g)).

(** [Fraction(x)] for a float: its exact value. *)
Definition Fraction_of_float (x : float) : result Fraction :=
  match x with
  | Fin q => let r := Qred q in Ok (mkFraction (Qnum r) (Zpos (Qden r)))
  | Inf _ => Raise OverflowError
  | NaN => Raise ValueError
  end.

(** [Fraction(s)] for a string [s] that contains a slash, the only strings
    the game passes to it: blanks, an optional sign, digits, the slash,
    digits, blanks.  A zero denominator raises [ZeroDivisionError], a
    string of any other shape [ValueError].  (This is the pattern of
    CPython up to 3.11; from 3.12 on blanks are also accepted around the
    slash.) *)
Definition Fraction_of_string (s : string) : result Fraction :=
  let '(neg, body) := take_sign (strip s) in
  match cut is_slash body with
  | (num, Some den) =>
      match digits num, digits den with
      | Some un, Some ud =>
          let n := if neg then - Z.of_uint un else Z.of_uint un in
          Fraction_of_ints n (Z.of_uint ud)
      | _, _ => Raise ValueError
      end
  | (_, None) => Raise ValueError
  end.

(** [a == b] on two fractions. *)
Definition Fraction_eqb (a b : Fraction) : bool :=
  (numerator a =? numerator b) && (denominator a =? denominator b).

(* ================================================================== *)
(** ** Python numbers: ints and floats under the usual promotion *)
(* ================================================================== *)

Inductive number : Type :=
| PyInt (z : Z)
| PyFloat (x : float).

Definition to_float (a : number) : result float :=
  match a with
  | PyInt z => float_of_Z z
  | PyFloat x => Ok x
  end.

Definition num_add (a b : number) : result number :=
  match a, b with
  | PyInt x, PyInt y => Ok (PyInt (x + y))
  | _, _ => x <- to_float a ;; y <- to_float b ;; Ok (PyFloat (fadd x y))
  end.

Definition num_mul (a b : number) : result number :=
  match a, b with
  | PyInt x, PyInt y => Ok (PyInt (x * y))
  | _, _ => x <- to_float a ;; y <- to_float b ;; Ok (PyFloat (fmul x y))
  end.

(** True division [a / b]; the quotient of two ints is rounded once. *)
Definition num_truediv (a b : number) : result float :=
  match a, b with
  | PyInt x, PyInt y =>
      if y =? 0 then Raise ZeroDivisionError
      else match rnd (Qmake x 1 / Qmake y 1)%Q with
           | Fin q => Ok (Fin q)
           | _ => Raise OverflowError
           end
  | _, _ => x <- to_float a ;; y <- to_float b ;; fdiv x y
  end.

(** [int(a)]. *)
Definition int_of_number (a : number) : result Z :=
  match a with
  | PyInt z => Ok z
  | PyFloat x => int_of_float x
  end.

(** [max(0, x)]: the first argument is kept unless the second is greater. *)
Definition max_0 (x : float) : number :=
  if flt (Fin 0) x then PyFloat x else PyInt 0.

(** [sum(l)] over floats: the start value is the int [0], to which the
    items are added from left to right.  (CPython from 3.12 on compensates
    the rounding errors of the partial sums; the plain sum is modelled.) *)
Definition sum_floats (l : list float) : number :=
  match l with
  | [] => PyInt 0
  | _ => PyFloat (fold_left fadd l (Fin 0))
  end.

(** [sum(l)] over ints. *)
Definition sum_ints (l : list Z) : Z := fold_left Z.add l 0.

(** [l[-3:]]. *)
Definition last3 {A : Type} (l : list A) : list A :=
  skipn (List.length l - 3) l.

(* ================================================================== *)
(** ** game.py: constants *)
(* ================================================================== *)

Definition MAX_ROUNDS : Z := 10.
Definition POINTS_BASE : Z := 100.
Definition POINTS_SPEED_BONUS_THRESHOLD : float := Fin 5.
Definition POINTS_SPEED_BONUS : Z := 50.
Definition POINTS_DIFFICULTY_MULTIPLIER : list number :=
  [PyInt 1; PyFloat (Fin (3 # 2)); PyFloat (Fin (5 # 2))].
Definition STREAK_BONUS_THRESHOLD : Z := 3.
Definition STREAK_BONUS : Z := 25.

(** The literals [0.1] and [0.001]. *)
Definition lit_0_1 : float := Eval vm_compute in rnd (1 # 10).
Definition lit_0_001 : float := Eval vm_compute in rnd (1 # 1000).

(* ================================================================== *)
(** ** game.py: class MathGame *)
(* ================================================================== *)

(** One entry of [self.results].  The key ['score'] is read with
    [.get('score', 0)], so it may be absent. *)
Record RoundResult : Type := mkRoundResult {
  correct : bool;
  time_taken : float;
  question : string;
  user_answer : option string;
  correct_answer : string;
  score : option Z
}.

Record MathGame : Type := mkMathGame {
  operation_type : option Z;
  difficulty : Z;
  adaptive_difficulty : bool;
  rounds : Z;
  results : list RoundResult;
  streak_count : Z;
  total_score : Z;
  timed_mode : bool;
  time_limit : Z
}.

Definition set_difficulty (self : MathGame) (d : Z) : MathGame :=
  mkMathGame (operation_type self) d (adaptive_difficulty self) (rounds self)
    (results self) (streak_count self) (total_score self) (timed_mode self)
    (time_limit self).

Definition set_streak_count (self : MathGame) (n : Z) : MathGame :=
  mkMathGame (operation_type self) (difficulty self) (adaptive_difficulty self)
    (rounds self) (results self) n (total_score self) (timed_mode self)
    (time_limit self).

(** [__init__]. *)
Definition init : MathGame :=
  mkMathGame None 1 false MAX_ROUNDS [] 0 0 false 60.

Definition setup_game (self : MathGame) (operation_type' : Z)
    (difficulty_choice : Z) (rounds' : Z) (timed_mode' : bool)
    (time_limit' : Z) : MathGame :=
  if difficulty_choice <? 4 then
    mkMathGame (Some operation_type') difficulty_choice false rounds' [] 0 0
      timed_mode' time_limit'
  else
    mkMathGame (Some operation_type') 1 true rounds' [] 0 0
      timed_mode' time_limit'.

Definition calculate_score (self : MathGame) (is_correct : bool)
    (time_taken' : float) : result Z :=
  if negb is_correct then Ok 0
  else
    mult <- getitem POINTS_DIFFICULTY_MULTIPLIER (difficulty self - 1) ;;
    base <- num_mul (PyInt POINTS_BASE) mult ;;
    with_speed <-
      (if flt time_taken' POINTS_SPEED_BONUS_THRESHOLD then
         ratio <- fdiv (fsub POINTS_SPEED_BONUS_THRESHOLD time_taken')
                       POINTS_SPEED_BONUS_THRESHOLD ;;
         let speed_factor := max_0 ratio in
         bonus <- num_mul (PyInt POINTS_SPEED_BONUS) speed_factor ;;
         num_add base bonus
       else Ok base) ;;
    with_streak <-
      (if STREAK_BONUS_THRESHOLD <=? streak_count self then
         steps <- num_mul (PyInt (streak_count self - STREAK_BONUS_THRESHOLD))
                          (PyFloat lit_0_1) ;;
         growth <- num_add (PyInt 1) steps ;;
         bonus <- num_mul (PyInt STREAK_BONUS) growth ;;
         num_add with_speed bonus
       else Ok with_speed) ;;
    int_of_number with_streak.

Definition difficulty_names : list string := ["Easy"; "Medium"; "Hard"].

Definition count_correct (l : list RoundResult) : Z :=
  sum_ints (map (fun _ => 1) (filter correct l)).

(** [sum(r['time_taken'] for r in l) / len(l)]. *)
Definition mean_time (l : list RoundResult) : result float :=
  num_truediv (sum_floats (map time_taken l))
              (PyInt (Z.of_nat (List.length l))).

(** The method returns its message (or [None]) together with the session
    it leaves behind; the session is updated before the message is built. *)
Definition adjust_difficulty (self : MathGame)
    : result (option string) * MathGame :=
  if negb (adaptive_difficulty self) then (Ok None, self)
  else
    let recent_results := last3 (results self) in
    if (List.length recent_results <? 3)%nat then (Ok None, self)
    else
      let correct_count := count_correct recent_results in
      match mean_time recent_results with
      | Raise e => (Raise e, self)
      | Ok avg_time =>
          let old_difficulty := difficulty self in
          let self' :=
            if (correct_count =? 3) && flt avg_time (Fin 5) then
              set_difficulty self (Z.min 3 (difficulty self + 1))
            else if correct_count <=? 1 then
              set_difficulty self (Z.max 1 (difficulty self - 1))
            else self in
          if negb (old_difficulty =? difficulty self') then
            (name <- getitem difficulty_names (difficulty self' - 1) ;;
             Ok (Some (if old_difficulty <? difficulty self'
                       then "Difficulty increased to " ++ name
                       else "Difficulty adjusted to " ++ name
                            ++ " to help you improve")),
             self')
          else (Ok None, self')
      end.

Definition update_streak (self : MathGame) (is_correct : bool)
    : option string * MathGame :=
  if is_correct then
    let self' := set_streak_count self (streak_count self + 1) in
    if (STREAK_BONUS_THRESHOLD <=? streak_count self')
       && (streak_count self' mod STREAK_BONUS_THRESHOLD =? 0)
    then (Some (str_of_Z (streak_count self') ++ " ANSWER STREAK!"), self')
    else (None, self')
  else
    let streak_message :=
      if STREAK_BONUS_THRESHOLD <=? streak_count self
      then Some "Streak broken!" else None in
    (streak_message, set_streak_count self 0).

(** [r.get('score', 0)]. *)
Definition get_score (r : RoundResult) : Z :=
  match score r with
  | Some z => z
  | None => 0
  end.

Module Stats.

(** The dictionary [get_game_stats] returns. *)
Record t : Type := mk {
  total_rounds : Z;
  correct_count : Z;
  accuracy : number;
  avg_time : number;
  total_score : Z
}.

End Stats.

Definition get_game_stats (self : MathGame) : result Stats.t :=
  match results self with
  | [] => Ok (Stats.mk 0 0 (PyInt 0) (PyInt 0) 0)
  | _ =>
      let total_rounds := Z.of_nat (List.length (results self)) in
      let correct_count := count_correct (results self) in
      accuracy <-
        (if 0 <? total_rounds then
           ratio <- num_truediv (PyInt correct_count) (PyInt total_rounds) ;;
           num_mul (PyFloat ratio) (PyInt 100)
         else Ok (PyInt 0)) ;;
      avg_time <-
        (if 0 <? total_rounds then
           m <- num_truediv (sum_floats (map time_taken (results self)))
                            (PyInt total_rounds) ;;
           Ok (PyFloat m)
         else Ok (PyInt 0)) ;;
      let total_score := sum_ints (map get_score (results self)) in
      Ok (Stats.mk total_rounds correct_count accuracy avg_time total_score)
  end.

Definition add_result (self : MathGame) (round_result : RoundResult)
    : MathGame :=
  mkMathGame (operation_type self) (difficulty self) (adaptive_difficulty self)
    (rounds self) (results self ++ [round_result]) (streak_count self)
    (total_score self + get_score round_result) (timed_mode self)
    (time_limit self).

(** The local variables [user_parts] and [correct_parts] of [check_answer]:
    unbound until the assignment that binds them is executed. *)
Record locals : Type := mkLocals {
  user_parts : option (list string);
  correct_parts : option (list string)
}.

Definition read_local {A : Type} (v : option A) : result A :=
  match v with
  | Some a => Ok a
  | None => Raise UnboundLocalError
  end.

(** Each block of the [try] body either returns from the function
    ([Some b]), falls through to the next statement ([None]) or raises. *)
Definition fraction_block (user_str correct_str : string)
    : locals * result (option bool) :=
  if contains "/" user_str && contains "/" correct_str then
    let up := split "/" user_str in
    let cp := split "/" correct_str in
    let env := mkLocals (Some up) (Some cp) in
    if (List.length up =? 2)%nat && (List.length cp =? 2)%nat then
      (env,
       try_except
         (u0 <- getitem up 0 ;; un <- py_int u0 ;;
          u1 <- getitem up 1 ;; ud <- py_int u1 ;;
          user_frac <- Fraction_of_ints un ud ;;
          c0 <- getitem cp 0 ;; cn <- py_int c0 ;;
          c1 <- getitem cp 1 ;; cd <- py_int c1 ;;
          correct_frac <- Fraction_of_ints cn cd ;;
          Ok (Some (Fraction_eqb user_frac correct_frac)))
         [ValueError; ZeroDivisionError]
         (Ok None))
    else (env, Ok None)
  else (mkLocals None None, Ok None).

Definition any_format_Fraction (s : string) : result Fraction :=
  if contains "/" s then Fraction_of_string s
  else x <- py_float s ;; Fraction_of_float x.

Definition numeric_block (user_str correct_str : string)
    : result (option bool) :=
  try_except
    (user_frac <- any_format_Fraction user_str ;;
     correct_frac <- any_format_Fraction correct_str ;;
     Ok (Some (Fraction_eqb user_frac correct_frac)))
    [ValueError; ZeroDivisionError]
    (Ok None).

Definition parts_quotient (parts : option (list string)) : result float :=
  l <- read_local parts ;;
  p0 <- getitem l 0 ;; a <- py_float p0 ;;
  p1 <- getitem l 1 ;; b <- py_float p1 ;;
  fdiv a b.

Definition tolerance_block (env : locals) (user_str correct_str : string)
    : result (option bool) :=
  try_except
    (user_float <-
       (if negb (contains "/" user_str) then py_float user_str
        else parts_quotient (user_parts env)) ;;
     correct_float <-
       (if negb (contains "/" correct_str) then py_float correct_str
        else parts_quotient (correct_parts env)) ;;
     Ok (Some (flt (fabs (fsub user_float correct_float)) lit_0_001)))
    [ValueError; ZeroDivisionError]
    (Ok None).

(** The body of the outer [try]. *)
Definition comparison_body (user_str correct_str : string)
    : result (option bool) :=
  let '(env, r1) := fraction_block user_str correct_str in
  o1 <- r1 ;;
  match o1 with
  | Some b => Ok (Some b)
  | None =>
      o2 <- numeric_block user_str correct_str ;;
      match o2 with
      | Some b => Ok (Some b)
      | None => tolerance_block env user_str correct_str
      end
  end.

(** [user_answer] is a string, or [None] when no answer was given. *)
Definition check_answer (user_answer' : option string)
    (correct_answer' : string) : result bool :=
  match user_answer' with
  | None => Ok false
  | Some ua =>
      let user_str := strip ua in
      let correct_str := strip correct_answer' in
      if String.eqb user_str correct_str then Ok true
      else
        r <- try_except_Exception (comparison_body user_str correct_str)
               (fun _ => Ok None) ;;
        match r with
        | Some b => Ok b
        | None => Ok (String.eqb user_str correct_str)
        end
  end.

(** What the user interface and the question generator supply for one
    round of the timed challenge: the generated question with its answer,
    the answer typed and the time measured.  The wall clock is external;
    the list of rounds handed to [play_timed_challenge] stands for the
    rounds the clock allowed to start. *)
Record RoundInput : Type := mkRoundInput {
  in_question : string;
  in_correct_answer : string;
  in_user_answer : option string;
  in_time_taken : float
}.

(** What one round shows: the result recorded, the streak message and the
    difficulty message. *)
Record RoundOutput : Type := mkRoundOutput {
  out_result : RoundResult;
  out_streak_message : option string;
  out_difficulty_message : option string
}.

Definition is_sentinel (a : option string) : bool :=
  match a with
  | Some s => String.eqb s "__TIME_UP__" || String.eqb s "__QUIT__"
  | None => false
  end.

(** The body of the loop of [play_timed_challenge], from the answer check
    to the difficulty adjustment. *)
Definition timed_round (self : MathGame) (round_num : Z) (i : RoundInput)
    : result RoundOutput * MathGame :=
  match check_answer (in_user_answer i) (in_correct_answer i) with
  | Raise e => (Raise e, self)
  | Ok is_correct =>
      match calculate_score self is_correct (in_time_taken i) with
      | Raise e => (Raise e, self)
      | Ok sc =>
          let result :=
            mkRoundResult is_correct (in_time_taken i) (in_question i)
              (in_user_answer i) (in_correct_answer i) (Some sc) in
          let self1 := add_result self result in
          let '(streak_message, self2) := update_streak self1 is_correct in
          if adaptive_difficulty self2 && (round_num mod 3 =? 0) then
            match adjust_difficulty self2 with
            | (Raise e, self3) => (Raise e, self3)
            | (Ok difficulty_message, self3) =>
                (Ok (mkRoundOutput result streak_message difficulty_message),
                 self3)
            end
          else (Ok (mkRoundOutput result streak_message None), self2)
      end
  end.

(** The rounds of the loop, until the inputs end or a sentinel answer
    breaks out of it. *)
Fixpoint timed_rounds (self : MathGame) (round_num : Z)
    (inputs : list RoundInput) : result (list RoundOutput) * MathGame :=
  match inputs with
  | [] => (Ok [], self)
  | i :: rest =>
      if is_sentinel (in_user_answer i) then (Ok [], self)
      else
        match timed_round self round_num i with
        | (Raise e, self') => (Raise e, self')
        | (Ok o, self') =>
            match timed_rounds self' (round_num + 1) rest with
            | (Raise e, self'') => (Raise e, self'')
            | (Ok os, self'') => (Ok (o :: os), self'')
            end
        end
  end.

Definition reset_session (self : MathGame) : MathGame :=
  mkMathGame (operation_type self) (difficulty self) (adaptive_difficulty self)
    (rounds self) [] 0 0 (timed_mode self) (time_limit self).

Definition play_timed_challenge (self : MathGame) (inputs : list RoundInput)
    : result Stats.t * MathGame :=
  match timed_rounds (reset_session self) 1 inputs with
  | (Raise e, self') => (Raise e, self')
  | (Ok _, self') => (get_game_stats self', self')
  end.

(* ================================================================== *)
(** ** Reference definitions taken from the specification *)
(* ================================================================== *)

(** The multipliers [1.0, 1.5, 2.5] of the specification. *)
Definition spec_multipliers : list float := [Fin 1; Fin (3 # 2); Fin (5 # 2)].

(** The score as the specification words it, evaluated in double precision:
    0 for a wrong answer, otherwise the floor of
    [100 * multipliers[d-1] + speed_bonus + streak_bonus], where the speed
    bonus is [50 * ((5.0 - t) / 5.0)] when [t < 5.0] and the streak bonus is
    [25 * (1 + (s - 3) * 0.1)] when [s >= 3], each 0 otherwise. *)
Definition score_spec (is_correct : bool) (t : float) (d s : Z) : result Z :=
  if negb is_correct then Ok 0
  else
    mult <- getitem spec_multipliers (d - 1) ;;
    let base := fmul (Fin 100) mult in
    speed <-
      (if flt t (Fin 5) then
         ratio <- fdiv (fsub (Fin 5) t) (Fin 5) ;;
         Ok (fmul (Fin 50) ratio)
       else Ok (Fin 0)) ;;
    streak <-
      (if 3 <=? s then
         k <- float_of_Z (s - 3) ;;
         Ok (fmul (Fin 25) (fadd (Fin 1) (fmul k lit_0_1)))
       else Ok (Fin 0)) ;;
    floor_of_float (fadd (fadd base speed) streak).

(** A session with the given difficulty and streak count, all else as in a
    fresh game. *)
Definition session (d s : Z) : MathGame :=
  mkMathGame None d false MAX_ROUNDS [] s 0 false 60.

(** The string [f"{p}/{q}"] of two ints. *)
Definition fraction_string (p q : Z) : string :=
  str_of_Z p ++ String "/"%char (str_of_Z q).

(* ================================================================== *)
(** ** Sessions the program can reach *)
(* ================================================================== *)

(** The sessions reachable from a fresh [MathGame] object through its
    methods.  The difficulty menus of the user interfaces offer the
    choices 1 to 4 only, which is what [setup_game] is called with. *)
Inductive reachable : MathGame -> Prop :=
| reach_init : reachable init
| reach_setup_game self op choice n tm tl :
    reachable self -> 1 <= choice <= 4 ->
    reachable (setup_game self op choice n tm tl)
| reach_add_result self r :
    reachable self -> reachable (add_result self r)
| reach_update_streak self c :
    reachable self -> reachable (snd (update_streak self c))
| reach_adjust_difficulty self :
    reachable self -> reachable (snd (adjust_difficulty self))
| reach_play_timed_challenge self inputs :
    reachable self -> reachable (snd (play_timed_challenge self inputs)).

(* ================================================================== *)
(** ** Notions used by the proofs *)
(* ================================================================== *)

(** The value of the positive rational [n/d]. *)
Definition Qpos_value (n d : positive) : Q := (inject_Z (Zpos n) / inject_Z (Zpos d))%Q.

(** [below K x]: the float [x] is finite, non-negative and at most [2^K]. *)
Definition below (K : Z) (x : float) : Prop :=
  exists q : Q, x = Fin q /\ (0 <= q)%Q /\ (q <= 2 ^ K)%Q.

(** The number [n] the code holds stands for the float [x] of the
    reference: the same float, or an int that converts to it exactly. *)
Definition stands_for (n : number) (x : float) : Prop :=
  n = PyFloat x
  \/ exists z : Z, n = PyInt z /\ x = Fin (inject_Z z) /\ float_of_Z z = Ok x.

(** Every character of [s] satisfies [p]. *)
Fixpoint string_forall (p : ascii -> bool) (s : string) : bool :=
  match s with
  | EmptyString => true
  | String c r => p c && string_forall p r
  end.

Definition is_digit (c : ascii) : bool :=
  match digit_cons c Decimal.Nil with
  | Some _ => true
  | None => false
  end.

(** The characters of a formatted int: digits and the minus sign. *)
Definition is_int_char (c : ascii) : bool :=
  is_digit c || Ascii.eqb c "-"%char.

(* ================================================================== *)
(** ** Notions used to state the properties of a whole challenge *)
(* ================================================================== *)

(** The number of correct results at the start of a list. *)
Fixpoint leading_correct (l : list RoundResult) : Z :=
  match l with
  | [] => 0
  | r :: rest => if correct r then 1 + leading_correct rest else 0
  end.

(** The length of the run of correct results that ends a list. *)
Definition trailing_correct (l : list RoundResult) : Z :=
  leading_correct (rev l).

(** The inputs before the first sentinel answer: the rounds that are
    played. *)
Fixpoint before_sentinel (inputs : list RoundInput) : list RoundInput :=
  match inputs with
  | [] => []
  | i :: rest =>
      if is_sentinel (in_user_answer i) then [] else i :: before_sentinel rest
  end.

(** A measured time: a finite float, not below [-2^62]. *)
Definition measured (x : float) : Prop :=
  exists t : Q, x = Fin t /\ (- inject_Z (2 ^ 62) <= t)%Q.

(** What a session keeps true across the rounds of a challenge: the
    streak count is the length of the run of correct results that ends
    the list of results, and the total score is the sum of their scores. *)
Definition consistent (self : MathGame) : Prop :=
  streak_count self = trailing_correct (results self)
  /\ total_score self = sum_ints (map get_score (results self)).

(* ================================================================== *)
(** ** main.py: the command-line game *)
(* ================================================================== *)

(** What the loop of [main] prints after an adaptive step: the direction
    and the name of the new level (the printed line decorates them). *)
Inductive announcement : Type :=
| Increased (name : string)
| Adjusted (name : string).

(** The adaptive step of the loop of [main] (run every third round in
    adaptive mode), on the loop's [difficulty] and [results]: the new
    difficulty and what is printed. *)
Definition main_adjust (difficulty' : Z) (results' : list RoundResult)
    : result (Z * option announcement) :=
  let recent_results := last3 results' in
  let correct_count := count_correct recent_results in
  avg_time <- mean_time recent_results ;;
  if (correct_count =? 3) && flt avg_time (Fin 5) then
    let d := Z.min 3 (difficulty' + 1) in
    if 1 <? d then
      name <- getitem difficulty_names (d - 1) ;;
      Ok (d, Some (Increased name))
    else Ok (d, None)
  else if correct_count <=? 1 then
    let d := Z.max 1 (difficulty' - 1) in
    if d <? 3 then
      name <- getitem difficulty_names (d - 1) ;;
      Ok (d, Some (Adjusted name))
    else Ok (d, None)
  else Ok (difficulty', None).

(* ================================================================== *)
(** ** questions.py: the names of the operations *)
(* ================================================================== *)

Definition OPERATION_ADD : Z := 1.
Definition OPERATION_SUB : Z := 2.
Definition OPERATION_MUL : Z := 3.
Definition OPERATION_DIV : Z := 4.
Definition OPERATION_FRAC : Z := 5.
Definition OPERATION_PERC : Z := 6.
Definition OPERATION_EXP : Z := 7.
Definition OPERATION_ARRAY : Z := 8.
Definition OPERATION_MIXED : Z := 9.

(** A Python dict with string keys: the items in insertion order. *)
Definition dict (K V : Type) : Type := list (K * V).

Section Dict.
Context {K V : Type} (eqb : K -> K -> bool).

(** [d.get(k)]. *)
Fixpoint dict_get (d : dict K V) (k : K) : option V :=
  match d with
  | [] => None
  | (k', v) :: rest => if eqb k' k then Some v else dict_get rest k
  end.

(** [d[k] = v]: the value of an existing key is replaced in place, a new
    key is added at the end. *)
Fixpoint dict_set (d : dict K V) (k : K) (v : V) : dict K V :=
  match d with
  | [] => [(k, v)]
  | (k', v') :: rest =>
      if eqb k' k then (k', v) :: rest else (k', v') :: dict_set rest k v
  end.

(** [k in d]. *)
Definition dict_mem (d : dict K V) (k : K) : bool :=
  match dict_get d k with Some _ => true | None => false end.

End Dict.

(** [QuestionGenerator.get_operation_name]. *)
Definition operations_map : dict Z string :=
  [ (OPERATION_ADD, "Addition"); (OPERATION_SUB, "Subtraction");
    (OPERATION_MUL, "Multiplication"); (OPERATION_DIV, "Division");
    (OPERATION_FRAC, "Fractions"); (OPERATION_PERC, "Percentages");
    (OPERATION_EXP, "Exponents"); (OPERATION_ARRAY, "Arrays");
    (OPERATION_MIXED, "Mixed Challenge") ].

Definition get_operation_name (operation_type : Z) : string :=
  match dict_get Z.eqb operations_map operation_type with
  | Some name => name
  | None => "Unknown"
  end.

(** [s.replace(a, b)] for one-character [a] and [b]. *)
Fixpoint replace (a b : ascii) (s : string) : string :=
  match s with
  | EmptyString => EmptyString
  | String c r => String (if Ascii.eqb c a then b else c) (replace a b r)
  end.

(** [range(a, a + n)]. *)
Fixpoint range (a : Z) (n : nat) : list Z :=
  match n with
  | O => []
  | S k => a :: range (a + 1) k
  end.

(* ================================================================== *)
(** ** high_scores.py *)
(* ================================================================== *)

Module HighScoreManager.

(** One stored high score. *)
Record entry : Type := mk_entry {
  score : Z;
  date : string;
  accuracy : number;
  avg_time : number
}.

(** [scores["last_played"]], once a game has been recorded. *)
Record played : Type := mk_played {
  operation : string;
  played_difficulty : Z;
  mode : string;
  played_date : string
}.

(** [scores["stats"]]. *)
Record counters : Type := mk_counters {
  total_problems_solved : Z;
  total_time_played : number;
  games_played : Z
}.

(** [self.scores], with the shape [_create_default_scores] gives it: per
    mode a dict from the operation's key to a dict from the difficulty's
    key to an entry.  [last_played] is [None] for the empty dict. *)
Record t : Type := mk {
  normal_mode : dict string (dict string entry);
  timed_mode : dict string (dict string entry);
  last_played : option played;
  stats : counters
}.

Definition zero_entry : entry := mk_entry 0 "" (PyInt 0) (PyInt 0).

(** The key of an operation: [get_operation_name(op).lower().replace(" ", "_")]. *)
Definition op_name (operation_type : Z) : string :=
  replace " " "_" (lower_string (get_operation_name operation_type)).

(** [f"difficulty_{difficulty}"]. *)
Definition diff_key (difficulty : Z) : string :=
  "difficulty_" ++ str_of_Z difficulty.

(** [game_mode in ["normal_mode", "timed_mode"]]. *)
Definition is_mode (game_mode : string) : bool :=
  existsb (String.eqb game_mode) ["normal_mode"; "timed_mode"].

(** [self.scores[game_mode]] for one of the two modes. *)
Definition get_mode (self : t) (game_mode : string)
    : dict string (dict string entry) :=
  if String.eqb game_mode "normal_mode" then normal_mode self
  else timed_mode self.

Definition set_mode (self : t) (game_mode : string)
    (m : dict string (dict string entry)) : t :=
  if String.eqb game_mode "normal_mode"
  then mk m (timed_mode self) (last_played self) (stats self)
  else mk (normal_mode self) m (last_played self) (stats self).

(** [self.scores[game_mode][op][key]], when the keys exist. *)
Definition bucket (self : t) (game_mode op key : string) : option entry :=
  match dict_get String.eqb (get_mode self game_mode) op with
  | Some by_difficulty => dict_get String.eqb by_difficulty key
  | None => None
  end.

(** [self.scores[game_mode][op][key] = e], on an existing
    [self.scores[game_mode][op]]. *)
Definition set_bucket (self : t) (game_mode op key : string) (e : entry) : t :=
  match dict_get String.eqb (get_mode self game_mode) op with
  | Some by_difficulty =>
      set_mode self game_mode
        (dict_set String.eqb (get_mode self game_mode) op
           (dict_set String.eqb by_difficulty key e))
  | None => self
  end.

(** [_create_default_scores]. *)
Definition create_default_scores : t :=
  let by_difficulty :=
    fold_left (fun d diff => dict_set String.eqb d (diff_key diff) zero_entry)
              (range 1 3) [] in
  let by_operation :=
    fold_left (fun m op => dict_set String.eqb m (op_name op) by_difficulty)
              (range 1 9) [] in
  mk by_operation by_operation None (mk_counters 0 (PyInt 0) 0).

(** The two steps under "Ensure structure exists". *)
Definition ensure (self : t) (game_mode op key : string) : t :=
  let self1 :=
    if dict_mem String.eqb (get_mode self game_mode) op then self
    else set_mode self game_mode
           (dict_set String.eqb (get_mode self game_mode) op []) in
  match bucket self1 game_mode op key with
  | Some _ => self1
  | None => set_bucket self1 game_mode op key zero_entry
  end.

(** [update_high_score].  [now] is what [time.strftime] returns;
    [average_difficulty] is the key of that name in [stats], when it has
    one.  Writing the file is left out.  An exception leaves the store as
    the statements before it made it. *)
Definition update_high_score (self : t) (now game_mode : string)
    (operation_type difficulty : Z) (stats' : Stats.t)
    (average_difficulty : option Z) : result (option (bool * Z)) * t :=
  if negb (is_mode game_mode) then (Ok None, self)
  else
    let op := op_name operation_type in
    let difficulty :=
      if 3 <? difficulty then
        match average_difficulty with Some d => d | None => 1 end
      else difficulty in
    let key := diff_key difficulty in
    let self := ensure self game_mode op key in
    let prev_high_score :=
      match bucket self game_mode op key with
      | Some e => score e
      | None => 0
      end in
    let is_high_score := prev_high_score <? Stats.total_score stats' in
    let self :=
      if is_high_score then
        set_bucket self game_mode op key
          (mk_entry (Stats.total_score stats') now
                    (Stats.accuracy stats') (Stats.avg_time stats'))
      else self in
    let self :=
      mk (normal_mode self) (timed_mode self)
         (Some (mk_played op difficulty game_mode now)) (stats self) in
    let self :=
      mk (normal_mode self) (timed_mode self) (last_played self)
         (mk_counters
            (total_problems_solved (stats self) + Stats.total_rounds stats')
            (total_time_played (stats self)) (games_played (stats self))) in
    match
      (played_time <- num_mul (Stats.avg_time stats')
                              (PyInt (Stats.total_rounds stats')) ;;
       num_add (total_time_played (stats self)) played_time)
    with
    | Raise e => (Raise e, self)
    | Ok time_played =>
        let self :=
          mk (normal_mode self) (timed_mode self) (last_played self)
             (mk_counters (total_problems_solved (stats self)) time_played
                          (games_played (stats self) + 1)) in
        (Ok (Some (is_high_score, prev_high_score)), self)
    end.

(** [get_high_score]: a missing key at any level gives the zero entry.
    For a [game_mode] other than the two modes, [self.scores[game_mode]]
    is missing or is the last-played or the counters dict, none of which
    has an operation's key. *)
Definition get_high_score (self : t) (game_mode : string)
    (operation_type difficulty : Z) : entry :=
  if is_mode game_mode then
    match bucket self game_mode (op_name operation_type)
                 (diff_key (Z.min difficulty 3)) with
    | Some e => e
    | None => zero_entry
    end
  else zero_entry.

End HighScoreManager.

(** A time total as the table holds it: the int 0 it starts from, or a
    float. *)
Definition time_like (n : number) : Prop :=
  n = PyInt 0 \/ exists x : float, n = PyFloat x.

(** The float [x] is finite and lies between the ints [A] and [B]. *)
Definition between (A B : Z) (x : float) : Prop :=
  exists q : Q, x = Fin q /\ (inject_Z A <= q)%Q /\ (q <= inject_Z B)%Q.

Definition num_between (A B : Z) (n : number) : Prop :=
  match n with
  | PyInt z => A <= z <= B
  | PyFloat x => between A B x
  end.

(** The points of a correct answer before the bonuses:
    [POINTS_BASE * POINTS_DIFFICULTY_MULTIPLIER[d - 1]]. *)
Definition base_points (d : Z) : Z :=
  if d =? 1 then 100 else if d =? 2 then 150 else 250.

(* ================================================================== *)
(** ** cli.py: reading an answer *)
(* ================================================================== *)

(** What [input()] gives: a line, or [KeyboardInterrupt] / [EOFError]. *)
Inductive keyboard : Type :=
| Line (s : string)
| Interrupted.

(** [needle in s] for strings. *)
Fixpoint substring_in (needle s : string) : bool :=
  String.prefix needle s
  || match s with
     | EmptyString => false
     | String _ r => substring_in needle r
     end.

(** The division sign of the questions, as the UTF-8 bytes of the source
    literal (questions and this literal are held as UTF-8 text). *)
Definition division_sign : string :=
  String (ascii_of_nat 224) (String (ascii_of_nat 184) (String (ascii_of_nat 163)
  (String (ascii_of_nat 224) (String (ascii_of_nat 184) (String (ascii_of_nat 151)
   EmptyString))))).

Definition allow_float_for (question' : string) : bool :=
  contains "/" question' || contains "." question'
  || substring_in division_sign question'.

(** One pass through the body of the loop of [get_answer] on the line
    read: the answer returned, or [None] to ask again, and what is
    printed. *)
Definition get_answer_body (allow_float : bool) (line : string)
    : result (option string * list string) :=
  let user_answer := strip line in
  if String.eqb user_answer "" then
    Ok (None, ["Please enter an answer."])
  else if contains "/" user_answer then
    let parts := split "/" user_answer in
    if negb (List.length parts =? 2)%nat then
      Ok (None, ["Invalid fraction format. Use a/b format."])
    else
      try_except
        (p0 <- getitem parts 0 ;; numerator' <- py_int p0 ;;
         p1 <- getitem parts 1 ;; denominator' <- py_int p1 ;;
         if denominator' =? 0 then
           Ok (None, ["Denominator cannot be zero."])
         else Ok (Some user_answer, []))
        [ValueError]
        (Ok (None,
             ["Invalid fraction. Use integers for numerator and denominator."]))
  else
    try_except
      (_ <- (if allow_float then x <- py_float user_answer ;; Ok tt
             else z <- py_int user_answer ;; Ok tt) ;;
       Ok (Some user_answer, []))
      [ValueError]
      (Ok (None, ["Please enter a valid number."])).

(** The loop of [get_answer] on the lines the keyboard will give; when
    they run out, [input()] meets the end of the input.  The answer
    ([None] after an interrupt), the lines printed and the input left. *)
Fixpoint get_answer_loop (allow_float : bool) (inputs : list keyboard)
    : result (option string) * list string * list keyboard :=
  match inputs with
  | [] => (Ok None, [], [])
  | Interrupted :: rest => (Ok None, [], rest)
  | Line l :: rest =>
      match get_answer_body allow_float l with
      | Raise e => (Raise e, [], rest)
      | Ok (Some a, out) => (Ok (Some a), out, rest)
      | Ok (None, out) =>
          let '(r, out', rest') := get_answer_loop allow_float rest in
          (r, (out ++ out')%list, rest')
      end
  end.

(** [get_answer]. *)
Definition get_answer (question' : string) (inputs : list keyboard)
    : result (option string) * list string * list keyboard :=
  let '(r, out, rest) := get_answer_loop (allow_float_for question') inputs in
  (r, ("Calculate: " ++ question') :: out, rest).

(** [get_answer_timed], without the clock: the answer handed to the game. *)
Definition get_answer_timed (k : keyboard) : option string :=
  match k with
  | Line l =>
      let user_answer := strip l in
      if String.eqb user_answer "" then None else Some user_answer
  | Interrupted => Some "__QUIT__"
  end.

(** The answers [get_answer] lets through: trimmed and not empty; with a
    slash, two int literals around it with a non-zero denominator;
    otherwise a float literal when floats are allowed and an int literal
    when not. *)
Definition valid_answer (allow_float : bool) (a : string) : Prop :=
  a <> "" /\ strip a = a
  /\ if contains "/" a then
       exists (p0 p1 : string) (n m : Z),
         split "/" a = [p0; p1] /\ py_int p0 = Ok n /\ py_int p1 = Ok m
         /\ m <> 0
     else if allow_float then exists x : float, py_float a = Ok x
     else exists z : Z, py_int a = Ok z.

(* ================================================================== *)
(** ** questions.py: normalize_answer *)
(* ================================================================== *)

(** What [normalize_answer] returns: a [Fraction], an int, a float, or the
    string it was given. *)
Inductive normalized : Type :=
| NFraction (f : Fraction)
| NInt (z : Z)
| NFloat (x : float)
| NStr (s : string).

(** [a, b = items] for an iterator that computes its items on demand:
    after the second item a third one is asked for, to see that there is
    none. *)
Definition unpack2 {A : Type} (items : list (result A)) : result (A * A) :=
  match items with
  | [] => Raise ValueError
  | r0 :: rest =>
      a <- r0 ;;
      match rest with
      | [] => Raise ValueError
      | r1 :: rest' =>
          b <- r1 ;;
          match rest' with
          | [] => Ok (a, b)
          | r2 :: _ => _ <- r2 ;; Raise ValueError
          end
      end
  end.

(** [x == i] for a float and an int: the values are compared exactly. *)
Definition float_eq_int (x : float) (i : Z) : bool :=
  match x with
  | Fin q => Qeq_bool q (inject_Z i)
  | _ => false
  end.

Definition normalize_answer (answer_str : string) : result normalized :=
  if contains "/" answer_str then
    try_except
      (nd <- unpack2 (map py_int (split "/" answer_str)) ;;
       let '(num, denom) := nd in
       f <- Fraction_of_ints num denom ;;
       Ok (NFraction f))
      [ValueError; ZeroDivisionError]
      (Ok (NStr answer_str))
  else
    try_except
      (value <- py_float answer_str ;;
       i <- int_of_float value ;;
       if float_eq_int value i then Ok (NInt i) else Ok (NFloat value))
      [ValueError]
      (Ok (NStr answer_str)).

(* ================================================================== *)
(** ** The random module *)
(* ================================================================== *)

(** A question generator runs on the values its calls to the [random]
    module return, in the order of the calls: [randint(a, b)] takes the
    next value, which lies in [a..b]; [choice(l)] takes the next value as
    the position chosen in [l].  A value that a call cannot return stops
    the run ([None]). *)
Definition rand (A : Type) : Type := list Z -> option (A * list Z).

Definition rret {A : Type} (a : A) : rand A := fun s => Some (a, s).

Definition rbind {A B : Type} (m : rand A) (k : A -> rand B) : rand B :=
  fun s => match m s with
           | Some (a, s') => k a s'
           | None => None
           end.

Declare Scope rand_scope.
Delimit Scope rand_scope with rand.
Notation "x <~ m ;; k" := (rbind m (fun x => k))
  (at level 61, m at next level, right associativity) : rand_scope.
Local Open Scope rand_scope.

Definition random_randint (a b : Z) : rand Z :=
  fun s => match s with
           | v :: s' => if (a <=? v) && (v <=? b) then Some (v, s') else None
           | [] => None
           end.

Definition random_choice {A : Type} (l : list A) : rand A :=
  fun s => match s with
           | v :: s' =>
               if 0 <=? v then
                 match nth_error l (Z.to_nat v) with
                 | Some a => Some (a, s')
                 | None => None
                 end
               else None
           | [] => None
           end.

(** Text outside ASCII is held as its UTF-8 bytes. *)
Definition utf8 (bytes : list nat) : string :=
  fold_right (fun n s => String (ascii_of_nat n) s) EmptyString bytes.

(* ================================================================== *)
(** ** questions.py: the generators of the four basic operations *)
(* ================================================================== *)

(** The sign the multiplication questions show (the bytes of the source
    literal). *)
Definition times_sign : string := utf8 [224; 184; 163; 194; 151]%nat.

Definition generate_addition_question (difficulty' : Z) : rand (string * string) :=
  nums <~ (if difficulty' =? 1 then
             num1 <~ random_randint 1 20 ;; num2 <~ random_randint 1 20 ;; rret (num1, num2)
           else if difficulty' =? 2 then
             num1 <~ random_randint 10 100 ;; num2 <~ random_randint 10 100 ;; rret (num1, num2)
           else
             num1 <~ random_randint 50 500 ;; num2 <~ random_randint 50 500 ;; rret (num1, num2)) ;;
  let '(num1, num2) := nums in
  let question' := str_of_Z num1 ++ " + " ++ str_of_Z num2 in
  let answer := num1 + num2 in
  rret (question', str_of_Z answer).

Definition generate_subtraction_question (difficulty' : Z) : rand (string * string) :=
  nums <~ (if difficulty' =? 1 then
             num2 <~ random_randint 1 10 ;; num1 <~ random_randint num2 20 ;; rret (num1, num2)
           else if difficulty' =? 2 then
             num2 <~ random_randint 10 50 ;; num1 <~ random_randint num2 100 ;; rret (num1, num2)
           else
             num2 <~ random_randint 50 200 ;; num1 <~ random_randint num2 500 ;; rret (num1, num2)) ;;
  let '(num1, num2) := nums in
  let question' := str_of_Z num1 ++ " - " ++ str_of_Z num2 in
  let answer := num1 - num2 in
  rret (question', str_of_Z answer).

Definition generate_multiplication_question (difficulty' : Z)
    : rand (string * string) :=
  nums <~ (if difficulty' =? 1 then
             num1 <~ random_randint 1 10 ;; num2 <~ random_randint 1 10 ;; rret (num1, num2)
           else if difficulty' =? 2 then
             num1 <~ random_randint 2 12 ;; num2 <~ random_randint 11 30 ;; rret (num1, num2)
           else
             num1 <~ random_randint 11 30 ;; num2 <~ random_randint 11 30 ;; rret (num1, num2)) ;;
  let '(num1, num2) := nums in
  let question' := str_of_Z num1 ++ " " ++ times_sign ++ " " ++ str_of_Z num2 in
  let answer := num1 * num2 in
  rret (question', str_of_Z answer).

Section Division.

(** [str(round(x, 2))] for a float [x]. *)
Variable str_round_2 : float -> string.

Definition generate_division_question (difficulty' : Z)
    : rand (result (string * string)) :=
  nums <~ (if difficulty' =? 1 then
             divisor <~ random_randint 1 10 ;;
             result' <~ random_randint 1 10 ;;
             rret (divisor * result', divisor)
           else if difficulty' =? 2 then
             divisor <~ random_randint 2 15 ;;
             dividend <~ random_randint 20 150 ;;
             if negb (dividend mod divisor =? 0) then
               adjust <~ random_choice [true; false] ;;
               if adjust then rret ((dividend / divisor) * divisor, divisor)
               else rret (dividend, divisor)
             else rret (dividend, divisor)
           else
             divisor <~ random_randint 5 25 ;;
             dividend <~ random_randint 100 500 ;;
             rret (dividend, divisor)) ;;
  let '(dividend, divisor) := nums in
  let question' := str_of_Z dividend ++ " " ++ division_sign ++ " "
                   ++ str_of_Z divisor in
  rret (result' <- num_truediv (PyInt dividend) (PyInt divisor) ;;
        whole <- int_of_float result' ;;
        if float_eq_int result' whole then Ok (question', str_of_Z whole)
        else Ok (question', str_round_2 result')).

End Division.

(* ================================================================== *)
(** ** operations.py: fraction questions *)
(* ================================================================== *)

(** [a + b], [a - b], [a * b], [a / b] and [a > b] on [Fraction]s. *)
Definition Fraction_add (a b : Fraction) : result Fraction :=
  Fraction_of_ints (numerator a * denominator b + numerator b * denominator a)
                   (denominator a * denominator b).

Definition Fraction_sub (a b : Fraction) : result Fraction :=
  Fraction_of_ints (numerator a * denominator b - numerator b * denominator a)
                   (denominator a * denominator b).

Definition Fraction_mul (a b : Fraction) : result Fraction :=
  Fraction_of_ints (numerator a * numerator b)
                   (denominator a * denominator b).

Definition Fraction_truediv (a b : Fraction) : result Fraction :=
  Fraction_of_ints (numerator a * denominator b)
                   (denominator a * numerator b).

Definition Fraction_gtb (a b : Fraction) : bool :=
  numerator b * denominator a <? numerator a * denominator b.

(** The four operations of the fraction questions, with the sign each
    shows. *)
Inductive fraction_operation : Type := FPlus | FMinus | FTimes | FDivide.

Definition operation_sign (op : fraction_operation) : string :=
  match op with
  | FPlus => "+"
  | FMinus => "-"
  | FTimes => utf8 [195; 151]%nat
  | FDivide => utf8 [195; 183]%nat
  end.

(** What [generate_fraction_question] does after its calls to the random
    module, on the values they returned. *)
Definition fraction_question_of (difficulty' : Z) (operation : fraction_operation)
    (num1 denom1 num2 denom2 : Z) : result (string * string) :=
  frac1 <- Fraction_of_ints num1 denom1 ;;
  frac2 <- Fraction_of_ints num2 denom2 ;;
  let question' := fraction_string num1 denom1 ++ " "
                   ++ operation_sign operation ++ " "
                   ++ fraction_string num2 denom2 in
  qa <- match operation with
        | FPlus =>
            answer <- Fraction_add frac1 frac2 ;; Ok (question', answer)
        | FMinus =>
            if (difficulty' <? 3) && Fraction_gtb frac2 frac1 then
              let question' :=
                fraction_string (numerator frac2) (denominator frac2)
                ++ " - "
                ++ fraction_string (numerator frac1) (denominator frac1) in
              answer <- Fraction_sub frac2 frac1 ;; Ok (question', answer)
            else
              answer <- Fraction_sub frac1 frac2 ;; Ok (question', answer)
        | FTimes =>
            answer <- Fraction_mul frac1 frac2 ;; Ok (question', answer)
        | FDivide =>
            if numerator frac2 =? 0 then
              frac2 <- Fraction_of_ints 1 denom2 ;;
              let question' := fraction_string num1 denom1 ++ " "
                               ++ operation_sign operation ++ " "
                               ++ fraction_string 1 denom2 in
              answer <- Fraction_truediv frac1 frac2 ;; Ok (question', answer)
            else
              answer <- Fraction_truediv frac1 frac2 ;; Ok (question', answer)
        end ;;
  let '(question', answer) := qa in
  let answer_str :=
    if denominator answer =? 1 then str_of_Z (numerator answer)
    else fraction_string (numerator answer) (denominator answer) in
  Ok (question', answer_str).

Definition generate_fraction_question (difficulty' : Z)
    : rand (result (string * string)) :=
  operation <~ random_choice [FPlus; FMinus; FTimes; FDivide] ;;
  draws <~ (if difficulty' =? 1 then
              denom1 <~ random_choice [2; 3; 4; 5] ;;
              denom2 <~ random_choice [2; 3; 4; 5] ;;
              num1 <~ random_randint 1 (denom1 - 1) ;;
              num2 <~ random_randint 1 (denom2 - 1) ;;
              rret (num1, denom1, num2, denom2)
            else if difficulty' =? 2 then
              denom1 <~ random_choice [4; 5; 6; 8; 10] ;;
              denom2 <~ random_choice [4; 5; 6; 8; 10] ;;
              num1 <~ random_randint 1 denom1 ;;
              num2 <~ random_randint 1 denom2 ;;
              rret (num1, denom1, num2, denom2)
            else
              denom1 <~ random_choice [6; 8; 9; 12; 15; 16] ;;
              denom2 <~ random_choice [6; 8; 9; 12; 15; 16] ;;
              num1 <~ random_randint 1 (denom1 * 2) ;;
              num2 <~ random_randint 1 denom2 ;;
              rret (num1, denom1, num2, denom2)) ;;
  let '(num1, denom1, num2, denom2) := draws in
  rret (fraction_question_of difficulty' operation num1 denom1 num2 denom2).

(** The rational [a/b] for a positive [b]. *)
Definition ratio (a b : Z) : Q := Qmake a (Z.to_pos b).


(* ================================================================== *)
(** ** main.py: the comparison of [play_round] *)
(* ================================================================== *)

(** The statements of [play_round] that set [is_correct], on the answer
    the input stage has produced ([None] when it was not understood). *)
Definition main_check (user_answer' : option string) (correct_answer' : string)
    : result bool :=
  match user_answer' with
  | None => Ok false
  | Some ua =>
      try_except
        (if contains "/" ua && contains "/" correct_answer' then
           let up := split "/" ua in
           let cp := split "/" correct_answer' in
           if (List.length up =? 2)%nat && (List.length cp =? 2)%nat then
             u0 <- getitem up 0 ;; un <- py_int u0 ;;
             u1 <- getitem up 1 ;; ud <- py_int u1 ;;
             user_frac <- Fraction_of_ints un ud ;;
             c0 <- getitem cp 0 ;; cn <- py_int c0 ;;
             c1 <- getitem cp 1 ;; cd <- py_int c1 ;;
             correct_frac <- Fraction_of_ints cn cd ;;
             Ok (Fraction_eqb user_frac correct_frac)
           else Ok false
         else if contains "." ua || contains "." correct_answer' then
           try_except
             (user_float <- py_float ua ;;
              correct_float <- py_float correct_answer' ;;
              Ok (flt (fabs (fsub user_float correct_float)) lit_0_001))
             [ValueError]
             (Ok false)
         else Ok (String.eqb ua correct_answer'))
        [ValueError; ZeroDivisionError]
        (Ok (String.eqb ua correct_answer'))
  end.

(* ================================================================== *)
(** ** The menus of main.py and cli.py *)
(* ================================================================== *)

(** How a function that reads the keyboard ends: with a value, or with
    the [KeyboardInterrupt] or [EOFError] of [input()], which these
    functions do not catch.  Either way, the input left. *)
Inductive prompted (A : Type) : Type :=
| Answered (a : A) (rest : list keyboard)
| Aborted (rest : list keyboard).
Arguments Answered {A} a rest.
Arguments Aborted {A} rest.

(** The loop of [get_difficulty] and [get_operation_choice] of main.py:
    an int between [lo] and [hi]. *)
Fixpoint main_get_choice (lo hi : Z) (inputs : list keyboard) : prompted Z :=
  match inputs with
  | [] => Aborted []
  | Interrupted :: rest => Aborted rest
  | Line l :: rest =>
      match py_int l with
      | Ok choice' =>
          if (lo <=? choice') && (choice' <=? hi) then Answered choice' rest
          else main_get_choice lo hi rest
      | Raise _ => main_get_choice lo hi rest
      end
  end.

Definition get_operation_choice : list keyboard -> prompted Z :=
  main_get_choice 1 9.

Definition get_difficulty : list keyboard -> prompted Z :=
  main_get_choice 1 4.

(** [get_menu_choice] of cli.py, on the keys of [options]: the choice, or
    [None] for [q]. *)
Fixpoint get_menu_choice (options : list Z) (allow_quit : bool)
    (inputs : list keyboard) : prompted (option Z) :=
  match inputs with
  | [] => Aborted []
  | Interrupted :: rest => Aborted rest
  | Line l :: rest =>
      let choice' := lower_string (strip l) in
      if allow_quit && String.eqb choice' "q" then Answered None rest
      else
        match py_int choice' with
        | Ok c =>
            if existsb (Z.eqb c) options then Answered (Some c) rest
            else get_menu_choice options allow_quit rest
        | Raise _ => get_menu_choice options allow_quit rest
        end
  end.

Definition show_difficulty_menu : list keyboard -> prompted (option Z) :=
  get_menu_choice [1; 2; 3; 4] true.

(** [a < b] on Python numbers: ints and floats are compared exactly. *)
Definition num_ltb (a b : number) : bool :=
  match a, b with
  | PyInt x, PyInt y => x <? y
  | PyFloat x, PyInt y => flt x (Fin (inject_Z y))
  | PyInt x, PyFloat y => flt (Fin (inject_Z x)) y
  | PyFloat x, PyFloat y => flt x y
  end.

(** [get_numeric_input] of cli.py. *)
Fixpoint get_numeric_input (min_val max_val : option Z) (allow_float : bool)
    (default : option Z) (inputs : list keyboard) : prompted number :=
  match inputs with
  | [] => Aborted []
  | Interrupted :: rest => Aborted rest
  | Line l :: rest =>
      let user_input := strip l in
      match (if String.eqb user_input "" then default else None) with
      | Some d => Answered (PyInt d) rest
      | None =>
          match (if allow_float then x <- py_float user_input ;; Ok (PyFloat x)
                 else z <- py_int user_input ;; Ok (PyInt z)) with
          | Ok value =>
              if match min_val with
                 | Some m => num_ltb value (PyInt m)
                 | None => false
                 end
                 || match max_val with
                    | Some m => num_ltb (PyInt m) value
                    | None => false
                    end
              then get_numeric_input min_val max_val allow_float default rest
              else Answered value rest
          | Raise _ => get_numeric_input min_val max_val allow_float default rest
          end
      end
  end.

Definition get_rounds : list keyboard -> prompted number :=
  get_numeric_input (Some 1) (Some 20) false (Some 10).

Definition get_time_limit : list keyboard -> prompted number :=
  get_numeric_input (Some 30) (Some 300) false (Some 60).

(* ================================================================== *)
(** ** questions.py: generate_question *)
(* ================================================================== *)

Section Dispatch.

(** [str(round(x, 2))], and the three generators of operations.py that
    format floats. *)
Variable str_round_2 : float -> string.
Variable generate_percentage_question : Z -> rand (result (string * string)).
Variable generate_exponent_question : Z -> rand (result (string * string)).
Variable generate_array_question : Z -> rand (result (string * string)).

(** [generate_question]: the question with its answer, and what is
    printed.  The mixed challenge calls the function again on a drawn
    operation; [fuel] bounds the depth of the calls, and [None] says that
    it did not suffice. *)
Fixpoint generate_question (fuel : nat) (operation_type' difficulty' : Z)
    : rand (option (result (string * string) * list string)) :=
  match fuel with
  | O => rret None
  | S fuel' =>
      if operation_type' =? OPERATION_ADD then
        qa <~ generate_addition_question difficulty' ;; rret (Some (Ok qa, []))
      else if operation_type' =? OPERATION_SUB then
        qa <~ generate_subtraction_question difficulty' ;; rret (Some (Ok qa, []))
      else if operation_type' =? OPERATION_MUL then
        qa <~ generate_multiplication_question difficulty' ;;
        rret (Some (Ok qa, []))
      else if operation_type' =? OPERATION_DIV then
        r <~ generate_division_question str_round_2 difficulty' ;;
        rret (Some (r, []))
      else if operation_type' =? OPERATION_FRAC then
        r <~ generate_fraction_question difficulty' ;; rret (Some (r, []))
      else if operation_type' =? OPERATION_PERC then
        r <~ generate_percentage_question difficulty' ;; rret (Some (r, []))
      else if operation_type' =? OPERATION_EXP then
        r <~ generate_exponent_question difficulty' ;; rret (Some (r, []))
      else if operation_type' =? OPERATION_ARRAY then
        r <~ generate_array_question difficulty' ;; rret (Some (r, []))
      else if operation_type' =? OPERATION_MIXED then
        random_op <~ random_randint 1 8 ;;
        generate_question fuel' random_op difficulty'
      else
        qa <~ generate_addition_question difficulty' ;;
        rret (Some (Ok qa,
                    ["This operation is coming soon! Using addition for now."]))
  end.

End Dispatch.

(* ================================================================== *)
(** ** operations.py: percentage questions *)
(* ================================================================== *)

(** [a - b] on Python numbers. *)
Definition num_sub (a b : number) : result number :=
  match a, b with
  | PyInt x, PyInt y => Ok (PyInt (x - y))
  | _, _ => x <- to_float a ;; y <- to_float b ;; Ok (PyFloat (fsub x y))
  end.

Section Percentage.

(** The builtins [round(x, n)] and [str(x)] on a float [x]. *)
Variable round_to : float -> Z -> float.
Variable str_float : float -> string.

(** [round(a, n)] for [0 <= n]: an int is returned as it is. *)
Definition round_number (a : number) (n : Z) : number :=
  match a with
  | PyInt z => PyInt z
  | PyFloat x => PyFloat (round_to x n)
  end.

Definition str_number (a : number) : string :=
  match a with
  | PyInt z => str_of_Z z
  | PyFloat x => str_float x
  end.

(** The question [What is P% of N?] and its answer [(P / 100) * N]. *)
Definition percent_of (percentage number' : number)
    : result (string * number) :=
  hundredth <- num_truediv percentage (PyInt 100) ;;
  answer <- num_mul (PyFloat hundredth) number' ;;
  Ok ("What is " ++ str_number percentage ++ "% of " ++ str_number number'
      ++ "?", answer).

(** The question [X is what percent of Y?]. *)
Definition what_percent (x y : Z) : string :=
  str_of_Z x ++ " is what percent of " ++ str_of_Z y ++ "?".

Definition generate_percentage_question (difficulty' : Z)
    : rand (result (string * string)) :=
  q_type <~ random_randint 1 3 ;;
  qa <~ (if difficulty' =? 1 then
           if q_type =? 1 then
             percentage <~ random_choice [10; 25; 50; 75; 100] ;;
             n <~ random_randint 1 100 ;;
             rret (percent_of (PyInt percentage) (PyInt (n * 4)))
           else if q_type =? 2 then
             n <~ random_randint 5 10 ;;
             let y := n * 10 in
             percentage <~ random_choice [10; 20; 25; 50; 75] ;;
             rret (hundredth <- num_truediv (PyInt percentage) (PyInt 100) ;;
                   product <- num_mul (PyFloat hundredth) (PyInt y) ;;
                   x <- int_of_number product ;;
                   Ok (what_percent x y, PyInt percentage))
           else
             n <~ random_randint 10 100 ;;
             let number' := n * 10 in
             percentage <~ random_choice [5; 10; 25; 50; 100] ;;
             rret (hundredth <- num_truediv (PyInt percentage) (PyInt 100) ;;
                   factor <- num_add (PyInt 1) (PyFloat hundredth) ;;
                   answer <- num_mul (PyInt number') factor ;;
                   Ok (str_of_Z number' ++ " + " ++ str_of_Z percentage ++ "%",
                       answer))
         else if difficulty' =? 2 then
           if q_type =? 1 then
             percentage <~ random_randint 1 99 ;;
             number' <~ random_randint 1 200 ;;
             rret (percent_of (PyInt percentage) (PyInt number'))
           else if q_type =? 2 then
             y <~ random_randint 50 200 ;;
             x <~ random_randint 5 y ;;
             rret (quotient <- num_truediv (PyInt x) (PyInt y) ;;
                   percent <- num_mul (PyFloat quotient) (PyInt 100) ;;
                   Ok (what_percent x y, round_number percent 1))
           else
             number' <~ random_randint 100 500 ;;
             percentage <~ random_randint 1 40 ;;
             rret (hundredth <- num_truediv (PyInt percentage) (PyInt 100) ;;
                   factor <- num_add (PyInt 1) (PyFloat hundredth) ;;
                   answer <- num_mul (PyInt number') factor ;;
                   Ok (str_of_Z number' ++ " + " ++ str_of_Z percentage ++ "%",
                       answer))
         else
           if q_type =? 1 then
             tenths <~ random_randint 1 999 ;;
             number' <~ random_randint 100 500 ;;
             rret (percentage <- num_truediv (PyInt tenths) (PyInt 10) ;;
                   percent_of (PyFloat percentage) (PyInt number'))
           else if q_type =? 2 then
             y <~ random_randint 50 500 ;;
             x <~ random_randint 1 y ;;
             rret (quotient <- num_truediv (PyInt x) (PyInt y) ;;
                   percent <- num_mul (PyFloat quotient) (PyInt 100) ;;
                   Ok (what_percent x y, round_number percent 2))
           else
             number' <~ random_randint 500 1000 ;;
             percentage <~ random_randint 1 75 ;;
             rret (hundredth <- num_truediv (PyInt percentage) (PyInt 100) ;;
                   factor <- num_sub (PyInt 1) (PyFloat hundredth) ;;
                   answer <- num_mul (PyInt number') factor ;;
                   Ok (str_of_Z number' ++ " - " ++ str_of_Z percentage ++ "%",
                       answer))) ;;
  rret (qa' <- qa ;;
        let '(question', answer) := qa' in
        let answer := match answer with
                      | PyFloat x => PyFloat (round_to x 2)
                      | PyInt _ => answer
                      end in
        Ok (question', str_number answer)).

End Percentage.

(* ================================================================== *)
(** ** main.py: the generators of the basic operations and the answer
       read for them *)
(* ================================================================== *)

(** [a // b] on ints. *)
Definition int_floordiv (a b : Z) : result Z :=
  if b =? 0 then Raise ZeroDivisionError else Ok (a / b).

(** The functions of main.py that share their names with methods of
    questions.py.  The answers are ints here, not strings. *)
Module Main.

(** The signs the questions show (the bytes of the source literals). *)
Definition times_sign : string := utf8 [226; 136; 154; 195; 179]%nat.

Definition division_sign : string := utf8 [226; 136; 154; 226; 136; 145]%nat.

Definition generate_addition_question (difficulty' : Z) : rand (string * Z) :=
  nums <~ (if difficulty' =? 1 then
             x <~ random_randint 1 20 ;; y <~ random_randint 1 20 ;; rret (x, y)
           else if difficulty' =? 2 then
             x <~ random_randint 10 99 ;; y <~ random_randint 10 99 ;; rret (x, y)
           else
             x <~ random_randint 100 999 ;; y <~ random_randint 100 999 ;;
             rret (x, y)) ;;
  let '(x, y) := nums in
  let question' := str_of_Z x ++ " + " ++ str_of_Z y in
  let answer := x + y in
  rret (question', answer).

Definition generate_subtraction_question (difficulty' : Z) : rand (string * Z) :=
  nums <~ (if difficulty' =? 1 then
             y <~ random_randint 1 10 ;; x <~ random_randint y 20 ;; rret (x, y)
           else if difficulty' =? 2 then
             y <~ random_randint 10 50 ;; x <~ random_randint y 99 ;; rret (x, y)
           else
             y <~ random_randint 100 500 ;; x <~ random_randint y 999 ;;
             rret (x, y)) ;;
  let '(x, y) := nums in
  let question' := str_of_Z x ++ " - " ++ str_of_Z y in
  let answer := x - y in
  rret (question', answer).

Definition generate_multiplication_question (difficulty' : Z)
    : rand (string * Z) :=
  nums <~ (if difficulty' =? 1 then
             x <~ random_randint 1 10 ;; y <~ random_randint 1 10 ;; rret (x, y)
           else if difficulty' =? 2 then
             x <~ random_randint 5 20 ;; y <~ random_randint 5 20 ;; rret (x, y)
           else
             x <~ random_randint 10 99 ;; y <~ random_randint 10 30 ;;
             rret (x, y)) ;;
  let '(x, y) := nums in
  let question' := str_of_Z x ++ " " ++ times_sign ++ " " ++ str_of_Z y in
  let answer := x * y in
  rret (question', answer).

Definition generate_division_question (difficulty' : Z)
    : rand (result (string * Z)) :=
  nums <~ (if difficulty' =? 1 then
             y <~ random_randint 1 10 ;;
             multiple <~ random_randint 1 10 ;;
             rret (y * multiple, y)
           else if difficulty' =? 2 then
             y <~ random_randint 2 12 ;;
             multiple <~ random_randint 1 20 ;;
             rret (y * multiple, y)
           else
             y <~ random_randint 2 25 ;;
             multiple <~ random_randint 10 40 ;;
             rret (y * multiple, y)) ;;
  let '(x, y) := nums in
  let question' := str_of_Z x ++ " " ++ division_sign ++ " " ++ str_of_Z y in
  rret (answer <- int_floordiv x y ;; Ok (question', answer)).

End Main.

Section BasicInput.

(** [str(x)] for a float [x]. *)
Variable str_float : float -> string.

Definition is_zero (c : ascii) : bool := Ascii.eqb c "0"%char.

(** The input stage of [play_round] for the basic operations, on the line
    read: the answer handed to the comparison, [None] when the line is
    not a number. *)
Definition basic_answer (line : string) : result (option string) :=
  try_except
    (try_except
       (z <- py_int line ;; Ok (Some (str_of_Z z)))
       [ValueError]
       (try_except
          (x <- py_float line ;;
           let user_answer := str_float x in
           Ok (Some (if contains "." user_answer
                     then rstrip_of is_dot (rstrip_of is_zero user_answer)
                     else user_answer)))
          [ValueError]
          (Ok None)))
    [ValueError]
    (Ok None).

End BasicInput.


(* ================================================================== *)
(** ** Frame and invariant lemmas of the session methods *)
(* ================================================================== *)

Lemma adjust_difficulty_frame (self : MathGame) :
  let self' := snd (adjust_difficulty self) in
  operation_type self' = operation_type self
  /\ adaptive_difficulty self' = adaptive_difficulty self
  /\ rounds self' = rounds self
  /\ results self' = results self
  /\ streak_count self' = streak_count self
  /\ total_score self' = total_score self
  /\ timed_mode self' = timed_mode self
  /\ time_limit self' = time_limit self.
Proof.
  unfold adjust_difficulty.
  destruct (adaptive_difficulty self) eqn:Ha; simpl; [|now rewrite Ha].
  destruct (_ <? 3)%nat; simpl; [now rewrite Ha|].
  destruct (mean_time _) as [avg|e]; simpl; [|now rewrite Ha].
  destruct (_ && _); [|destruct (_ <=? 1)];
    match goal with |- context [if ?b then _ else _] => destruct b end;
    simpl; now rewrite ?Ha.
Qed.

Lemma adjust_difficulty_range (self : MathGame) :
  1 <= difficulty self <= 3 ->
  1 <= difficulty (snd (adjust_difficulty self)) <= 3.
Proof.
  intros Hd. unfold adjust_difficulty.
  destruct (adaptive_difficulty self); simpl; [|exact Hd].
  destruct (_ <? 3)%nat; simpl; [exact Hd|].
  destruct (mean_time _) as [avg|e]; simpl; [|exact Hd].
  destruct (_ && _); [|destruct (_ <=? 1)];
    match goal with |- context [if ?b then _ else _] => destruct b end;
    simpl; lia.
Qed.

Lemma update_streak_frame (self : MathGame) (c : bool) :
  let self' := snd (update_streak self c) in
  difficulty self' = difficulty self
  /\ adaptive_difficulty self' = adaptive_difficulty self
  /\ results self' = results self
  /\ total_score self' = total_score self.
Proof.
  unfold update_streak. destruct c; simpl.
  - destruct (_ && _); simpl; auto.
  - auto.
Qed.

Lemma timed_round_range (self : MathGame) (n : Z) (i : RoundInput) :
  1 <= difficulty self <= 3 ->
  1 <= difficulty (snd (timed_round self n i)) <= 3.
Proof.
  intros Hd. unfold timed_round.
  destruct (check_answer _ _) as [c|e]; [|exact Hd].
  destruct (calculate_score _ _ _) as [sc|e]; [|exact Hd].
  set (r := mkRoundResult _ _ _ _ _ _).
  destruct (update_streak (add_result self r) c) as [msg self2] eqn:Hu.
  assert (H2 : 1 <= difficulty self2 <= 3).
  { pose proof (update_streak_frame (add_result self r) c) as F.
    rewrite Hu in F. simpl in F. destruct F as [F _]. rewrite F. exact Hd. }
  destruct (_ && _); [|exact H2].
  pose proof (adjust_difficulty_range self2 H2) as H3.
  destruct (adjust_difficulty self2) as [[m|e] self3]; exact H3.
Qed.

Lemma timed_rounds_range (inputs : list RoundInput) :
  forall (self : MathGame) (n : Z),
    1 <= difficulty self <= 3 ->
    1 <= difficulty (snd (timed_rounds self n inputs)) <= 3.
Proof.
  induction inputs as [|i rest IH]; intros self n Hd; simpl; [exact Hd|].
  destruct (is_sentinel _); [exact Hd|].
  pose proof (timed_round_range self n i Hd) as H1.
  destruct (timed_round self n i) as [[o|e] self']; simpl in H1; [|exact H1].
  pose proof (IH self' (n + 1) H1) as H2.
  destruct (timed_rounds self' (n + 1) rest) as [[os|e] self'']; exact H2.
Qed.

Lemma play_timed_challenge_range (self : MathGame) (inputs : list RoundInput) :
  1 <= difficulty self <= 3 ->
  1 <= difficulty (snd (play_timed_challenge self inputs)) <= 3.
Proof.
  intros Hd. unfold play_timed_challenge.
  pose proof (timed_rounds_range inputs (reset_session self) 1 Hd) as H.
  destruct (timed_rounds _ _ _) as [[os|e] self']; exact H.
Qed.

Lemma reachable_difficulty_range (self : MathGame) :
  reachable self -> 1 <= difficulty self <= 3.
Proof.
  induction 1 as [|self op choice n tm tl _ _ Hc|self r _ IH|self c _ IH
                  |self _ IH|self inputs _ IH].
  - simpl; lia.
  - unfold setup_game. destruct (choice <? 4) eqn:E; simpl; lia.
  - exact IH.
  - destruct (update_streak_frame self c) as [F _]. rewrite F. exact IH.
  - now apply adjust_difficulty_range.
  - now apply play_timed_challenge_range.
Qed.

(* ================================================================== *)
(** ** The difficulty invariant *)
(* ================================================================== *)

(** C10: outside adaptive mode [adjust_difficulty] returns [None] and leaves
    the whole session as it was: difficulty, streak count, total score and
    results included. *)
Theorem adjust_difficulty_off_is_noop (self : MathGame) :
  adaptive_difficulty self = false ->
  adjust_difficulty self = (Ok None, self).
Proof.
  intros Ha. unfold adjust_difficulty. now rewrite Ha.
Qed.

Lemma adjust_difficulty_off_is_noop_witness :
  adaptive_difficulty (setup_game init 1 2 10 false 60) = false
  /\ adjust_difficulty (setup_game init 1 2 10 false 60)
     = (Ok None, setup_game init 1 2 10 false 60).
Proof.
  split; [reflexivity|].
  apply (adjust_difficulty_off_is_noop (setup_game init 1 2 10 false 60)).
  reflexivity.
Defined.

(** C8: [setup_game] stores a choice below 4 as the difficulty with adaptive
    mode off and turns the choice 4 into difficulty 1 with adaptive mode on;
    every session the program reaches has its difficulty in 1..3, and
    [adjust_difficulty] keeps it there. *)
Theorem difficulty_always_in_range :
  (forall self op choice n tm tl,
      choice < 4 ->
      difficulty (setup_game self op choice n tm tl) = choice
      /\ adaptive_difficulty (setup_game self op choice n tm tl) = false)
  /\ (forall self op n tm tl,
      difficulty (setup_game self op 4 n tm tl) = 1
      /\ adaptive_difficulty (setup_game self op 4 n tm tl) = true)
  /\ (forall self, reachable self -> 1 <= difficulty self <= 3)
  /\ (forall self,
      1 <= difficulty self <= 3 ->
      1 <= difficulty (snd (adjust_difficulty self)) <= 3).
Proof.
  repeat split.
  - unfold setup_game. destruct (Z.ltb_spec choice 4); [reflexivity|lia].
  - unfold setup_game. destruct (Z.ltb_spec choice 4); [reflexivity|lia].
  - now apply reachable_difficulty_range.
  - now apply reachable_difficulty_range.
  - now apply adjust_difficulty_range.
  - now apply adjust_difficulty_range.
Qed.

Lemma difficulty_always_in_range_witness :
  reachable (snd (adjust_difficulty (setup_game init 1 4 10 false 60)))
  /\ 1 <= difficulty (snd (adjust_difficulty (setup_game init 1 4 10 false 60))) <= 3.
Proof.
  assert (R : reachable (snd (adjust_difficulty (setup_game init 1 4 10 false 60)))).
  { apply reach_adjust_difficulty, reach_setup_game; [apply reach_init|lia]. }
  split; [exact R|].
  exact (proj1 (proj2 (proj2 difficulty_always_in_range)) _ R).
Defined.

(* ================================================================== *)
(** ** The rounding function *)
(* ================================================================== *)

Local Open Scope Q_scope.

Lemma two_pow_pos (e : Z) : 0 < 2 ^ e.
Proof. apply Qpower_0_lt. reflexivity. Qed.

Lemma two_pow_add (a b : Z) : 2 ^ (a + b) == 2 ^ a * 2 ^ b.
Proof. apply Qpower_plus. discriminate. Qed.

Lemma two_pow_Z (e : Z) : (0 <= e)%Z -> 2 ^ e == inject_Z (2 ^ e).
Proof. intros He. symmetry. apply (Zpower_Qpower 2 e He). Qed.

Lemma two_pow_ge_1 (e : Z) : (0 <= e)%Z -> 1 <= 2 ^ e.
Proof.
  intros He. rewrite (two_pow_Z e He).
  change 1 with (inject_Z 1). rewrite <- Zle_Qle.
  pose proof (Z.pow_pos_nonneg 2 e ltac:(lia) He). lia.
Qed.

Lemma two_pow_le (a b : Z) : (a <= b)%Z -> 2 ^ a <= 2 ^ b.
Proof.
  intros Hab. replace b with (a + (b - a))%Z by lia.
  rewrite two_pow_add.
  pose proof (two_pow_pos a). pose proof (two_pow_ge_1 (b - a) ltac:(lia)).
  nra.
Qed.

Lemma two_pow_succ (a : Z) : 2 ^ (a + 1) == 2 * 2 ^ a.
Proof. rewrite two_pow_add. change (2 ^ 1) with 2. ring. Qed.

Lemma two_pow_opp (e : Z) : 2 ^ e * 2 ^ (- e) == 1.
Proof.
  rewrite <- two_pow_add. replace (e + - e)%Z with 0%Z by lia. reflexivity.
Qed.

Lemma inject_Z_pos (z : Z) : (0 < z)%Z -> 0 < inject_Z z.
Proof. intros H. change 0 with (inject_Z 0). now rewrite <- Zlt_Qlt. Qed.

(** [scale2 n d e] denotes [n/d * 2^(-e)]: with [(a, b)] its result,
    [a = n/d * 2^(-e) * b]. *)
Lemma scale2_spec (n d e : Z) :
  (0 < d)%Z ->
  (0 < snd (scale2 n d e))%Z
  /\ inject_Z (fst (scale2 n d e))
     == inject_Z n / inject_Z d * 2 ^ (- e) * inject_Z (snd (scale2 n d e)).
Proof.
  intros Hd. unfold scale2.
  pose proof (inject_Z_pos d Hd) as Hd'.
  pose proof (two_pow_opp e) as Hinv.
  destruct (Z.leb_spec 0 e) as [He|He]; simpl.
  - split; [pose proof (Z.pow_pos_nonneg 2 e ltac:(lia) He); nia|].
    rewrite inject_Z_mult, <- (two_pow_Z e He).
    transitivity (inject_Z n * (2 ^ e * 2 ^ (- e))); [rewrite Hinv; ring|].
    field. lra.
  - split; [exact Hd|].
    rewrite inject_Z_mult, <- (two_pow_Z (- e)) by lia.
    field. lra.
Qed.

Lemma rne_le (a b c : Z) : (0 < b)%Z -> (a <= c * b)%Z -> (rne a b <= c)%Z.
Proof.
  intros Hb Hac. unfold rne.
  pose proof (Z.div_mod a b ltac:(lia)) as E.
  pose proof (Z.mod_pos_bound a b Hb) as R.
  destruct (Z.compare_spec (2 * (a mod b)) b) as [C|C|C];
    [destruct (Z.even (a / b))| |]; nia.
Qed.

Lemma rne_ge (a b c : Z) : (0 < b)%Z -> (c * b <= a)%Z -> (c <= rne a b)%Z.
Proof.
  intros Hb Hac. unfold rne.
  pose proof (Z.div_mod a b ltac:(lia)) as E.
  pose proof (Z.mod_pos_bound a b Hb) as R.
  destruct (Z.compare_spec (2 * (a mod b)) b) as [C|C|C];
    [destruct (Z.even (a / b))| |]; nia.
Qed.

(** With [a = y * b] for a rational [y], [rne a b] lies between the
    integers that bound [y]. *)
Lemma rne_le_Q (a b c : Z) (y : Q) :
  (0 < b)%Z -> inject_Z a == y * inject_Z b -> y <= inject_Z c ->
  (rne a b <= c)%Z.
Proof.
  intros Hb Ha Hy. apply rne_le; [exact Hb|].
  rewrite Zle_Qle, inject_Z_mult, Ha.
  pose proof (inject_Z_pos b Hb). nra.
Qed.

Lemma rne_ge_Q (a b c : Z) (y : Q) :
  (0 < b)%Z -> inject_Z a == y * inject_Z b -> inject_Z c <= y ->
  (c <= rne a b)%Z.
Proof.
  intros Hb Ha Hy. apply rne_ge; [exact Hb|].
  rewrite Zle_Qle, inject_Z_mult, Ha.
  pose proof (inject_Z_pos b Hb). nra.
Qed.

Lemma dyadic_spec (m e : Z) : dyadic m e == inject_Z m * 2 ^ e.
Proof.
  unfold dyadic. destruct (Z.leb_spec 0 e) as [He|He].
  - now rewrite inject_Z_mult, (two_pow_Z e He).
  - rewrite Qred_correct, Qmake_Qdiv.
    assert (Hp : (0 < 2 ^ (- e))%Z) by (apply Z.pow_pos_nonneg; lia).
    rewrite Z2Pos.id by exact Hp.
    rewrite <- (two_pow_Z (- e)) by lia.
    pose proof (two_pow_opp e) as Hinv. pose proof (two_pow_pos (- e)).
    field_simplify_eq; [|lra].
    transitivity (inject_Z m * (2 ^ e * 2 ^ (- e))); [rewrite Hinv; ring|ring].
Qed.


Lemma Qpos_value_pos (n d : positive) : 0 < Qpos_value n d.
Proof.
  unfold Qpos_value. apply Qlt_shift_div_l; [now apply inject_Z_pos|].
  rewrite Qmult_0_l. now apply inject_Z_pos.
Qed.

Lemma log2_bounds_Q (p : positive) :
  2 ^ Z.log2 (Zpos p) <= inject_Z (Zpos p)
  /\ inject_Z (Zpos p) < 2 ^ (Z.log2 (Zpos p) + 1).
Proof.
  pose proof (Z.log2_spec (Zpos p) ltac:(lia)) as [H1 H2].
  pose proof (Z.log2_nonneg (Zpos p)) as H0.
  rewrite (two_pow_Z _ H0), (two_pow_Z (Z.log2 (Zpos p) + 1)) by lia.
  split; [now rewrite <- Zle_Qle|].
  rewrite <- Zlt_Qlt. exact H2.
Qed.

Lemma ilog2_spec (n d : positive) :
  2 ^ ilog2 n d <= Qpos_value n d /\ Qpos_value n d < 2 ^ (ilog2 n d + 1).
Proof.
  unfold ilog2.
  set (k := (Z.log2 (Zpos n) - Z.log2 (Zpos d))%Z).
  destruct (scale2_spec (Zpos n) (Zpos d) k ltac:(lia)) as [Hb Ha].
  destruct (scale2 (Zpos n) (Zpos d) k) as [a b]; simpl in Hb, Ha.
  fold (Qpos_value n d) in Ha.
  pose proof (Qpos_value_pos n d) as Hx.
  pose proof (inject_Z_pos b Hb) as Hb'.
  pose proof (two_pow_opp k) as Hinv.
  pose proof (two_pow_pos k) as Hk. pose proof (two_pow_pos (- k)) as Hk'.
  assert (Hlo : 2 ^ (k - 1) < Qpos_value n d /\ Qpos_value n d < 2 ^ (k + 1)).
  { destruct (log2_bounds_Q n) as [N1 N2]. destruct (log2_bounds_Q d) as [D1 D2].
    pose proof (inject_Z_pos (Zpos d) ltac:(lia)) as Hd.
    pose proof (two_pow_pos (Z.log2 (Zpos d))) as Pd.
    pose proof (two_pow_pos (Z.log2 (Zpos n))) as Pn.
    assert (E1 : 2 ^ (k + 1) * 2 ^ Z.log2 (Zpos d) == 2 ^ (Z.log2 (Zpos n) + 1)).
    { rewrite <- two_pow_add. unfold k.
      now replace (Z.log2 (Zpos n) - Z.log2 (Zpos d) + 1 + Z.log2 (Zpos d))%Z
        with (Z.log2 (Zpos n) + 1)%Z by lia. }
    assert (E2 : 2 ^ (k - 1) * 2 ^ (Z.log2 (Zpos d) + 1) == 2 ^ Z.log2 (Zpos n)).
    { rewrite <- two_pow_add. unfold k.
      now replace (Z.log2 (Zpos n) - Z.log2 (Zpos d) - 1 + (Z.log2 (Zpos d) + 1))%Z
        with (Z.log2 (Zpos n)) by lia. }
    pose proof (two_pow_pos (k + 1)) as P1. pose proof (two_pow_pos (k - 1)) as P2.
    unfold Qpos_value. split.
    - apply Qlt_shift_div_l; [exact Hd|]. nra.
    - apply Qlt_shift_div_r; [exact Hd|]. nra. }
  destruct Hlo as [L1 L2].
  set (y := Qpos_value n d * 2 ^ (- k)) in *.
  assert (Hy : Qpos_value n d == y * 2 ^ k).
  { unfold y. rewrite <- Qmult_assoc, (Qmult_comm (2 ^ (- k))), Hinv. ring. }
  destruct (Z.leb_spec b a) as [C|C].
  - split; [|exact L2].
    rewrite Zle_Qle in C. assert (1 <= y) by nra. rewrite Hy. nra.
  - replace (k - 1 + 1)%Z with k by lia. split; [lra|].
    rewrite Zlt_Qlt in C. assert (y < 1) by nra. rewrite Hy. nra.
Qed.

Lemma two_pow_lt_inv (a b : Z) : 2 ^ a < 2 ^ b -> (a < b)%Z.
Proof.
  intros H. destruct (Z.lt_ge_cases a b) as [L|L]; [exact L|].
  pose proof (two_pow_le b a L). lra.
Qed.

(** The outcome of rounding a positive rational below [2^K]: a finite
    float [m * 2^e] of the right sign, at most [2^K], and at least [2^l]
    when the rational is at least [2^l] in the normal range. *)
Lemma rnd_pos_fin (neg : bool) (n d : positive) (K : Z) :
  Qpos_value n d < 2 ^ K -> (-1074 <= K <= 1023)%Z ->
  exists m e : Z,
    rnd_pos neg n d = Fin (dyadic (if neg then (- m)%Z else m) e)
    /\ (0 <= m)%Z
    /\ inject_Z m * 2 ^ e <= 2 ^ K
    /\ ((-1022 <= ilog2 n d)%Z -> 2 ^ ilog2 n d <= inject_Z m * 2 ^ e).
Proof.
  intros HX HK.
  destruct (ilog2_spec n d) as [L1 L2].
  pose proof (Qpos_value_pos n d) as Hx.
  set (x := Qpos_value n d) in *. set (l := ilog2 n d) in *.
  assert (Hl : (l < K)%Z) by (apply two_pow_lt_inv; lra).
  unfold rnd_pos. fold l.
  set (e := Z.max (l - 52) (-1074)).
  assert (He0 : e = Z.max (l - 52) (-1074)) by reflexivity. clearbody e.
  destruct (scale2_spec (Zpos n) (Zpos d) e ltac:(lia)) as [Hb Ha].
  destruct (scale2 (Zpos n) (Zpos d) e) as [a b]; simpl in Hb, Ha.
  fold (Qpos_value n d) in Ha. fold x in Ha.
  set (y := x * 2 ^ (- e)) in *.
  pose proof (two_pow_pos e) as Pe. pose proof (two_pow_pos (- e)) as Pe'.
  pose proof (two_pow_opp e) as Hinv.
  assert (Hxy : x == y * 2 ^ e).
  { unfold y. rewrite <- Qmult_assoc, (Qmult_comm (2 ^ (- e))), Hinv. ring. }
  assert (Hy0 : 0 <= y) by (unfold y; nra).
  replace ((971 <? e)%Z || (e =? 971)%Z && (2 ^ 53 <=? rne a b)%Z) with false.
  2:{ symmetry. apply orb_false_iff. split.
      - apply Z.ltb_ge. lia.
      - apply andb_false_iff. left. apply Z.eqb_neq. lia. }
  exists (rne a b), e. split; [reflexivity|].
  assert (Hm0 : (0 <= rne a b)%Z).
  { apply (rne_ge_Q a b 0 y Hb Ha). exact Hy0. }
  split; [exact Hm0|].
  pose proof (two_pow_le (l + 1) K ltac:(lia)) as HlK.
  split.
  - destruct (Z.le_gt_cases 0 (l + 1 - e)) as [C|C].
    + assert (Hm : (rne a b <= 2 ^ (l + 1 - e))%Z).
      { apply (rne_le_Q a b _ y Hb Ha).
        rewrite <- (two_pow_Z _ C).
        assert (E : 2 ^ (l + 1 - e) * 2 ^ e == 2 ^ (l + 1)).
        { rewrite <- two_pow_add. now replace (l + 1 - e + e)%Z with (l + 1)%Z by lia. }
        pose proof (two_pow_pos (l + 1 - e)). nra. }
      rewrite Zle_Qle, <- (two_pow_Z _ C) in Hm.
      assert (E : 2 ^ (l + 1 - e) * 2 ^ e == 2 ^ (l + 1)).
      { rewrite <- two_pow_add. now replace (l + 1 - e + e)%Z with (l + 1)%Z by lia. }
      nra.
    + assert (Hm : (rne a b <= 1)%Z).
      { apply (rne_le_Q a b 1 y Hb Ha).
        change (inject_Z 1) with 1.
        pose proof (two_pow_le (l + 1) e ltac:(lia)).
        destruct (Qlt_le_dec 1 y) as [Y|Y]; [|exact Y].
        exfalso. nra. }
      rewrite Zle_Qle in Hm. change (inject_Z 1) with 1 in Hm.
      pose proof (two_pow_le e K ltac:(lia)).
      rewrite Zle_Qle in Hm0. change (inject_Z 0) with 0 in Hm0. nra.
  - intros Hn. assert (He : e = (l - 52)%Z) by lia.
    assert (Hm : (2 ^ 52 <= rne a b)%Z).
    { apply (rne_ge_Q a b _ y Hb Ha).
      rewrite <- (two_pow_Z 52) by lia.
      assert (E : 2 ^ 52 * 2 ^ e == 2 ^ l).
      { rewrite <- two_pow_add, He. now replace (52 + (l - 52))%Z with l by lia. }
      nra. }
    rewrite Zle_Qle, <- (two_pow_Z 52) in Hm by lia.
    assert (E : 2 ^ 52 * 2 ^ e == 2 ^ l).
    { rewrite <- two_pow_add, He. now replace (52 + (l - 52))%Z with l by lia. }
    nra.
Qed.

Lemma Qpos_value_eq (x : Q) (n : positive) :
  Qnum x = Zpos n -> Qpos_value n (Qden x) == x.
Proof.
  intros H. unfold Qpos_value. rewrite <- H, <- Qmake_Qdiv. now destruct x.
Qed.

Lemma Qpos_value_opp (x : Q) (n : positive) :
  Qnum x = Zneg n -> Qpos_value n (Qden x) == - x.
Proof.
  intros H. unfold Qpos_value. rewrite <- Qmake_Qdiv.
  destruct x as [xn xd]. simpl in *. subst xn. reflexivity.
Qed.

(** Rounding a rational of magnitude below [2^K], [K <= 1023], gives a
    finite float of magnitude at most [2^K] and of the same sign; a
    rational at least 1 rounds to a float at least 1. *)
Lemma rnd_fin (x : Q) (K : Z) :
  Qabs x < 2 ^ K -> (-1074 <= K <= 1023)%Z ->
  exists q : Q,
    rnd x = Fin q
    /\ Qabs q <= 2 ^ K
    /\ (0 <= x -> 0 <= q)
    /\ (x <= 0 -> q <= 0)
    /\ (1 <= x -> 1 <= q).
Proof.
  intros Hx HK. pose proof (two_pow_pos K) as PK.
  unfold rnd. destruct (Qnum x) as [|n|n] eqn:En.
  - exists 0. repeat split; try (simpl; lra).
    intros H1. assert (x == 0); [|lra].
    destruct x as [xn xd]. simpl in En. subst xn. reflexivity.
  - pose proof (Qpos_value_eq x n En) as Ev.
    pose proof (Qpos_value_pos n (Qden x)) as Pv.
    assert (Hv : Qpos_value n (Qden x) < 2 ^ K).
    { rewrite Ev. rewrite Qabs_pos in Hx; lra. }
    destruct (rnd_pos_fin false n (Qden x) K Hv HK) as (m & e & E & Hm & Hu & Hl).
    exists (dyadic m e). rewrite E.
    pose proof (dyadic_spec m e) as D.
    pose proof (two_pow_pos e) as Pe.
    assert (Hm' : 0 <= inject_Z m) by (change 0 with (inject_Z 0); now rewrite <- Zle_Qle).
    split; [reflexivity|].
    assert (0 <= dyadic m e) by (rewrite D; nra).
    repeat split.
    + rewrite Qabs_pos by assumption. now rewrite D.
    + auto.
    + intros. lra.
    + intros H1. rewrite D.
      destruct (ilog2_spec n (Qden x)) as [L1 L2].
      assert (H0 : (0 <= ilog2 n (Qden x))%Z).
      { assert (2 ^ 0 < 2 ^ (ilog2 n (Qden x) + 1)) as T.
        { change (2 ^ 0) with 1. lra. }
        apply two_pow_lt_inv in T. lia. }
      pose proof (two_pow_ge_1 _ H0). specialize (Hl ltac:(lia)). lra.
  - pose proof (Qpos_value_opp x n En) as Ev.
    pose proof (Qpos_value_pos n (Qden x)) as Pv.
    assert (Hv : Qpos_value n (Qden x) < 2 ^ K).
    { rewrite Ev. rewrite Qabs_neg in Hx; lra. }
    destruct (rnd_pos_fin true n (Qden x) K Hv HK) as (m & e & E & Hm & Hu & Hl).
    exists (dyadic (- m) e). rewrite E.
    pose proof (dyadic_spec (- m) e) as D. rewrite inject_Z_opp in D.
    pose proof (two_pow_pos e) as Pe.
    assert (Hm' : 0 <= inject_Z m) by (change 0 with (inject_Z 0); now rewrite <- Zle_Qle).
    split; [reflexivity|].
    assert (dyadic (- m) e <= 0) by (rewrite D; nra).
    repeat split.
    + rewrite Qabs_neg by assumption. rewrite D. nra.
    + intros. lra.
    + auto.
    + intros. lra.
Qed.

(* ================================================================== *)
(** ** Finite, non-negative floats of bounded size *)
(* ================================================================== *)


Lemma below_weaken (K K' : Z) (x : float) :
  below K x -> (K <= K')%Z -> below K' x.
Proof.
  intros (q & E & H0 & H1) HK. exists q. repeat split; try assumption.
  pose proof (two_pow_le K K' HK). lra.
Qed.

Lemma below_const (z K : Z) :
  (0 <= z)%Z -> (z <= 2 ^ K)%Z -> (0 <= K)%Z -> below K (Fin (inject_Z z)).
Proof.
  intros Hz Hb HK. exists (inject_Z z). split; [reflexivity|].
  rewrite (two_pow_Z K HK). split.
  - change 0 with (inject_Z 0). now rewrite <- Zle_Qle.
  - now rewrite <- Zle_Qle.
Qed.

Lemma rnd_below (x : Q) (K : Z) :
  0 <= x -> x < 2 ^ K -> (-1074 <= K <= 1023)%Z -> below K (rnd x).
Proof.
  intros H0 H1 HK.
  destruct (rnd_fin x K) as (q & E & Ha & Hp & _); [now rewrite Qabs_pos|exact HK|].
  exists q. split; [exact E|]. split; [auto|].
  specialize (Hp H0). rewrite Qabs_pos in Ha; assumption.
Qed.

Lemma fadd_below (K : Z) (x y : float) :
  below K x -> below K y -> (-1074 <= K <= 1021)%Z -> below (K + 2) (fadd x y).
Proof.
  intros (a & -> & A0 & A1) (b & -> & B0 & B1) HK. simpl.
  destruct (Qeq0 b); [apply (below_weaken K); [now exists a|lia]|].
  destruct (Qeq0 a); [apply (below_weaken K); [now exists b|lia]|].
  apply rnd_below; [lra| |lia].
  replace (K + 2)%Z with (K + 1 + 1)%Z by lia.
  rewrite !two_pow_succ. pose proof (two_pow_pos K). lra.
Qed.

Lemma fmul_below (K J : Z) (x y : float) :
  below K x -> below J y -> (-1074 <= K + J + 1 <= 1023)%Z ->
  below (K + J + 1) (fmul x y).
Proof.
  intros (a & -> & A0 & A1) (b & -> & B0 & B1) HK. simpl.
  apply rnd_below; [nra| |lia].
  rewrite two_pow_succ, two_pow_add.
  pose proof (two_pow_pos K). pose proof (two_pow_pos J). nra.
Qed.

Lemma fdiv_below (K : Z) (x : float) (c : Q) :
  below K x -> 1 <= c -> (-1074 <= K + 1 <= 1023)%Z ->
  exists r, fdiv x (Fin c) = Ok r /\ below (K + 1) r.
Proof.
  intros (a & -> & A0 & A1) Hc HK. unfold fdiv.
  assert (E : Qeq0 c = false).
  { unfold Qeq0. apply Z.eqb_neq. intros Hn.
    assert (c == 0); [|lra]. destruct c as [cn cd]. simpl in Hn. now subst cn. }
  rewrite E. eexists. split; [reflexivity|].
  pose proof (two_pow_pos K).
  assert (Hq : 0 <= a / c /\ a / c <= a).
  { split.
    - apply Qle_shift_div_l; lra.
    - apply Qle_shift_div_r; [lra|]. nra. }
  apply rnd_below; [lra| |lia].
  rewrite two_pow_succ. lra.
Qed.

Lemma float_of_Z_below (z K : Z) :
  (0 <= z < 2 ^ K)%Z -> (0 <= K <= 1023)%Z ->
  exists x, float_of_Z z = Ok x /\ below K x.
Proof.
  intros [Hz Hb] HK. unfold float_of_Z.
  assert (B : below K (rnd (inject_Z z))).
  { apply rnd_below; [| |lia].
    - change 0 with (inject_Z 0). now rewrite <- Zle_Qle.
    - rewrite (two_pow_Z K) by lia. now rewrite <- Zlt_Qlt. }
  destruct B as (q & E & B). rewrite E. exists (Fin q).
  split; [reflexivity|]. now exists q.
Qed.

(** On a non-negative finite float, [int] and [floor] agree and give a
    non-negative integer. *)
Lemma int_of_float_below (K : Z) (x : float) :
  below K x ->
  exists z : Z, int_of_float x = Ok z /\ floor_of_float x = Ok z /\ (0 <= z)%Z.
Proof.
  intros (q & -> & H0 & _). simpl.
  assert (Hn : (0 <= Qnum q)%Z).
  { destruct q as [qn qd]. unfold Qle in H0. simpl in *. lia. }
  exists (Qfloor q). repeat split.
  - f_equal. destruct q as [qn qd]. simpl in *.
    apply Z.quot_div_nonneg; lia.
  - destruct q as [qn qd]. simpl in *. apply Z.div_pos; lia.
Qed.

Lemma Qeq0_false_pos (q : Q) : 0 <= q -> Qeq0 q = false -> 0 < q.
Proof.
  intros H0 E. unfold Qeq0 in E. apply Z.eqb_neq in E.
  destruct q as [qn qd]. unfold Qle, Qlt in *. simpl in *. lia.
Qed.

Lemma Qltb_spec (a b : Q) : Qltb a b = true <-> a < b.
Proof. unfold Qltb, Qlt. apply Z.ltb_lt. Qed.

(* ================================================================== *)
(** ** The scoring calculator *)
(* ================================================================== *)


Lemma fadd_zero_r (x : float) : fadd x (Fin 0) = x.
Proof. destruct x; reflexivity. Qed.

Lemma stands_for_add_float (n : number) (x y : float) :
  stands_for n x -> num_add n (PyFloat y) = Ok (PyFloat (fadd x y)).
Proof.
  intros [->|(z & -> & _ & E)]; simpl; [reflexivity|now rewrite E].
Qed.

Lemma stands_for_add_zero (n : number) (x : float) :
  stands_for n x -> exists n', num_add n (PyInt 0) = Ok n' /\ stands_for n' x.
Proof.
  intros [->|(z & -> & E1 & E2)]; simpl.
  - exists (PyFloat x). split; [|now left].
    change (float_of_Z 0) with (Ok (Fin 0)). simpl. now rewrite fadd_zero_r.
  - exists (PyInt z). split; [now rewrite Z.add_0_r|].
    right. now exists z.
Qed.

Lemma stands_for_int (n : number) (x : float) :
  stands_for n x -> int_of_number n = int_of_float x.
Proof.
  intros [->|(z & -> & -> & _)]; simpl; [reflexivity|].
  now rewrite Z.quot_1_r.
Qed.

Lemma rnd_zero (x : Q) : Qeq0 x = true -> rnd x = Fin 0.
Proof.
  unfold Qeq0, rnd. intros E. apply Z.eqb_eq in E. now rewrite E.
Qed.

Lemma fsub_5_below (q : Q) :
  q < 5 -> - inject_Z (2 ^ 62) <= q -> below 63 (fsub (Fin 5) (Fin q)).
Proof.
  intros H5 Hq. unfold fsub. simpl.
  destruct (Qeq0 (- q)).
  - apply (below_const 5 63); lia.
  - change (Qeq0 5) with false. cbv iota.
    apply rnd_below; [lra| |lia].
    rewrite (two_pow_Z 63) by lia.
    assert (E : inject_Z (2 ^ 63) == inject_Z (2 ^ 62) + inject_Z (2 ^ 62)).
    { rewrite <- inject_Z_plus. reflexivity. }
    assert (5 < inject_Z (2 ^ 62)) by reflexivity.
    rewrite E. lra.
Qed.

(** The speed part: what the code adds to the base stands for what the
    reference adds. *)
Lemma speed_step (base : number) (bf : float) (q : Q) :
  stands_for base bf -> below 8 bf -> - inject_Z (2 ^ 62) <= q ->
  exists (n : number) (speed x : float),
    (if flt (Fin q) POINTS_SPEED_BONUS_THRESHOLD then
       ratio <- fdiv (fsub POINTS_SPEED_BONUS_THRESHOLD (Fin q))
                     POINTS_SPEED_BONUS_THRESHOLD ;;
       bonus <- num_mul (PyInt POINTS_SPEED_BONUS) (max_0 ratio) ;;
       num_add base bonus
     else Ok base) = Ok n
    /\ (if flt (Fin q) (Fin 5) then
          ratio <- fdiv (fsub (Fin 5) (Fin q)) (Fin 5) ;;
          Ok (fmul (Fin 50) ratio)
        else Ok (Fin 0)) = Ok speed
    /\ fadd bf speed = x
    /\ stands_for n x
    /\ below 73 x.
Proof.
  intros Hs Hb Hq. unfold POINTS_SPEED_BONUS_THRESHOLD, POINTS_SPEED_BONUS.
  destruct (flt (Fin q) (Fin 5)) eqn:Hlt.
  - simpl in Hlt. apply Qltb_spec in Hlt.
    pose proof (fsub_5_below q Hlt Hq) as Bsub.
    destruct (fdiv_below 63 _ 5 Bsub ltac:(lra) ltac:(lia)) as (r & Er & Br).
    rewrite Er. cbn [bind].
    assert (B50 : below 6 (Fin 50)) by (apply (below_const 50 6); lia).
    pose proof (fmul_below 6 64 _ _ B50 Br ltac:(lia)) as Bm.
    unfold max_0. destruct (flt (Fin 0) r) eqn:Hpos.
    + exists (PyFloat (fadd bf (fmul (Fin 50) r))), (fmul (Fin 50) r), (fadd bf (fmul (Fin 50) r)).
      split.
      { simpl num_mul. change (float_of_Z 50) with (Ok (Fin 50)). cbn [bind].
        now apply stands_for_add_float. }
      split; [reflexivity|]. split; [reflexivity|]. split; [now left|].
      apply (fadd_below 71); [now apply (below_weaken 8)|exact Bm|lia].
    + destruct Br as (rq & -> & R0 & R1).
      assert (Ez : Qeq0 rq = true).
      { simpl in Hpos. destruct (Qeq0 rq) eqn:E; [reflexivity|].
        apply Qeq0_false_pos in E; [|exact R0].
        apply Qltb_spec in E. congruence. }
      assert (Em : fmul (Fin 50) (Fin rq) = Fin 0).
      { simpl. apply rnd_zero. unfold Qeq0 in *. apply Z.eqb_eq in Ez.
        apply Z.eqb_eq. simpl. rewrite Ez. reflexivity. }
      destruct (stands_for_add_zero base bf Hs) as (n' & En & Hn').
      exists n', (Fin 0), bf. split.
      { simpl num_mul. exact En. }
      split; [now rewrite Em|]. split; [apply fadd_zero_r|].
      split; [exact Hn'|]. now apply (below_weaken 8).
  - exists base, (Fin 0), bf. split; [reflexivity|]. split; [reflexivity|].
    split; [apply fadd_zero_r|]. split; [exact Hs|]. now apply (below_weaken 8).
Qed.

Lemma lit_0_1_below : below 0 lit_0_1.
Proof.
  eexists. split; [reflexivity|]. split; [discriminate|]. discriminate.
Qed.

(** The streak part. *)
Lemma streak_step (n : number) (x : float) (s : Z) :
  stands_for n x -> below 73 x -> (0 <= s < 2 ^ 62)%Z ->
  exists (n' : number) (streak x' : float),
    (if (STREAK_BONUS_THRESHOLD <=? s)%Z then
       steps <- num_mul (PyInt (s - STREAK_BONUS_THRESHOLD)) (PyFloat lit_0_1) ;;
       growth <- num_add (PyInt 1) steps ;;
       bonus <- num_mul (PyInt STREAK_BONUS) growth ;;
       num_add n bonus
     else Ok n) = Ok n'
    /\ (if (3 <=? s)%Z then
          k <- float_of_Z (s - 3) ;;
          Ok (fmul (Fin 25) (fadd (Fin 1) (fmul k lit_0_1)))
        else Ok (Fin 0)) = Ok streak
    /\ fadd x streak = x'
    /\ stands_for n' x'
    /\ below 75 x'.
Proof.
  intros Hs Hb Hr. unfold STREAK_BONUS_THRESHOLD, STREAK_BONUS.
  destruct (Z.leb_spec 3 s) as [H3|H3].
  - destruct (float_of_Z_below (s - 3) 62) as (k & Ek & Bk).
    { split; [lia|]. pose proof (Z.pow_pos_nonneg 2 62 ltac:(lia) ltac:(lia)). lia. }
    { lia. }
    pose proof (fmul_below 62 0 _ _ Bk lit_0_1_below ltac:(lia)) as B1.
    assert (B2 : below 65 (fadd (Fin 1) (fmul k lit_0_1))).
    { apply (fadd_below 63); [apply (below_const 1 63); lia|exact B1|lia]. }
    assert (B25 : below 5 (Fin 25)) by (apply (below_const 25 5); lia).
    pose proof (fmul_below 5 65 _ _ B25 B2 ltac:(lia)) as B3.
    set (bonus := fmul (Fin 25) (fadd (Fin 1) (fmul k lit_0_1))) in *.
    exists (PyFloat (fadd x bonus)), bonus, (fadd x bonus). split.
    { simpl num_mul. rewrite Ek. cbn [bind to_float].
      simpl num_add. change (float_of_Z 1) with (Ok (Fin 1)). cbn [bind].
      change (float_of_Z 25) with (Ok (Fin 25)). cbn [bind].
      now apply stands_for_add_float. }
    split; [now rewrite Ek|]. split; [reflexivity|]. split; [now left|].
    apply (fadd_below 73); [exact Hb|now apply (below_weaken 71)|lia].
  - exists n, (Fin 0), x. split; [reflexivity|]. split; [reflexivity|].
    split; [apply fadd_zero_r|]. split; [exact Hs|]. now apply (below_weaken 73).
Qed.

Lemma base_step (d : Z) :
  (1 <= d <= 3)%Z ->
  exists (mult : number) (mf : float) (base : number),
    getitem POINTS_DIFFICULTY_MULTIPLIER (d - 1) = Ok mult
    /\ getitem spec_multipliers (d - 1) = Ok mf
    /\ num_mul (PyInt POINTS_BASE) mult = Ok base
    /\ stands_for base (fmul (Fin 100) mf)
    /\ below 8 (fmul (Fin 100) mf).
Proof.
  intros Hd.
  assert (C : d = 1%Z \/ d = 2%Z \/ d = 3%Z) by lia.
  destruct C as [-> | [-> | ->]].
  - exists (PyInt 1), (Fin 1), (PyInt 100). repeat split.
    + right. exists 100%Z. repeat split.
    + change (fmul (Fin 100) (Fin 1)) with (Fin (inject_Z 100)).
      apply (below_const 100 8); lia.
  - exists (PyFloat (Fin (3 # 2))), (Fin (3 # 2)), (PyFloat (Fin (inject_Z 150))).
    repeat split.
    + now left.
    + change (fmul (Fin 100) (Fin (3 # 2))) with (Fin (inject_Z 150)).
      apply (below_const 150 8); lia.
  - exists (PyFloat (Fin (5 # 2))), (Fin (5 # 2)), (PyFloat (Fin (inject_Z 250))).
    repeat split.
    + now left.
    + change (fmul (Fin 100) (Fin (5 # 2))) with (Fin (inject_Z 250)).
      apply (below_const 250 8); lia.
Qed.

(** The code and the reference definition agree, on a result that is a
    non-negative integer. *)
Lemma calculate_score_agrees (self : MathGame) (is_correct : bool) (t : Q) :
  (1 <= difficulty self <= 3)%Z ->
  (0 <= streak_count self < 2 ^ 62)%Z ->
  - inject_Z (2 ^ 62) <= t ->
  exists z : Z,
    calculate_score self is_correct (Fin t) = Ok z
    /\ score_spec is_correct (Fin t) (difficulty self) (streak_count self)
       = Ok z
    /\ (0 <= z)%Z.
Proof.
  intros Hd Hs Ht.
  unfold calculate_score, score_spec.
  destruct is_correct; cbn [negb]; [|exists 0%Z; repeat split; lia].
  destruct (base_step (difficulty self) Hd) as (mult & mf & base & E1 & E2 & E3 & S0 & B0).
  rewrite E1, E2. cbn [bind]. rewrite E3. cbn [bind].
  destruct (speed_step base _ t S0 B0 Ht) as (n1 & speed & x1 & C1 & R1 & A1 & S1 & B1).
  rewrite C1, R1. cbn [bind].
  destruct (streak_step n1 x1 (streak_count self) S1 B1 Hs)
    as (n2 & streak & x2 & C2 & R2 & A2 & S2 & B2).
  rewrite C2, R2. cbn [bind]. rewrite A1, A2.
  destruct (int_of_float_below 75 x2 B2) as (z & I1 & I2 & Hz).
  exists z. rewrite (stands_for_int n2 x2 S2). auto.
Qed.



(* ================================================================== *)
(** ** The streak tracker *)
(* ================================================================== *)

Local Open Scope Z_scope.

Lemma timed_round_streak (self : MathGame) (n : Z) (i : RoundInput)
    (o : RoundOutput) (self' : MathGame) :
  timed_round self n i = (Ok o, self') ->
  streak_count self'
  = streak_count (snd (update_streak self (correct (out_result o)))).
Proof.
  unfold timed_round.
  destruct (check_answer _ _) as [c|e]; [|discriminate].
  destruct (calculate_score _ _ _) as [sc|e]; [|discriminate].
  set (r := mkRoundResult _ _ _ _ _ _).
  assert (Hs : streak_count (snd (update_streak (add_result self r) c))
               = streak_count (snd (update_streak self c))).
  { unfold update_streak. destruct c; simpl; [|reflexivity].
    destruct (_ && _); reflexivity. }
  destruct (update_streak (add_result self r) c) as [msg self2].
  simpl in Hs.
  destruct (_ && _).
  - pose proof (adjust_difficulty_frame self2) as F. simpl in F.
    destruct (adjust_difficulty self2) as [[m|e] self3]; [|discriminate].
    intros [= <- <-]. simpl in *. destruct F as (_ & _ & _ & _ & F & _).
    now rewrite F.
  - intros [= <- <-]. exact Hs.
Qed.

(** C6: on a correct answer the streak count grows by exactly 1 and a
    milestone message is produced exactly when the new count [n] has
    [n >= 3] and [n mod 3 = 0] (at 3 and 6, not at 4 or 5); on a wrong
    answer the count goes back to 0 and "Streak broken!" is produced exactly
    when the count was at least 3; recording a result, adjusting the
    difficulty and a whole round of the pipeline change the count in no
    other way. *)
Theorem update_streak_is_the_streak_tracker :
  (forall self : MathGame,
      streak_count (snd (update_streak self true)) = streak_count self + 1
      /\ (fst (update_streak self true) <> None
          <-> 3 <= streak_count self + 1 /\ (streak_count self + 1) mod 3 = 0)
      /\ (forall m, fst (update_streak self true) = Some m ->
                    m = str_of_Z (streak_count self + 1) ++ " ANSWER STREAK!")
      /\ streak_count (snd (update_streak self false)) = 0
      /\ (fst (update_streak self false) = Some "Streak broken!"
          <-> 3 <= streak_count self)
      /\ (fst (update_streak self false) = None <-> streak_count self < 3)
      /\ (forall r, streak_count (add_result self r) = streak_count self)
      /\ streak_count (snd (adjust_difficulty self)) = streak_count self
      /\ (forall n i o self',
             timed_round self n i = (Ok o, self') ->
             streak_count self'
             = streak_count (snd (update_streak self (correct (out_result o))))))
  /\ fst (update_streak (session 1 2) true) = Some "3 ANSWER STREAK!"
  /\ fst (update_streak (session 1 3) true) = None
  /\ fst (update_streak (session 1 4) true) = None
  /\ fst (update_streak (session 1 5) true) = Some "6 ANSWER STREAK!".
Proof.
  split; [|repeat split].
  intros self. unfold update_streak, STREAK_BONUS_THRESHOLD. simpl.
  split.
  { destruct (_ && _); reflexivity. }
  split.
  { destruct (Z.leb_spec 3 (streak_count self + 1)) as [H|H];
      destruct (Z.eqb_spec ((streak_count self + 1) mod 3) 0) as [E|E];
      simpl; split; intros; try discriminate; try lia; try tauto;
      try (exfalso; now apply H0). }
  split.
  { intros m. destruct (_ && _); simpl; [now intros [= <-]|discriminate]. }
  split; [reflexivity|].
  split.
  { destruct (Z.leb_spec 3 (streak_count self)); simpl; split; intros;
      try reflexivity; try discriminate; lia. }
  split.
  { destruct (Z.leb_spec 3 (streak_count self)); simpl; split; intros;
      try reflexivity; try discriminate; lia. }
  split; [reflexivity|].
  split.
  { now destruct (adjust_difficulty_frame self) as (_ & _ & _ & _ & F & _). }
  intros n i o self'. apply timed_round_streak.
Qed.

(* ================================================================== *)
(** ** The adaptive difficulty controller *)
(* ================================================================== *)

Lemma last3_app3 {A : Type} (older : list A) (a b c : A) :
  last3 (older ++ [a; b; c])%list = [a; b; c].
Proof.
  unfold last3. rewrite length_app. simpl List.length.
  replace (List.length older + 3 - 3)%nat with (List.length older + 0)%nat by lia.
  rewrite skipn_app, Nat.add_0_r, skipn_all.
  replace (List.length older - List.length older)%nat with 0%nat by lia.
  reflexivity.
Qed.


Lemma mean_time_3 (r1 r2 r3 : RoundResult) :
  exists avg, mean_time [r1; r2; r3] = Ok avg.
Proof.
  unfold mean_time. simpl. change (float_of_Z 3) with (Ok (Fin 3)). simpl.
  unfold fdiv. change (Qeq0 3) with false.
  destruct (fadd _ _); eexists; reflexivity.
Qed.

Lemma set_difficulty_same (self : MathGame) :
  set_difficulty self (difficulty self) = self.
Proof. now destruct self. Qed.

Lemma last3_length {A : Type} (l : list A) :
  (List.length (last3 l) <= 3)%nat.
Proof. unfold last3. rewrite length_skipn. lia. Qed.

(** With the difficulty in 1..3 the method returns normally. *)
Lemma adjust_difficulty_returns (self : MathGame) :
  1 <= difficulty self <= 3 ->
  exists msg : option string, fst (adjust_difficulty self) = Ok msg.
Proof.
  intros Hd. unfold adjust_difficulty.
  destruct (adaptive_difficulty self); [|now exists None].
  cbn [negb]. pose proof (last3_length (results self)) as Hl.
  destruct (Nat.ltb_spec (List.length (last3 (results self))) 3) as [|H3];
    [now exists None|].
  destruct (last3 (results self)) as [|r1 [|r2 [|r3 [|r4 rest]]]];
    cbn [List.length] in Hl, H3; try lia.
  destruct (mean_time_3 r1 r2 r3) as (avg & Eavg). rewrite Eavg.
  assert (C : difficulty self = 1 \/ difficulty self = 2 \/ difficulty self = 3) by lia.
  destruct (_ && _); [|destruct (_ <=? 1)];
    destruct C as [E | [E | E]]; rewrite E; simpl; rewrite ?E; simpl;
    eexists; reflexivity.
Qed.



(* ================================================================== *)
(** ** The session aggregator *)
(* ================================================================== *)

Lemma sum_ints_from (l : list Z) (a : Z) :
  fold_left Z.add l a = a + sum_ints l.
Proof.
  unfold sum_ints. revert a. induction l as [|x l IH]; intros a; simpl; [lia|].
  rewrite (IH (a + x)), (IH x). lia.
Qed.

Lemma sum_ints_ones {A : Type} (l : list A) :
  sum_ints (map (fun _ => 1) l) = Z.of_nat (List.length l).
Proof.
  induction l as [|x l IH]; [reflexivity|].
  unfold sum_ints in *. cbn [map fold_left].
  rewrite sum_ints_from. unfold sum_ints. rewrite IH.
  cbn [List.length]. lia.
Qed.

Lemma count_correct_range (l : list RoundResult) :
  0 <= count_correct l <= Z.of_nat (List.length l).
Proof.
  unfold count_correct. rewrite sum_ints_ones.
  pose proof (filter_length_le correct l). lia.
Qed.

Lemma add_results_fold (rs : list RoundResult) :
  forall self : MathGame,
    results (fold_left add_result rs self) = (results self ++ rs)%list
    /\ total_score (fold_left add_result rs self)
       = total_score self + sum_ints (map get_score rs).
Proof.
  induction rs as [|r rs IH]; intros self; simpl.
  - unfold sum_ints. simpl. rewrite app_nil_r. split; [reflexivity|lia].
  - destruct (IH (add_result self r)) as [H1 H2]. rewrite H1, H2. simpl.
    rewrite <- app_assoc. split; [reflexivity|].
    unfold sum_ints at 2. simpl. rewrite (sum_ints_from _ (get_score r)). lia.
Qed.

Local Open Scope Q_scope.

(** [float(n)] for a positive int below [2^62] is a non-zero float. *)
Lemma float_of_Z_pos (n : Z) :
  (1 <= n < 2 ^ 62)%Z ->
  exists q : Q, float_of_Z n = Ok (Fin q) /\ Qeq0 q = false.
Proof.
  intros Hn. unfold float_of_Z.
  assert (H1 : 1 <= inject_Z n).
  { change 1 with (inject_Z 1). rewrite <- Zle_Qle. lia. }
  destruct (rnd_fin (inject_Z n) 62) as (q & E & _ & _ & _ & Hq).
  - rewrite Qabs_pos by lra. rewrite (two_pow_Z 62) by lia.
    rewrite <- Zlt_Qlt. lia.
  - lia.
  - exists q. rewrite E. split; [reflexivity|].
    specialize (Hq H1). unfold Qeq0. apply Z.eqb_neq. intros Hz.
    destruct q as [qn qd]. simpl in Hz. subst qn.
    unfold Qle in Hq. simpl in Hq. lia.
Qed.

(** The quotient of two ints [0 <= c <= n], [0 < n], is a finite float. *)
Lemma int_ratio_fin (c n : Z) :
  (0 <= c <= n)%Z -> (0 < n)%Z ->
  exists q : Q, num_truediv (PyInt c) (PyInt n) = Ok (Fin q).
Proof.
  intros Hc Hn. unfold num_truediv.
  destruct (Z.eqb_spec n 0) as [->|_]; [lia|].
  assert (Hq : 0 <= (c # 1) / (n # 1) /\ (c # 1) / (n # 1) <= 1).
  { assert (0 < n # 1) by (unfold Qlt; simpl; lia).
    assert (0 <= c # 1) by (unfold Qle; simpl; lia).
    assert (c # 1 <= n # 1) by (unfold Qle; simpl; lia).
    split.
    - apply Qle_shift_div_l; lra.
    - apply Qle_shift_div_r; lra. }
  destruct (rnd_fin ((c # 1) / (n # 1)) 1) as (q & E & _).
  - rewrite Qabs_pos by lra. change (2 ^ 1) with 2. lra.
  - lia.
  - exists q. now rewrite E.
Qed.

Local Open Scope Z_scope.

Lemma get_game_stats_total (self : MathGame) :
  Z.of_nat (List.length (results self)) < 2 ^ 62 ->
  exists st : Stats.t,
    get_game_stats self = Ok st
    /\ Stats.total_rounds st = Z.of_nat (List.length (results self))
    /\ Stats.correct_count st = count_correct (results self)
    /\ Stats.total_score st = sum_ints (map get_score (results self)).
Proof.
  intros Hn. unfold get_game_stats.
  destruct (results self) as [|r rs] eqn:Er.
  - eexists. split; [reflexivity|]. repeat split.
  - set (l := r :: rs) in *.
    set (n := Z.of_nat (List.length l)) in *.
    assert (Hn1 : 1 <= n) by (unfold n, l; cbn [List.length]; lia).
    destruct (Z.ltb_spec 0 n) as [_|]; [|lia].
    pose proof (count_correct_range l) as Hc. fold n in Hc.
    destruct (int_ratio_fin (count_correct l) n Hc ltac:(lia)) as (q & Eq).
    rewrite Eq. cbn [bind num_mul to_float].
    change (float_of_Z 100) with (Ok (Fin 100)). cbn [bind].
    destruct (float_of_Z_pos n ltac:(lia)) as (k & Ek & Hk).
    assert (Es : exists s, sum_floats (map time_taken l) = PyFloat s).
    { unfold l. simpl. eexists. reflexivity. }
    destruct Es as (s & Es). rewrite Es.
    cbn [num_truediv to_float bind]. rewrite Ek. cbn [bind].
    unfold fdiv. rewrite Hk.
    destruct s; cbn [bind]; eexists; (split; [reflexivity|]); repeat split.
Qed.

(** C9: whatever results are added to a freshly reset session with
    [add_result], the total score accumulated is the sum of their scores
    and is the total score [get_game_stats] computes from the results; on
    an empty session [get_game_stats] returns zeros without fault.  (The
    number of results is below [2^62].) *)
Theorem total_score_is_sum_of_scores :
  (forall (self : MathGame) (rs : list RoundResult),
      results self = [] -> total_score self = 0 ->
      Z.of_nat (List.length rs) < 2 ^ 62 ->
      let final := fold_left add_result rs self in
      results final = rs
      /\ total_score final = sum_ints (map get_score rs)
      /\ exists st : Stats.t,
           get_game_stats final = Ok st
           /\ Stats.total_score st = total_score final
           /\ Stats.total_rounds st = Z.of_nat (List.length rs))
  /\ (forall self : MathGame,
      results self = [] ->
      get_game_stats self = Ok (Stats.mk 0 0 (PyInt 0) (PyInt 0) 0))
  /\ (forall self op choice n tm tl,
      results (setup_game self op choice n tm tl) = []
      /\ total_score (setup_game self op choice n tm tl) = 0)
  /\ (forall self,
      results (reset_session self) = [] /\ total_score (reset_session self) = 0).
Proof.
  split; [|split; [|split]].
  - intros self rs Hr Ht Hn final.
    destruct (add_results_fold rs self) as [H1 H2]. fold final in H1, H2.
    rewrite Hr in H1. rewrite Ht in H2. simpl in H1, H2.
    split; [exact H1|]. split; [exact H2|].
    destruct (get_game_stats_total final) as (st & E & T & _ & S).
    { now rewrite H1. }
    exists st. rewrite H1 in T, S. rewrite H2. auto.
  - intros self Hr. unfold get_game_stats. now rewrite Hr.
  - intros. unfold setup_game. destruct (_ <? _); split; reflexivity.
  - intros. split; reflexivity.
Qed.

Lemma total_score_is_sum_of_scores_witness :
  let r1 := mkRoundResult true (Fin 2) "1 + 1" (Some "2") "2" (Some 130) in
  let r2 := mkRoundResult false (Fin 7) "2 + 2" (Some "5") "4" (Some 0) in
  let final := fold_left add_result [r1; r2] (reset_session init) in
  results final = [r1; r2]
  /\ total_score final = sum_ints (map get_score [r1; r2])
  /\ exists st : Stats.t,
       get_game_stats final = Ok st
       /\ Stats.total_score st = total_score final
       /\ Stats.total_rounds st = Z.of_nat (List.length [r1; r2]).
Proof.
  intros r1 r2.
  apply (proj1 total_score_is_sum_of_scores (reset_session init) [r1; r2]).
  - reflexivity.
  - reflexivity.
  - simpl. lia.
Defined.

(* ================================================================== *)
(** ** The answer comparator *)
(* ================================================================== *)

(** No exception leaves [check_answer]. *)
Lemma check_answer_returns (u : option string) (c : string) :
  exists b : bool, check_answer u c = Ok b.
Proof.
  unfold check_answer. destruct u as [ua|]; [|now exists false].
  destruct (String.eqb _ _); [now exists true|].
  destruct (comparison_body _ _) as [[b|]|e]; simpl; eexists; reflexivity.
Qed.


(** When both answers convert to fractions, the second block returns their
    exact comparison: the tolerance of the third block is not consulted. *)
Lemma numeric_block_exact (u c : string) (uf cf : Fraction) :
  any_format_Fraction u = Ok uf -> any_format_Fraction c = Ok cf ->
  numeric_block u c = Ok (Some (Fraction_eqb uf cf)).
Proof. intros Eu Ec. unfold numeric_block. now rewrite Eu, Ec. Qed.

(** Two decimal answers that both denote finite floats are compared
    exactly: the verdict is the string equality or the equality of the two
    floats as fractions, and the tolerance is never reached. *)
Lemma decimals_compared_exactly (ua c : string) (a b : Q) :
  contains "/" (strip ua) = false ->
  contains "/" (strip c) = false ->
  py_float (strip ua) = Ok (Fin a) ->
  py_float (strip c) = Ok (Fin b) ->
  check_answer (Some ua) c
  = Ok (String.eqb (strip ua) (strip c)
        || Fraction_eqb (mkFraction (Qnum (Qred a)) (Zpos (Qden (Qred a))))
                        (mkFraction (Qnum (Qred b)) (Zpos (Qden (Qred b))))).
Proof.
  intros Hu Hc Eu Ec. unfold check_answer.
  destruct (String.eqb (strip ua) (strip c)); [reflexivity|].
  unfold comparison_body, fraction_block. rewrite Hu. cbn [andb bind].
  rewrite (numeric_block_exact _ _
             (mkFraction (Qnum (Qred a)) (Zpos (Qden (Qred a))))
             (mkFraction (Qnum (Qred b)) (Zpos (Qden (Qred b))))).
  - reflexivity.
  - unfold any_format_Fraction. rewrite Hu, Eu. reflexivity.
  - unfold any_format_Fraction. rewrite Hc, Ec. reflexivity.
Qed.

(** C1, evaluated on its three examples: "0.5" against "1/2" is judged
    correct and "0.51" incorrect, but "0.5001", which is within 0.001 of
    1/2, is judged incorrect too: the exact comparison of the two
    fractions returns before the tolerance is applied, and the tolerance
    block itself would stop on the unbound [correct_parts].  Two decimals
    within the tolerance, "0.5001" and "0.5", are judged different in the
    same way. *)
Theorem check_answer_decimal_against_fraction :
  check_answer (Some "0.5") "1/2" = Ok true
  /\ check_answer (Some "0.5001") "1/2" = Ok false
  /\ check_answer (Some "0.51") "1/2" = Ok false
  /\ check_answer (Some "0.5001") "0.5" = Ok false
  /\ numeric_block "0.5001" "1/2" = Ok (Some false)
  /\ tolerance_block (mkLocals None None) "0.5001" "1/2" = Raise UnboundLocalError
  /\ (x <- py_float "0.5001" ;; y <- fdiv (Fin 1) (Fin 2) ;;
      Ok (flt (fabs (fsub x y)) lit_0_001)) = Ok true.
Proof. repeat split; vm_compute; reflexivity. Qed.

(** C7, evaluated on an answer with two slashes: "1/2/3" is not a
    fraction, yet against "1/2" it is judged correct, because the third
    block divides the first two parts and ignores the rest. *)
Theorem check_answer_two_slashes :
  check_answer (Some "1/2/3") "1/2" = Ok true
  /\ String.eqb (strip "1/2/3") (strip "1/2") = false
  /\ Fraction_of_string "1/2/3" = Raise ValueError
  /\ List.length (split "/" "1/2/3") = 3%nat.
Proof. repeat split; vm_compute; reflexivity. Qed.


(* ================================================================== *)
(** ** The round pipeline *)
(* ================================================================== *)

(** Below the threshold the streak count does not enter the score. *)
Lemma calculate_score_below_threshold (self : MathGame) (c : bool) (t : float) :
  streak_count self < 3 ->
  calculate_score self c t = calculate_score (set_streak_count self 0) c t.
Proof.
  intros H. unfold calculate_score, STREAK_BONUS_THRESHOLD. simpl.
  destruct (Z.leb_spec 3 (streak_count self)); [lia|]. reflexivity.
Qed.

(** C2, as the code has it: a round's score is computed by
    [calculate_score] on the session as the round found it, so with the
    streak count that does not yet include the answer just given; the
    streak is updated after the result is recorded.  A correct answer
    given at a streak count below 3, the one that brings the streak to 3
    included, earns no streak bonus. *)
Theorem score_uses_streak_before_round
    (self : MathGame) (round_num : Z) (i : RoundInput) (t : Q) :
  in_time_taken i = Fin t ->
  (- inject_Z (2 ^ 62) <= t)%Q ->
  1 <= difficulty self <= 3 ->
  0 <= streak_count self < 2 ^ 62 ->
  exists (o : RoundOutput) (self' : MathGame) (sc : Z),
    timed_round self round_num i = (Ok o, self')
    /\ check_answer (in_user_answer i) (in_correct_answer i)
       = Ok (correct (out_result o))
    /\ calculate_score self (correct (out_result o)) (in_time_taken i) = Ok sc
    /\ score (out_result o) = Some sc
    /\ streak_count self'
       = (if correct (out_result o) then streak_count self + 1 else 0)
    /\ (streak_count self < 3 ->
        calculate_score (set_streak_count self 0) (correct (out_result o))
          (in_time_taken i) = Ok sc).
Proof.
  intros Et Ht Hd Hs.
  destruct (check_answer_returns (in_user_answer i) (in_correct_answer i)) as (c & Ec).
  destruct (calculate_score_agrees self c t Hd Hs Ht) as (sc & Esc & _ & _).
  unfold timed_round. rewrite Ec, Et, Esc.
  set (r := mkRoundResult _ _ _ _ _ _).
  assert (Hstreak : streak_count (snd (update_streak (add_result self r) c))
                    = if c then streak_count self + 1 else 0).
  { unfold update_streak. destruct c; simpl; [|reflexivity].
    destruct (_ && _); reflexivity. }
  assert (Hdiff : 1 <= difficulty (snd (update_streak (add_result self r) c)) <= 3).
  { destruct (update_streak_frame (add_result self r) c) as [F _].
    rewrite F. exact Hd. }
  destruct (update_streak (add_result self r) c) as [msg self2].
  simpl in Hstreak, Hdiff.
  assert (Hlast : streak_count self < 3 ->
                  calculate_score (set_streak_count self 0) c (Fin t) = Ok sc).
  { intros H3. now rewrite <- calculate_score_below_threshold. }
  destruct (_ && _).
  - destruct (adjust_difficulty_returns self2 Hdiff) as (m & Em).
    pose proof (adjust_difficulty_frame self2) as F. simpl in F.
    destruct (adjust_difficulty self2) as [res self3]. simpl in Em, F. subst res.
    destruct F as (_ & _ & _ & _ & F & _).
    eexists _, self3, sc. split; [reflexivity|]. simpl.
    rewrite F. auto.
  - eexists _, self2, sc. split; [reflexivity|]. simpl. auto.
Qed.

Lemma score_uses_streak_before_round_witness :
  exists (o : RoundOutput) (self' : MathGame) (sc : Z),
    timed_round (session 1 2) 1 (mkRoundInput "2 + 2" "4" (Some "4") (Fin 10))
    = (Ok o, self')
    /\ check_answer (Some "4") "4" = Ok (correct (out_result o))
    /\ calculate_score (session 1 2) (correct (out_result o)) (Fin 10) = Ok sc
    /\ score (out_result o) = Some sc
    /\ streak_count self' = (if correct (out_result o) then 2 + 1 else 0)
    /\ (2 < 3 ->
        calculate_score (set_streak_count (session 1 2) 0)
          (correct (out_result o)) (Fin 10) = Ok sc).
Proof.
  apply (score_uses_streak_before_round (session 1 2) 1
           (mkRoundInput "2 + 2" "4" (Some "4") (Fin 10)) 10).
  - reflexivity.
  - vm_compute. discriminate.
  - simpl. lia.
  - simpl. lia.
Defined.

(** C2 as stated fails: at a streak count of 2, a correct answer at
    difficulty 1 after 10 seconds brings the streak to 3 and is recorded
    with 100 points, where the post-increment count would give 125. *)
Lemma score_at_third_correct_answer :
  match timed_round (session 1 2) 1
          (mkRoundInput "2 + 2" "4" (Some "4") (Fin 10)) with
  | (Ok o, self') =>
      correct (out_result o) = true
      /\ score (out_result o) = Some 100
      /\ streak_count self' = 3
      /\ calculate_score self' true (Fin 10) = Ok 125
  | (Raise _, _) => False
  end.
Proof. vm_compute. repeat split. Qed.

(* ================================================================== *)
(** ** Formatting and parsing ints *)
(* ================================================================== *)

Lemma is_int_char_plain (c : ascii) :
  is_int_char c = true ->
  is_space c = false /\ is_literal_space c = false /\ Ascii.eqb c "/" = false.
Proof.
  destruct c as [[|] [|] [|] [|] [|] [|] [|] [|]]; vm_compute;
    intros H; try discriminate H; repeat split.
Qed.


Lemma string_forall_impl (p p' : ascii -> bool) (s : string) :
  (forall c, p c = true -> p' c = true) ->
  string_forall p s = true -> string_forall p' s = true.
Proof.
  intros Hp. induction s as [|c s IH]; simpl; [reflexivity|].
  intros H. apply andb_true_iff in H as [H1 H2].
  now rewrite (Hp c H1), (IH H2).
Qed.

Lemma lstrip_of_id (p : ascii -> bool) (s : string) :
  string_forall (fun c => negb (p c)) s = true -> lstrip_of p s = s.
Proof.
  destruct s as [|c s]; simpl; [reflexivity|].
  intros H. apply andb_true_iff in H as [H _].
  now destruct (p c).
Qed.

Lemma rstrip_of_id (p : ascii -> bool) (s : string) :
  string_forall (fun c => negb (p c)) s = true -> rstrip_of p s = s.
Proof.
  induction s as [|c s IH]; simpl; [reflexivity|].
  intros H. apply andb_true_iff in H as [H1 H2].
  rewrite (IH H2). destruct s; [now destruct (p c)|reflexivity].
Qed.

Lemma string_of_uint_digits (u : Decimal.uint) :
  string_forall is_digit (NilEmpty.string_of_uint u) = true.
Proof. induction u; simpl; auto. Qed.

Lemma str_of_Z_chars (z : Z) : string_forall is_int_char (str_of_Z z) = true.
Proof.
  assert (D : forall u, string_forall is_int_char (NilEmpty.string_of_uint u) = true).
  { intros u. apply (string_forall_impl is_digit); [|apply string_of_uint_digits].
    intros c H. unfold is_int_char. now rewrite H. }
  unfold str_of_Z. destruct (Z.to_int z); simpl; auto.
Qed.

Lemma digits_step (c c' : ascii) (r : string) :
  is_digit c' = true ->
  digits (String c (String c' r))
  = match digits (String c' r) with
    | Some u => digit_cons c u
    | None => None
    end.
Proof.
  destruct c' as [[|] [|] [|] [|] [|] [|] [|] [|]];
    intros H; try discriminate H; reflexivity.
Qed.

Lemma string_of_uint_head (u : Decimal.uint) :
  u <> Decimal.Nil ->
  exists c r, NilEmpty.string_of_uint u = String c r /\ is_digit c = true.
Proof.
  destruct u; intros H; [congruence|..]; simpl; eexists _, _; split; reflexivity.
Qed.

Lemma digits_string_of_uint (u : Decimal.uint) :
  u <> Decimal.Nil -> digits (NilEmpty.string_of_uint u) = Some u.
Proof.
  induction u as [|u IH|u IH|u IH|u IH|u IH|u IH|u IH|u IH|u IH|u IH];
    intros Hn; [congruence|..];
    (destruct (Decimal.uint_eq_dec u Decimal.Nil) as [->|Hu]; [reflexivity|];
     destruct (string_of_uint_head u Hu) as (c & r & E & Hc);
     cbn [NilEmpty.string_of_uint]; rewrite E, (digits_step _ c r Hc), <- E,
       (IH Hu); reflexivity).
Qed.

Lemma take_sign_string_of_uint (u : Decimal.uint) :
  take_sign (NilEmpty.string_of_uint u) = (false, NilEmpty.string_of_uint u).
Proof. destruct u; reflexivity. Qed.

Lemma literal_of_str_of_Z (z : Z) : literal_of (str_of_Z z) = str_of_Z z.
Proof.
  assert (H : string_forall (fun c => negb (is_literal_space c)) (str_of_Z z) = true).
  { apply (string_forall_impl is_int_char); [|apply str_of_Z_chars].
    intros c Hc. destruct (is_int_char_plain c Hc) as (_ & -> & _). reflexivity. }
  unfold literal_of. rewrite (lstrip_of_id _ _ H). now apply rstrip_of_id.
Qed.

(** [int(str(z)) == z]. *)
Lemma py_int_str_of_Z (z : Z) : py_int (str_of_Z z) = Ok z.
Proof.
  unfold py_int. rewrite literal_of_str_of_Z. unfold str_of_Z.
  destruct z as [|p|p]; simpl Z.to_int.
  - reflexivity.
  - cbn [NilEmpty.string_of_int]. rewrite take_sign_string_of_uint.
    rewrite digits_string_of_uint by apply DecimalPos.Unsigned.to_uint_nonnil.
    unfold Z.of_uint. now rewrite DecimalPos.Unsigned.of_to.
  - cbn [NilEmpty.string_of_int take_sign].
    rewrite digits_string_of_uint by apply DecimalPos.Unsigned.to_uint_nonnil.
    unfold Z.of_uint. now rewrite DecimalPos.Unsigned.of_to.
Qed.




Lemma str_of_Z_no_slash (z : Z) :
  string_forall (fun c => negb (Ascii.eqb c "/")) (str_of_Z z) = true.
Proof.
  apply (string_forall_impl is_int_char); [|apply str_of_Z_chars].
  intros c Hc. destruct (is_int_char_plain c Hc) as (_ & _ & ->). reflexivity.
Qed.




Lemma getitem_pair_0 {A : Type} (a b : A) : getitem [a; b] 0 = Ok a.
Proof. reflexivity. Qed.

Lemma getitem_pair_1 {A : Type} (a b : A) : getitem [a; b] 1 = Ok b.
Proof. reflexivity. Qed.



(* ================================================================== *)
(** ** A whole timed challenge *)
(* ================================================================== *)

Lemma trailing_correct_snoc (l : list RoundResult) (r : RoundResult) :
  trailing_correct (l ++ [r])%list
  = if correct r then 1 + trailing_correct l else 0.
Proof. unfold trailing_correct. now rewrite rev_unit. Qed.

Lemma leading_correct_range (l : list RoundResult) :
  0 <= leading_correct l <= Z.of_nat (List.length l).
Proof.
  induction l as [|r l IH]; [simpl; lia|].
  cbn [leading_correct List.length]. rewrite Nat2Z.inj_succ.
  destruct (correct r); lia.
Qed.

Lemma trailing_correct_range (l : list RoundResult) :
  0 <= trailing_correct l <= Z.of_nat (List.length l).
Proof.
  unfold trailing_correct. pose proof (leading_correct_range (rev l)) as H.
  now rewrite length_rev in H.
Qed.

Lemma sum_ints_snoc (l : list Z) (x : Z) :
  sum_ints (l ++ [x])%list = sum_ints l + x.
Proof. unfold sum_ints. rewrite fold_left_app. reflexivity. Qed.


Lemma consistent_add_then_streak (self : MathGame) (r : RoundResult) :
  consistent self ->
  consistent (snd (update_streak (add_result self r) (correct r))).
Proof.
  intros [Hs Ht]. unfold consistent.
  destruct (update_streak_frame (add_result self r) (correct r)) as (_ & _ & Fr & Ft).
  rewrite Fr, Ft. unfold add_result at 2 3 4. cbn [results total_score].
  rewrite map_app. cbn [map]. rewrite sum_ints_snoc, trailing_correct_snoc.
  split; [|lia].
  rewrite <- Hs. unfold update_streak.
  destruct (correct r); [|reflexivity].
  destruct (_ && _); cbn [snd streak_count set_streak_count add_result]; lia.
Qed.

Lemma consistent_adjust (self : MathGame) :
  consistent self -> consistent (snd (adjust_difficulty self)).
Proof.
  intros [Hs Ht]. unfold consistent.
  destruct (adjust_difficulty_frame self) as (_ & _ & _ & Fr & Fs & Ft & _).
  now rewrite Fr, Fs, Ft.
Qed.

(** A round leaves the session consistent, also when it ends in an
    exception. *)
Lemma timed_round_consistent (self : MathGame) (n : Z) (i : RoundInput) :
  consistent self -> consistent (snd (timed_round self n i)).
Proof.
  intros H. unfold timed_round.
  destruct (check_answer _ _) as [c|e]; [|exact H].
  destruct (calculate_score _ _ _) as [sc|e]; [|exact H].
  set (r := mkRoundResult c _ _ _ _ _).
  pose proof (consistent_add_then_streak self r H) as H1.
  change (correct r) with c in H1.
  destruct (update_streak (add_result self r) c) as [msg self2]. simpl in H1.
  destruct (_ && _); [|exact H1].
  pose proof (consistent_adjust self2 H1) as H2.
  destruct (adjust_difficulty self2) as [[m|e] self3]; exact H2.
Qed.

Lemma timed_rounds_consistent (inputs : list RoundInput) :
  forall (self : MathGame) (n : Z),
    consistent self -> consistent (snd (timed_rounds self n inputs)).
Proof.
  induction inputs as [|i rest IH]; intros self n H; simpl; [exact H|].
  destruct (is_sentinel _); [exact H|].
  pose proof (timed_round_consistent self n i H) as H1.
  destruct (timed_round self n i) as [[o|e] self']; simpl in H1; [|exact H1].
  pose proof (IH self' (n + 1) H1) as H2.
  destruct (timed_rounds self' (n + 1) rest) as [[os|e] self'']; exact H2.
Qed.

(** Outside adaptive mode a round leaves the difficulty alone. *)
Lemma timed_round_fixed_difficulty (self : MathGame) (n : Z) (i : RoundInput) :
  adaptive_difficulty self = false ->
  adaptive_difficulty (snd (timed_round self n i)) = false
  /\ difficulty (snd (timed_round self n i)) = difficulty self.
Proof.
  intros Ha. unfold timed_round.
  destruct (check_answer _ _) as [c|e]; [|now split].
  destruct (calculate_score _ _ _) as [sc|e]; [|now split].
  set (r := mkRoundResult c _ _ _ _ _).
  destruct (update_streak_frame (add_result self r) c) as (Fd & Fa & _).
  destruct (update_streak (add_result self r) c) as [msg self2].
  simpl in Fd, Fa. simpl in Fa. rewrite Ha in Fa. rewrite Fa. simpl.
  now rewrite Fa, Fd.
Qed.

Lemma timed_rounds_fixed_difficulty (inputs : list RoundInput) :
  forall (self : MathGame) (n : Z),
    adaptive_difficulty self = false ->
    adaptive_difficulty (snd (timed_rounds self n inputs)) = false
    /\ difficulty (snd (timed_rounds self n inputs)) = difficulty self.
Proof.
  induction inputs as [|i rest IH]; intros self n Ha; simpl; [now split|].
  destruct (is_sentinel _); [now split|].
  destruct (timed_round_fixed_difficulty self n i Ha) as [H1 H2].
  destruct (timed_round self n i) as [[o|e] self']; simpl in H1, H2; [|now split].
  destruct (IH self' (n + 1) H1) as [H3 H4].
  destruct (timed_rounds self' (n + 1) rest) as [[os|e] self''];
    simpl in *; split; congruence.
Qed.

(** After a timed challenge, however it ends and whatever the session
    held before, the streak count is the length of the run of correct
    answers that ends the recorded results and the total score is the sum
    of the recorded scores; a challenge played outside adaptive mode ends
    at the difficulty it started with. *)
Theorem play_timed_challenge_keeps_session_consistent
    (self : MathGame) (inputs : list RoundInput) :
  let final := snd (play_timed_challenge self inputs) in
  streak_count final = trailing_correct (results final)
  /\ total_score final = sum_ints (map get_score (results final))
  /\ 0 <= streak_count final <= Z.of_nat (List.length (results final))
  /\ (adaptive_difficulty self = false -> difficulty final = difficulty self).
Proof.
  intros final.
  assert (E : final = snd (timed_rounds (reset_session self) 1 inputs)).
  { unfold final, play_timed_challenge.
    destruct (timed_rounds _ _ _) as [[os|e] s']; reflexivity. }
  assert (C : consistent final).
  { rewrite E. apply timed_rounds_consistent. split; reflexivity. }
  destruct C as [Cs Ct].
  split; [exact Cs|]. split; [exact Ct|]. split.
  - rewrite Cs. apply trailing_correct_range.
  - intros Ha. rewrite E.
    now destruct (timed_rounds_fixed_difficulty inputs (reset_session self) 1 Ha).
Qed.

(** A round with a measured time, on a session with the difficulty in 1..3
    and a streak count below [2^62], returns normally and appends one
    result built from its input. *)
Lemma timed_round_ok (self : MathGame) (n : Z) (i : RoundInput) :
  measured (in_time_taken i) ->
  1 <= difficulty self <= 3 ->
  0 <= streak_count self < 2 ^ 62 ->
  exists (o : RoundOutput) (self' : MathGame) (c : bool) (sc : Z),
    timed_round self n i = (Ok o, self')
    /\ out_result o
       = mkRoundResult c (in_time_taken i) (in_question i) (in_user_answer i)
           (in_correct_answer i) (Some sc)
    /\ check_answer (in_user_answer i) (in_correct_answer i) = Ok c
    /\ calculate_score self c (in_time_taken i) = Ok sc
    /\ results self' = (results self ++ [out_result o])%list
    /\ streak_count self' = (if c then streak_count self + 1 else 0)
    /\ 1 <= difficulty self' <= 3.
Proof.
  intros (t & Et & Ht) Hd Hs.
  destruct (check_answer_returns (in_user_answer i) (in_correct_answer i)) as (c & Ec).
  destruct (calculate_score_agrees self c t Hd Hs Ht) as (sc & Esc & _ & _).
  unfold timed_round. rewrite Ec, Et, Esc.
  set (r := mkRoundResult _ _ _ _ _ _).
  assert (Hstreak : streak_count (snd (update_streak (add_result self r) c))
                    = if c then streak_count self + 1 else 0).
  { unfold update_streak. destruct c; [|reflexivity].
    destruct (_ && _); reflexivity. }
  destruct (update_streak_frame (add_result self r) c) as (Fd & _ & Fr & _).
  destruct (update_streak (add_result self r) c) as [msg self2].
  cbn [snd] in Hstreak, Fd, Fr.
  assert (Hd2 : 1 <= difficulty self2 <= 3) by (rewrite Fd; exact Hd).
  destruct (_ && _).
  - destruct (adjust_difficulty_returns self2 Hd2) as (m & Em).
    pose proof (adjust_difficulty_frame self2) as F.
    pose proof (adjust_difficulty_range self2 Hd2) as R.
    destruct (adjust_difficulty self2) as [res self3].
    cbn [fst snd] in Em, F, R. subst res.
    destruct F as (_ & _ & _ & F1 & F2 & _).
    eexists _, self3, c, sc. split; [reflexivity|]. cbn [out_result].
    rewrite F1, F2, Fr, Hstreak. auto 10.
  - eexists _, self2, c, sc. split; [reflexivity|]. cbn [out_result].
    rewrite Fr, Hstreak. auto 10.
Qed.

Lemma timed_rounds_ok (inputs : list RoundInput) :
  forall (self : MathGame) (n : Z),
    Forall (fun i => measured (in_time_taken i)) inputs ->
    1 <= difficulty self <= 3 ->
    0 <= streak_count self ->
    streak_count self + Z.of_nat (List.length inputs) < 2 ^ 62 ->
    exists (os : list RoundOutput) (self' : MathGame),
      timed_rounds self n inputs = (Ok os, self')
      /\ results self' = (results self ++ map out_result os)%list
      /\ map question (map out_result os)
         = map in_question (before_sentinel inputs)
      /\ map user_answer (map out_result os)
         = map in_user_answer (before_sentinel inputs)
      /\ map correct_answer (map out_result os)
         = map in_correct_answer (before_sentinel inputs)
      /\ map time_taken (map out_result os)
         = map in_time_taken (before_sentinel inputs)
      /\ Forall (fun r => check_answer (user_answer r) (correct_answer r)
                          = Ok (correct r)
                          /\ exists sc, score r = Some sc /\ 0 <= sc
                             /\ (correct r = false -> sc = 0))
           (map out_result os).
Proof.
  induction inputs as [|i rest IH]; intros self n Hm Hd Hs0 Hs.
  - exists [], self. cbn. rewrite app_nil_r. auto 10.
  - cbn [timed_rounds before_sentinel].
    destruct (is_sentinel (in_user_answer i)).
    { exists [], self. cbn. rewrite app_nil_r. auto 10. }
    inversion Hm as [|? ? Hi Hrest]; subst.
    cbn [List.length] in Hs. rewrite Nat2Z.inj_succ in Hs.
    destruct (timed_round_ok self n i Hi Hd ltac:(lia))
      as (o & self1 & c & sc & E & Eo & Ec & Esc & Er & Est & Hd1).
    rewrite E.
    destruct (IH self1 (n + 1) Hrest Hd1) as (os & self2 & E2 & Er2 & Q1 & Q2 & Q3 & Q4 & F).
    { rewrite Est. destruct c; lia. }
    { rewrite Est. destruct c; lia. }
    rewrite E2. exists (o :: os), self2. split; [reflexivity|].
    cbn [map]. rewrite Er2, Er, <- app_assoc, Q1, Q2, Q3, Q4, Eo. cbn.
    repeat split; try reflexivity.
    constructor; [|exact F]. cbn. split; [exact Ec|].
    exists sc. split; [reflexivity|].
    destruct Hi as (t & Et & Ht).
    destruct (calculate_score_agrees self c t Hd ltac:(lia) Ht) as (z & Ez & _ & Hz).
    rewrite Et in Esc. rewrite Esc in Ez. injection Ez as <-.
    split; [exact Hz|]. intros ->.
    unfold calculate_score in Esc. cbn in Esc. now injection Esc as <-.
Qed.

(** A timed challenge started at a difficulty in 1..3, with fewer than
    [2^62] rounds of measured times, returns its statistics normally.  It
    records exactly the rounds before the first sentinel answer, in the
    order played, each with the verdict of [check_answer] and a
    non-negative score that is 0 for a wrong answer; the statistics count
    those rounds and carry the accumulated total score. *)
Theorem play_timed_challenge_records_rounds
    (self : MathGame) (inputs : list RoundInput) :
  1 <= difficulty self <= 3 ->
  Forall (fun i => measured (in_time_taken i)) inputs ->
  Z.of_nat (List.length inputs) < 2 ^ 62 ->
  exists (st : Stats.t) (final : MathGame),
    play_timed_challenge self inputs = (Ok st, final)
    /\ map question (results final) = map in_question (before_sentinel inputs)
    /\ map user_answer (results final)
       = map in_user_answer (before_sentinel inputs)
    /\ map correct_answer (results final)
       = map in_correct_answer (before_sentinel inputs)
    /\ map time_taken (results final)
       = map in_time_taken (before_sentinel inputs)
    /\ Forall (fun r => check_answer (user_answer r) (correct_answer r)
                        = Ok (correct r)
                        /\ exists sc, score r = Some sc /\ 0 <= sc
                           /\ (correct r = false -> sc = 0))
         (results final)
    /\ Stats.total_rounds st = Z.of_nat (List.length (before_sentinel inputs))
    /\ Stats.total_score st = total_score final.
Proof.
  intros Hd Hm Hn.
  destruct (timed_rounds_ok inputs (reset_session self) 1 Hm Hd)
    as (os & final & E & Er & Q1 & Q2 & Q3 & Q4 & F).
  { cbn. lia. }
  { cbn. lia. }
  cbn [reset_session results app] in Er.
  assert (C : consistent final).
  { pose proof (timed_rounds_consistent inputs (reset_session self) 1) as C.
    rewrite E in C. apply C. split; reflexivity. }
  assert (Hlen : List.length (results final)
                 = List.length (before_sentinel inputs)).
  { rewrite Er, <- (length_map question), Q1, length_map. reflexivity. }
  assert (Hle : (List.length (before_sentinel inputs) <= List.length inputs)%nat).
  { clear. induction inputs as [|i rest IH]; cbn; [lia|].
    destruct (is_sentinel _); cbn; lia. }
  destruct (get_game_stats_total final) as (st & Es & T & _ & S).
  { rewrite Hlen. lia. }
  exists st, final. unfold play_timed_challenge. rewrite E, Es.
  rewrite Er. split; [reflexivity|].
  rewrite <- Er, T, S, Hlen. destruct C as [_ Ct]. rewrite Ct, Er.
  auto 10.
Qed.

Lemma play_timed_challenge_records_rounds_witness :
  let inputs :=
    [mkRoundInput "2 + 2" "4" (Some "4") (Fin 2);
     mkRoundInput "1/2 + 1/4" "3/4" (Some "6/8") (Fin 7);
     mkRoundInput "3 + 3" "6" (Some "__QUIT__") (Fin 1);
     mkRoundInput "5 + 5" "10" (Some "10") (Fin 1)] in
  exists (st : Stats.t) (final : MathGame),
    play_timed_challenge (session 2 7) inputs = (Ok st, final)
    /\ map question (results final) = map in_question (before_sentinel inputs)
    /\ map user_answer (results final)
       = map in_user_answer (before_sentinel inputs)
    /\ map correct_answer (results final)
       = map in_correct_answer (before_sentinel inputs)
    /\ map time_taken (results final)
       = map in_time_taken (before_sentinel inputs)
    /\ Forall (fun r => check_answer (user_answer r) (correct_answer r)
                        = Ok (correct r)
                        /\ exists sc, score r = Some sc /\ 0 <= sc
                           /\ (correct r = false -> sc = 0))
         (results final)
    /\ Stats.total_rounds st = Z.of_nat (List.length (before_sentinel inputs))
    /\ Stats.total_score st = total_score final.
Proof.
  intros inputs.
  apply (play_timed_challenge_records_rounds (session 2 7) inputs).
  - cbn. lia.
  - repeat constructor; eexists; (split; [reflexivity|]); vm_compute; discriminate.
  - cbn. lia.
Defined.

(* ================================================================== *)
(** ** main.py against the class MathGame *)
(* ================================================================== *)

(** On a window of three results and a difficulty in 1..3, the adaptive
    step of main.py and [adjust_difficulty] move to the same difficulty;
    but main.py announces every promotion and every demotion, also the one
    that leaves the difficulty at 3 or at 1, where [adjust_difficulty]
    returns a message only when the difficulty changed.  When both
    announce, they name the same level. *)
Theorem main_adjust_against_adjust_difficulty
    (self : MathGame) (older : list RoundResult) (r1 r2 r3 : RoundResult) :
  adaptive_difficulty self = true ->
  results self = (older ++ [r1; r2; r3])%list ->
  1 <= difficulty self <= 3 ->
  exists (d' : Z) (a : option announcement) (msg : option string),
    main_adjust (difficulty self) (results self) = Ok (d', a)
    /\ adjust_difficulty self = (Ok msg, set_difficulty self d')
    /\ (msg = None <-> d' = difficulty self)
    /\ (forall avg, mean_time [r1; r2; r3] = Ok avg ->
        (a = None <->
         correct r1 && correct r2 && correct r3 && flt avg (Fin 5) = false
         /\ 2 <= Z.b2z (correct r1) + Z.b2z (correct r2) + Z.b2z (correct r3)))
    /\ (forall name, a = Some (Increased name) ->
        msg = None \/ msg = Some ("Difficulty increased to " ++ name))
    /\ (forall name, a = Some (Adjusted name) ->
        msg = None
        \/ msg = Some ("Difficulty adjusted to " ++ name ++ " to help you improve")).
Proof.
  intros Ha Hr Hd.
  destruct (mean_time_3 r1 r2 r3) as (avg & Eavg).
  unfold main_adjust, adjust_difficulty.
  rewrite Ha, Hr, last3_app3, Eavg.
  cbn [negb List.length Nat.ltb Nat.leb bind].
  pose proof (set_difficulty_same self) as Same.
  assert (C : difficulty self = 1 \/ difficulty self = 2 \/ difficulty self = 3) by lia.
  unfold count_correct. cbn [filter].
  destruct (correct r1), (correct r2), (correct r3), (flt avg (Fin 5)) eqn:Ef;
    destruct C as [E | [E | E]]; rewrite E in *; simpl;
    rewrite ?E; simpl;
    eexists _, _, _; (split; [reflexivity|]);
    (split; [first [reflexivity | rewrite Same; reflexivity]|]);
    (split; [split; intros; (discriminate || lia || reflexivity)|]);
    (split; [intros avg' [= <-]; rewrite ?Ef; split;
             [intros; (discriminate || (split; [reflexivity|simpl; lia]))
             |intros [? ?]; (discriminate || (simpl in *; lia) || reflexivity)]|]);
    split; intros name [= <-]; auto.
Qed.

Lemma main_adjust_against_adjust_difficulty_witness :
  let r := mkRoundResult true (Fin 2) "1 + 1" (Some "2") "2" (Some 160) in
  let self := set_difficulty
                (add_result (add_result (add_result
                   (setup_game init 1 4 10 false 60) r) r) r) 3 in
  exists (d' : Z) (a : option announcement) (msg : option string),
    main_adjust (difficulty self) (results self) = Ok (d', a)
    /\ adjust_difficulty self = (Ok msg, set_difficulty self d')
    /\ (msg = None <-> d' = difficulty self)
    /\ (forall avg, mean_time [r; r; r] = Ok avg ->
        (a = None <->
         correct r && correct r && correct r && flt avg (Fin 5) = false
         /\ 2 <= Z.b2z (correct r) + Z.b2z (correct r) + Z.b2z (correct r)))
    /\ (forall name, a = Some (Increased name) ->
        msg = None \/ msg = Some ("Difficulty increased to " ++ name))
    /\ (forall name, a = Some (Adjusted name) ->
        msg = None
        \/ msg = Some ("Difficulty adjusted to " ++ name ++ " to help you improve")).
Proof.
  intros r self.
  apply (main_adjust_against_adjust_difficulty self [] r r r).
  - reflexivity.
  - reflexivity.
  - cbn. lia.
Defined.

(* ================================================================== *)
(** ** high_scores.py: the table of high scores *)
(* ================================================================== *)

Lemma dict_get_set_same {V : Type} (d : dict string V) (k : string) (v : V) :
  dict_get String.eqb (dict_set String.eqb d k v) k = Some v.
Proof.
  induction d as [|[k' v'] d IH]; cbn [dict_set dict_get].
  - now rewrite String.eqb_refl.
  - destruct (String.eqb k' k) eqn:E; cbn [dict_get]; rewrite E; auto.
Qed.

Lemma dict_get_set_other {V : Type} (d : dict string V) (k k' : string) (v : V) :
  k' <> k ->
  dict_get String.eqb (dict_set String.eqb d k v) k' = dict_get String.eqb d k'.
Proof.
  intros N. induction d as [|[k0 v0] d IH]; cbn [dict_set dict_get].
  - destruct (String.eqb k k') eqn:E; [|reflexivity].
    apply String.eqb_eq in E. congruence.
  - destruct (String.eqb k0 k) eqn:E; cbn [dict_get].
    + apply String.eqb_eq in E. subst k0.
      destruct (String.eqb k k') eqn:E'; [|reflexivity].
      apply String.eqb_eq in E'. congruence.
    + now rewrite IH.
Qed.

Lemma is_mode_cases (game_mode : string) :
  HighScoreManager.is_mode game_mode = true ->
  game_mode = "normal_mode" \/ game_mode = "timed_mode".
Proof.
  unfold HighScoreManager.is_mode. cbn [existsb].
  destruct (String.eqb game_mode "normal_mode") eqn:E1.
  - apply String.eqb_eq in E1. auto.
  - destruct (String.eqb game_mode "timed_mode") eqn:E2; [|discriminate].
    apply String.eqb_eq in E2. auto.
Qed.

Lemma get_mode_set_mode_same (self : HighScoreManager.t) (gm : string) m :
  HighScoreManager.get_mode (HighScoreManager.set_mode self gm m) gm = m.
Proof.
  unfold HighScoreManager.get_mode, HighScoreManager.set_mode.
  destruct (String.eqb gm "normal_mode"); reflexivity.
Qed.

Lemma get_mode_set_mode_other (self : HighScoreManager.t) (gm gm' : string) m :
  HighScoreManager.is_mode gm = true -> HighScoreManager.is_mode gm' = true ->
  gm' <> gm ->
  HighScoreManager.get_mode (HighScoreManager.set_mode self gm m) gm'
  = HighScoreManager.get_mode self gm'.
Proof.
  intros H H' N.
  destruct (is_mode_cases _ H) as [-> | ->], (is_mode_cases _ H') as [-> | ->];
    (congruence || reflexivity).
Qed.

Lemma bucket_set_bucket_same (self : HighScoreManager.t) (gm op key : string) e :
  dict_mem String.eqb (HighScoreManager.get_mode self gm) op = true ->
  HighScoreManager.bucket (HighScoreManager.set_bucket self gm op key e) gm op key
  = Some e.
Proof.
  unfold dict_mem, HighScoreManager.bucket, HighScoreManager.set_bucket.
  destruct (dict_get String.eqb (HighScoreManager.get_mode self gm) op) eqn:E;
    [intros _|discriminate].
  rewrite get_mode_set_mode_same, dict_get_set_same. apply dict_get_set_same.
Qed.

Lemma bucket_set_bucket_other (self : HighScoreManager.t)
    (gm op key gm' op' key' : string) e :
  HighScoreManager.is_mode gm = true -> HighScoreManager.is_mode gm' = true ->
  gm' <> gm \/ op' <> op \/ key' <> key ->
  HighScoreManager.bucket (HighScoreManager.set_bucket self gm op key e) gm' op' key'
  = HighScoreManager.bucket self gm' op' key'.
Proof.
  intros H H' N.
  unfold HighScoreManager.bucket, HighScoreManager.set_bucket.
  destruct (dict_get String.eqb (HighScoreManager.get_mode self gm) op) eqn:E;
    [|reflexivity].
  destruct (String.eqb_spec gm' gm) as [-> | Ng].
  - rewrite get_mode_set_mode_same.
    destruct (String.eqb_spec op' op) as [-> | No].
    + rewrite dict_get_set_same, E.
      apply dict_get_set_other. destruct N as [N | [N | N]]; congruence.
    + now rewrite dict_get_set_other.
  - now rewrite get_mode_set_mode_other.
Qed.

Lemma set_bucket_mem (self : HighScoreManager.t) (gm op key : string) e :
  dict_mem String.eqb (HighScoreManager.get_mode self gm) op = true ->
  dict_mem String.eqb
    (HighScoreManager.get_mode (HighScoreManager.set_bucket self gm op key e) gm) op
  = true.
Proof.
  unfold dict_mem, HighScoreManager.set_bucket.
  destruct (dict_get String.eqb (HighScoreManager.get_mode self gm) op) eqn:E;
    [intros _|discriminate].
  now rewrite get_mode_set_mode_same, dict_get_set_same.
Qed.

Lemma ensure_first_mem (self : HighScoreManager.t) (gm op : string) :
  dict_mem String.eqb
    (HighScoreManager.get_mode
       (if dict_mem String.eqb (HighScoreManager.get_mode self gm) op then self
        else HighScoreManager.set_mode self gm
               (dict_set String.eqb (HighScoreManager.get_mode self gm) op []))
       gm) op
  = true.
Proof.
  destruct (dict_mem String.eqb (HighScoreManager.get_mode self gm) op) eqn:E;
    [exact E|].
  unfold dict_mem. now rewrite get_mode_set_mode_same, dict_get_set_same.
Qed.

Lemma ensure_first_step (self : HighScoreManager.t) (gm op gm' op' key' : string) :
  HighScoreManager.is_mode gm = true -> HighScoreManager.is_mode gm' = true ->
  HighScoreManager.bucket
    (if dict_mem String.eqb (HighScoreManager.get_mode self gm) op then self
     else HighScoreManager.set_mode self gm
            (dict_set String.eqb (HighScoreManager.get_mode self gm) op []))
    gm' op' key'
  = HighScoreManager.bucket self gm' op' key'.
Proof.
  intros H H'. unfold dict_mem.
  destruct (dict_get String.eqb (HighScoreManager.get_mode self gm) op) eqn:E;
    [reflexivity|].
  unfold HighScoreManager.bucket.
  destruct (String.eqb_spec gm' gm) as [-> | Ng].
  - rewrite get_mode_set_mode_same.
    destruct (String.eqb_spec op' op) as [-> | No].
    + now rewrite dict_get_set_same, E.
    + now rewrite dict_get_set_other.
  - now rewrite get_mode_set_mode_other.
Qed.

Lemma ensure_same (self : HighScoreManager.t) (gm op key : string) :
  HighScoreManager.is_mode gm = true ->
  HighScoreManager.bucket (HighScoreManager.ensure self gm op key) gm op key
  = Some (match HighScoreManager.bucket self gm op key with
          | Some e => e
          | None => HighScoreManager.zero_entry
          end).
Proof.
  intros H. pose proof (ensure_first_mem self gm op) as M.
  pose proof (ensure_first_step self gm op gm op key H H) as F.
  unfold HighScoreManager.ensure.
  set (self1 := if dict_mem _ _ _ then _ else _) in *.
  destruct (HighScoreManager.bucket self1 gm op key) eqn:E.
  - now rewrite E, <- F.
  - rewrite <- F. now apply bucket_set_bucket_same.
Qed.

Lemma ensure_mem (self : HighScoreManager.t) (gm op key : string) :
  dict_mem String.eqb
    (HighScoreManager.get_mode (HighScoreManager.ensure self gm op key) gm) op
  = true.
Proof.
  pose proof (ensure_first_mem self gm op) as M.
  unfold HighScoreManager.ensure.
  set (self1 := if dict_mem _ _ _ then _ else _) in *.
  destruct (HighScoreManager.bucket self1 gm op key); [exact M|].
  now apply set_bucket_mem.
Qed.

Lemma ensure_other (self : HighScoreManager.t) (gm op key gm' op' key' : string) :
  HighScoreManager.is_mode gm = true -> HighScoreManager.is_mode gm' = true ->
  gm' <> gm \/ op' <> op \/ key' <> key ->
  HighScoreManager.bucket (HighScoreManager.ensure self gm op key) gm' op' key'
  = HighScoreManager.bucket self gm' op' key'.
Proof.
  intros H H' N.
  pose proof (ensure_first_step self gm op gm' op' key' H H') as F.
  unfold HighScoreManager.ensure.
  set (self1 := if dict_mem _ _ _ then _ else _) in *.
  destruct (HighScoreManager.bucket self1 gm op key); [exact F|].
  now rewrite bucket_set_bucket_other.
Qed.

Lemma str_of_Z_inj (a b : Z) : str_of_Z a = str_of_Z b -> a = b.
Proof.
  intros E. pose proof (py_int_str_of_Z a) as Ha.
  rewrite E, py_int_str_of_Z in Ha. congruence.
Qed.

Lemma diff_key_inj (a b : Z) :
  HighScoreManager.diff_key a = HighScoreManager.diff_key b -> a = b.
Proof.
  unfold HighScoreManager.diff_key. cbn [append]. intros [= E].
  now apply str_of_Z_inj.
Qed.

Lemma bucket_mk (s : HighScoreManager.t) lp st (gm op key : string) :
  HighScoreManager.bucket
    (HighScoreManager.mk (HighScoreManager.normal_mode s)
                         (HighScoreManager.timed_mode s) lp st) gm op key
  = HighScoreManager.bucket s gm op key.
Proof. reflexivity. Qed.

(** The buckets after [update_high_score], on a valid mode. *)
Lemma update_high_score_buckets (self : HighScoreManager.t) (now gm : string)
    (opt d : Z) (st : Stats.t) (avg : option Z) :
  HighScoreManager.is_mode gm = true ->
  let op := HighScoreManager.op_name opt in
  let key := HighScoreManager.diff_key
               (if 3 <? d then match avg with Some a => a | None => 1 end else d) in
  let prev := match HighScoreManager.bucket self gm op key with
              | Some e => e
              | None => HighScoreManager.zero_entry
              end in
  let after := snd (HighScoreManager.update_high_score self now gm opt d st avg) in
  HighScoreManager.bucket after gm op key
  = Some (if HighScoreManager.score prev <? Stats.total_score st
          then HighScoreManager.mk_entry (Stats.total_score st) now
                 (Stats.accuracy st) (Stats.avg_time st)
          else prev)
  /\ forall gm' op' key',
       HighScoreManager.is_mode gm' = true ->
       gm' <> gm \/ op' <> op \/ key' <> key ->
       HighScoreManager.bucket after gm' op' key'
       = HighScoreManager.bucket self gm' op' key'.
Proof.
  intros H op key prev after.
  assert (A : forall gm' op' key',
             HighScoreManager.bucket after gm' op' key'
             = HighScoreManager.bucket
                 (if HighScoreManager.score prev <? Stats.total_score st
                  then HighScoreManager.set_bucket
                         (HighScoreManager.ensure self gm op key) gm op key
                         (HighScoreManager.mk_entry (Stats.total_score st) now
                            (Stats.accuracy st) (Stats.avg_time st))
                  else HighScoreManager.ensure self gm op key) gm' op' key').
  { intros gm' op' key'. subst after.
    unfold HighScoreManager.update_high_score. rewrite H. cbn [negb].
    fold op. fold key. rewrite (ensure_same self gm op key H). fold prev.
    destruct (bind _ _); cbn [snd]; rewrite !bucket_mk; reflexivity. }
  split.
  - rewrite A. destruct (HighScoreManager.score prev <? Stats.total_score st).
    + apply bucket_set_bucket_same, ensure_mem.
    + now rewrite ensure_same.
  - intros gm' op' key' H' N. rewrite A.
    destruct (HighScoreManager.score prev <? Stats.total_score st).
    + rewrite bucket_set_bucket_other by assumption. now apply ensure_other.
    + now apply ensure_other.
Qed.

Lemma stats_set_mode (self : HighScoreManager.t) (gm : string) m :
  HighScoreManager.stats (HighScoreManager.set_mode self gm m)
  = HighScoreManager.stats self.
Proof. unfold HighScoreManager.set_mode. now destruct (String.eqb gm _). Qed.

Lemma stats_set_bucket (self : HighScoreManager.t) (gm op key : string) e :
  HighScoreManager.stats (HighScoreManager.set_bucket self gm op key e)
  = HighScoreManager.stats self.
Proof.
  unfold HighScoreManager.set_bucket.
  destruct (dict_get _ _ _); [apply stats_set_mode|reflexivity].
Qed.

Lemma stats_ensure (self : HighScoreManager.t) (gm op key : string) :
  HighScoreManager.stats (HighScoreManager.ensure self gm op key)
  = HighScoreManager.stats self.
Proof.
  unfold HighScoreManager.ensure.
  assert (E : HighScoreManager.stats
                (if dict_mem String.eqb (HighScoreManager.get_mode self gm) op
                 then self
                 else HighScoreManager.set_mode self gm
                        (dict_set String.eqb (HighScoreManager.get_mode self gm) op []))
              = HighScoreManager.stats self).
  { destruct (dict_mem _ _ _); [reflexivity|apply stats_set_mode]. }
  destruct (HighScoreManager.bucket _ _ _ _); [exact E|].
  now rewrite stats_set_bucket.
Qed.

(** What [update_high_score] returns and how it moves the counters, in
    terms of the sum on line 128. *)
Lemma update_high_score_outcome (self : HighScoreManager.t) (now gm : string)
    (opt d : Z) (st : Stats.t) (avg : option Z) :
  HighScoreManager.is_mode gm = true ->
  let op := HighScoreManager.op_name opt in
  let d' := if 3 <? d then match avg with Some a => a | None => 1 end else d in
  let prev := match HighScoreManager.bucket self gm op
                      (HighScoreManager.diff_key d') with
              | Some e => e
              | None => HighScoreManager.zero_entry
              end in
  let r := HighScoreManager.update_high_score self now gm opt d st avg in
  HighScoreManager.last_played (snd r)
  = Some (HighScoreManager.mk_played op d' gm now)
  /\ HighScoreManager.total_problems_solved (HighScoreManager.stats (snd r))
     = HighScoreManager.total_problems_solved (HighScoreManager.stats self)
       + Stats.total_rounds st
  /\ match (played_time <- num_mul (Stats.avg_time st)
                                   (PyInt (Stats.total_rounds st)) ;;
            num_add (HighScoreManager.total_time_played
                       (HighScoreManager.stats self)) played_time) with
     | Ok time_played =>
         fst r = Ok (Some (HighScoreManager.score prev <? Stats.total_score st,
                           HighScoreManager.score prev))
         /\ HighScoreManager.total_time_played (HighScoreManager.stats (snd r))
            = time_played
         /\ HighScoreManager.games_played (HighScoreManager.stats (snd r))
            = HighScoreManager.games_played (HighScoreManager.stats self) + 1
     | Raise e =>
         fst r = Raise e
         /\ HighScoreManager.total_time_played (HighScoreManager.stats (snd r))
            = HighScoreManager.total_time_played (HighScoreManager.stats self)
         /\ HighScoreManager.games_played (HighScoreManager.stats (snd r))
            = HighScoreManager.games_played (HighScoreManager.stats self)
     end.
Proof.
  intros H op d' prev r. subst r.
  unfold HighScoreManager.update_high_score. rewrite H. cbn [negb].
  fold op. fold d'.
  rewrite (ensure_same self gm op (HighScoreManager.diff_key d') H). fold prev.
  cbn [HighScoreManager.stats HighScoreManager.total_time_played
       HighScoreManager.total_problems_solved HighScoreManager.games_played
       HighScoreManager.last_played HighScoreManager.normal_mode
       HighScoreManager.timed_mode].
  assert (S : HighScoreManager.stats
                (if HighScoreManager.score prev <? Stats.total_score st
                 then HighScoreManager.set_bucket
                        (HighScoreManager.ensure self gm op (HighScoreManager.diff_key d'))
                        gm op (HighScoreManager.diff_key d')
                        (HighScoreManager.mk_entry (Stats.total_score st) now
                           (Stats.accuracy st) (Stats.avg_time st))
                 else HighScoreManager.ensure self gm op (HighScoreManager.diff_key d'))
              = HighScoreManager.stats self).
  { destruct (HighScoreManager.score prev <? Stats.total_score st);
      [rewrite stats_set_bucket|]; apply stats_ensure. }
  rewrite S.
  destruct (bind _ _); cbn [fst snd HighScoreManager.stats
       HighScoreManager.total_time_played
       HighScoreManager.total_problems_solved HighScoreManager.games_played
       HighScoreManager.last_played]; auto.
Qed.

Lemma session_time_total (T avg : number) (n : Z) :
  time_like T -> time_like avg -> 0 <= n < 2 ^ 62 ->
  exists tp,
    (played_time <- num_mul avg (PyInt n) ;; num_add T played_time) = Ok tp
    /\ time_like tp.
Proof.
  intros HT Ha Hn.
  destruct (float_of_Z_below n 62) as (y & Ey & _); [lia|lia|].
  destruct (float_of_Z_below 0 62) as (z & Ez & _); [lia|lia|].
  destruct Ha as [-> | (x & ->)]; destruct HT as [-> | (t & ->)];
    cbn [num_mul num_add to_float bind]; rewrite ?Ey, ?Ez;
    cbn [num_mul num_add to_float bind]; rewrite ?Ey, ?Ez;
    cbn [num_mul num_add to_float bind];
    eexists; (split; [reflexivity|]);
    first [left; reflexivity | right; eexists; reflexivity].
Qed.

Lemma get_high_score_bucket (self : HighScoreManager.t) (gm : string) (opt d : Z) :
  HighScoreManager.is_mode gm = true ->
  HighScoreManager.get_high_score self gm opt d
  = match HighScoreManager.bucket self gm (HighScoreManager.op_name opt)
            (HighScoreManager.diff_key (Z.min d 3)) with
    | Some e => e
    | None => HighScoreManager.zero_entry
    end.
Proof. intros H. unfold HighScoreManager.get_high_score. now rewrite H. Qed.

(** high_scores.py, [update_high_score] and [get_high_score]: recording
    the statistics of a session under a valid mode and a difficulty of at
    most 3 returns whether the session's total beats the stored score
    together with the stored score; afterwards [get_high_score] for the
    same mode, operation and difficulty gives the session's entry if it
    beat the stored one and the stored one otherwise, so the stored score
    is the maximum of the two.  The call counts one more game and the
    session's rounds, and raises nothing. *)
Theorem update_high_score_records_a_session
    (self : HighScoreManager.t) (now game_mode : string)
    (operation_type difficulty : Z) (stats : Stats.t)
    (average_difficulty : option Z) :
  HighScoreManager.is_mode game_mode = true ->
  difficulty <= 3 ->
  time_like (HighScoreManager.total_time_played (HighScoreManager.stats self)) ->
  time_like (Stats.avg_time stats) ->
  0 <= Stats.total_rounds stats < 2 ^ 62 ->
  let prev :=
    HighScoreManager.get_high_score self game_mode operation_type difficulty in
  let best :=
    if HighScoreManager.score prev <? Stats.total_score stats
    then HighScoreManager.mk_entry (Stats.total_score stats) now
           (Stats.accuracy stats) (Stats.avg_time stats)
    else prev in
  let r := HighScoreManager.update_high_score self now game_mode operation_type
             difficulty stats average_difficulty in
  fst r = Ok (Some (HighScoreManager.score prev <? Stats.total_score stats,
                    HighScoreManager.score prev))
  /\ HighScoreManager.get_high_score (snd r) game_mode operation_type difficulty
     = best
  /\ HighScoreManager.score best
     = Z.max (HighScoreManager.score prev) (Stats.total_score stats)
  /\ HighScoreManager.games_played (HighScoreManager.stats (snd r))
     = HighScoreManager.games_played (HighScoreManager.stats self) + 1
  /\ HighScoreManager.total_problems_solved (HighScoreManager.stats (snd r))
     = HighScoreManager.total_problems_solved (HighScoreManager.stats self)
       + Stats.total_rounds stats
  /\ time_like (HighScoreManager.total_time_played
                  (HighScoreManager.stats (snd r)))
  /\ HighScoreManager.last_played (snd r)
     = Some (HighScoreManager.mk_played
               (HighScoreManager.op_name operation_type) difficulty game_mode now).
Proof.
  intros H Hd HT Ha Hn prev best r.
  assert (D : (3 <? difficulty) = false) by (apply Z.ltb_ge; lia).
  assert (P : prev = match HighScoreManager.bucket self game_mode
                             (HighScoreManager.op_name operation_type)
                             (HighScoreManager.diff_key difficulty) with
                     | Some e => e
                     | None => HighScoreManager.zero_entry
                     end).
  { subst prev. rewrite get_high_score_bucket by assumption.
    now rewrite Z.min_l by lia. }
  destruct (update_high_score_outcome self now game_mode operation_type
              difficulty stats average_difficulty H) as (L & Pr & O).
  destruct (update_high_score_buckets self now game_mode operation_type
              difficulty stats average_difficulty H) as (B & _).
  rewrite D in *. rewrite <- P in *. fold r in L, Pr, O, B.
  destruct (session_time_total _ _ _ HT Ha Hn) as (tp & Etp & Htp).
  rewrite Etp in O. destruct O as (F & Tp & G).
  split; [exact F|]. split.
  { rewrite get_high_score_bucket by assumption.
    rewrite Z.min_l by lia. now rewrite B. }
  split.
  { subst best. destruct (Z.ltb_spec (HighScoreManager.score prev)
                                      (Stats.total_score stats));
      cbn [HighScoreManager.score]; lia. }
  split; [exact G|]. split; [exact Pr|]. split; [now rewrite Tp|exact L].
Qed.

Lemma update_high_score_records_a_session_witness :
  let stats := Stats.mk 3 2 (PyFloat (Fin (200 # 3))) (PyFloat (Fin 2)) 320 in
  let r := HighScoreManager.update_high_score
             HighScoreManager.create_default_scores "2026-01-01 10:00"
             "timed_mode" 2 3 stats None in
  fst r = Ok (Some (true, 0))
  /\ HighScoreManager.score
       (HighScoreManager.get_high_score (snd r) "timed_mode" 2 3) = 320
  /\ HighScoreManager.games_played (HighScoreManager.stats (snd r)) = 1.
Proof.
  intros stats r.
  destruct (update_high_score_records_a_session
              HighScoreManager.create_default_scores "2026-01-01 10:00"
              "timed_mode" 2 3 stats None) as (F & B & _ & G & _).
  - reflexivity.
  - lia.
  - left. reflexivity.
  - right. eexists. reflexivity.
  - cbn. lia.
  - split; [exact F|]. split; [|exact G].
    fold r in B. rewrite B. reflexivity.
Defined.

(** high_scores.py, [update_high_score]: whatever is recorded, under
    whatever arguments, no stored high score gets lower: for every mode,
    operation and difficulty the score [get_high_score] returns afterwards
    is at least the one it returned before.  The entry of every bucket
    other than the one the call addresses is unchanged. *)
Theorem update_high_score_never_lowers_a_score
    (self : HighScoreManager.t) (now game_mode : string)
    (operation_type difficulty : Z) (stats : Stats.t)
    (average_difficulty : option Z)
    (game_mode' : string) (operation_type' difficulty' : Z) :
  let after := snd (HighScoreManager.update_high_score self now game_mode
                      operation_type difficulty stats average_difficulty) in
  HighScoreManager.score
    (HighScoreManager.get_high_score self game_mode' operation_type' difficulty')
  <= HighScoreManager.score
       (HighScoreManager.get_high_score after game_mode' operation_type' difficulty')
  /\ (game_mode' <> game_mode
      \/ HighScoreManager.op_name operation_type'
         <> HighScoreManager.op_name operation_type
      \/ Z.min difficulty' 3
         <> (if 3 <? difficulty
             then match average_difficulty with Some a => a | None => 1 end
             else difficulty) ->
      HighScoreManager.get_high_score after game_mode' operation_type' difficulty'
      = HighScoreManager.get_high_score self game_mode' operation_type' difficulty').
Proof.
  intros after.
  destruct (HighScoreManager.is_mode game_mode) eqn:H.
  2:{ assert (E : after = self).
      { subst after. unfold HighScoreManager.update_high_score. now rewrite H. }
      rewrite E. split; [lia|reflexivity]. }
  destruct (HighScoreManager.is_mode game_mode') eqn:H'.
  2:{ unfold HighScoreManager.get_high_score. rewrite H'.
      split; [lia|reflexivity]. }
  destruct (update_high_score_buckets self now game_mode operation_type
              difficulty stats average_difficulty H) as (B & Fr).
  fold after in B, Fr.
  set (d0 := if 3 <? difficulty
             then match average_difficulty with Some a => a | None => 1 end
             else difficulty) in *.
  assert (Other : game_mode' <> game_mode
      \/ HighScoreManager.op_name operation_type'
         <> HighScoreManager.op_name operation_type
      \/ Z.min difficulty' 3 <> d0 ->
      HighScoreManager.get_high_score after game_mode' operation_type' difficulty'
      = HighScoreManager.get_high_score self game_mode' operation_type' difficulty').
  { intros N. rewrite !get_high_score_bucket by assumption.
    rewrite Fr; [reflexivity|assumption|].
    destruct N as [N | [N | N]]; auto.
    right; right. intros E. apply diff_key_inj in E. contradiction. }
  split; [|exact Other].
  destruct (String.eqb_spec game_mode' game_mode) as [-> | Ng];
    [|rewrite Other by auto; lia].
  destruct (String.eqb_spec (HighScoreManager.op_name operation_type')
              (HighScoreManager.op_name operation_type)) as [Eo | No];
    [|rewrite Other by auto; lia].
  destruct (Z.eq_dec (Z.min difficulty' 3) d0) as [Ed | Nd];
    [|rewrite Other by auto; lia].
  rewrite !get_high_score_bucket by assumption.
  rewrite Eo, Ed, B.
  destruct (Z.ltb_spec
              (HighScoreManager.score
                 match HighScoreManager.bucket self game_mode
                         (HighScoreManager.op_name operation_type)
                         (HighScoreManager.diff_key d0) with
                 | Some e => e
                 | None => HighScoreManager.zero_entry
                 end) (Stats.total_score stats));
    cbn [HighScoreManager.score]; lia.
Qed.

(** high_scores.py, [update_high_score] against [get_high_score]: a game
    recorded with a difficulty above 3 (the adaptive choice) and
    statistics without the key [average_difficulty] is filed under
    difficulty 1, while [get_high_score] with the same difficulty reads
    the bucket of difficulty 3: the entry it returns is the one from before
    the call, and the new best is the one of difficulty 1. *)
Theorem update_high_score_files_adaptive_under_1
    (self : HighScoreManager.t) (now game_mode : string)
    (operation_type difficulty : Z) (stats : Stats.t) :
  HighScoreManager.is_mode game_mode = true ->
  3 < difficulty ->
  let after := snd (HighScoreManager.update_high_score self now game_mode
                      operation_type difficulty stats None) in
  let prev := HighScoreManager.get_high_score self game_mode operation_type 1 in
  HighScoreManager.get_high_score after game_mode operation_type difficulty
  = HighScoreManager.get_high_score self game_mode operation_type difficulty
  /\ HighScoreManager.get_high_score after game_mode operation_type difficulty
     = HighScoreManager.get_high_score self game_mode operation_type 3
  /\ HighScoreManager.get_high_score after game_mode operation_type 1
     = (if HighScoreManager.score prev <? Stats.total_score stats
        then HighScoreManager.mk_entry (Stats.total_score stats) now
               (Stats.accuracy stats) (Stats.avg_time stats)
        else prev).
Proof.
  intros H Hd after prev.
  assert (D : (3 <? difficulty) = true) by (apply Z.ltb_lt; lia).
  destruct (update_high_score_buckets self now game_mode operation_type
              difficulty stats None H) as (B & Fr).
  rewrite D in B, Fr. fold after in B, Fr.
  assert (A3 : HighScoreManager.get_high_score after game_mode operation_type
                 difficulty
               = HighScoreManager.get_high_score self game_mode operation_type 3).
  { rewrite !get_high_score_bucket by assumption.
    rewrite (Z.min_r difficulty 3) by lia. change (Z.min 3 3) with 3.
    rewrite Fr; [reflexivity|assumption|].
    right; right. intros E. apply diff_key_inj in E. discriminate. }
  split; [|split; [exact A3|]].
  - rewrite A3. rewrite !get_high_score_bucket by assumption.
    now rewrite (Z.min_r difficulty 3) by lia.
  - subst prev. rewrite !get_high_score_bucket by assumption.
    change (Z.min 1 3) with 1. now rewrite B.
Qed.

Lemma update_high_score_files_adaptive_under_1_witness :
  let stats := Stats.mk 3 2 (PyFloat (Fin (200 # 3))) (PyFloat (Fin 2)) 320 in
  let after := snd (HighScoreManager.update_high_score
                      HighScoreManager.create_default_scores "2026-01-01 10:00"
                      "normal_mode" 1 4 stats None) in
  HighScoreManager.score
    (HighScoreManager.get_high_score after "normal_mode" 1 4) = 0
  /\ HighScoreManager.score
       (HighScoreManager.get_high_score after "normal_mode" 1 1) = 320.
Proof.
  intros stats after.
  destruct (update_high_score_files_adaptive_under_1
              HighScoreManager.create_default_scores "2026-01-01 10:00"
              "normal_mode" 1 4 stats) as (A & _ & B).
  - reflexivity.
  - lia.
  - fold after in A, B. rewrite A, B. split; reflexivity.
Defined.

(* ================================================================== *)
(** ** Rounding between integers *)
(* ================================================================== *)

Local Open Scope Q_scope.

(** A positive rational between two integers [A <= B < 2^53] rounds to a
    float between them: below [2^53] every integer is a double. *)
Lemma rnd_pos_between (neg : bool) (n d : positive) (A B : Z) :
  (0 <= A)%Z -> (B < 2 ^ 53)%Z ->
  inject_Z A <= Qpos_value n d -> Qpos_value n d <= inject_Z B ->
  exists m e : Z,
    rnd_pos neg n d = Fin (dyadic (if neg then (- m)%Z else m) e)
    /\ inject_Z A <= inject_Z m * 2 ^ e
    /\ inject_Z m * 2 ^ e <= inject_Z B.
Proof.
  intros HA HB HAx HxB.
  destruct (ilog2_spec n d) as [L1 L2].
  pose proof (Qpos_value_pos n d) as Hx.
  set (x := Qpos_value n d) in *. set (l := ilog2 n d) in *.
  assert (Hl : (l < 53)%Z).
  { apply two_pow_lt_inv. rewrite (two_pow_Z 53) by lia.
    apply Qle_lt_trans with x; [exact L1|].
    apply Qle_lt_trans with (inject_Z B); [exact HxB|].
    now rewrite <- Zlt_Qlt. }
  unfold rnd_pos. fold l.
  set (e := Z.max (l - 52) (-1074)).
  assert (He0 : (e <= 0)%Z) by lia. clearbody e.
  destruct (scale2_spec (Zpos n) (Zpos d) e ltac:(lia)) as [Hb Ha].
  destruct (scale2 (Zpos n) (Zpos d) e) as [a b]; simpl in Hb, Ha.
  fold (Qpos_value n d) in Ha. fold x in Ha.
  set (y := x * 2 ^ (- e)) in *.
  pose proof (two_pow_pos e) as Pe. pose proof (two_pow_pos (- e)) as Pe'.
  pose proof (two_pow_opp e) as Hinv.
  replace ((971 <? e)%Z || (e =? 971)%Z && (2 ^ 53 <=? rne a b)%Z) with false.
  2:{ symmetry. apply orb_false_iff. split.
      - apply Z.ltb_ge. lia.
      - apply andb_false_iff. left. apply Z.eqb_neq. lia. }
  exists (rne a b), e. split; [reflexivity|].
  assert (PZ : 2 ^ (- e) == inject_Z (2 ^ (- e))) by (apply two_pow_Z; lia).
  set (P := 2 ^ (- e)) in *. set (Pz := (2 ^ (- e))%Z) in *.
  set (E := 2 ^ e) in *.
  split.
  - assert (Hm : (A * Pz <= rne a b)%Z).
    { apply (rne_ge_Q a b _ y Hb Ha).
      rewrite inject_Z_mult, <- PZ. unfold y. nra. }
    rewrite Zle_Qle, inject_Z_mult, <- PZ in Hm.
    assert (T : inject_Z A * P * E <= inject_Z (rne a b) * E) by nra.
    assert (T' : inject_Z A * P * E == inject_Z A).
    { rewrite <- Qmult_assoc, (Qmult_comm P E), Hinv. ring. }
    lra.
  - assert (Hm : (rne a b <= B * Pz)%Z).
    { apply (rne_le_Q a b _ y Hb Ha).
      rewrite inject_Z_mult, <- PZ. unfold y. nra. }
    rewrite Zle_Qle, inject_Z_mult, <- PZ in Hm.
    assert (T : inject_Z (rne a b) * E <= inject_Z B * P * E) by nra.
    assert (T' : inject_Z B * P * E == inject_Z B).
    { rewrite <- Qmult_assoc, (Qmult_comm P E), Hinv. ring. }
    lra.
Qed.

Lemma rnd_between (x : Q) (A B : Z) :
  (0 <= A)%Z -> (B < 2 ^ 53)%Z -> inject_Z A <= x -> x <= inject_Z B ->
  exists q : Q, rnd x = Fin q /\ inject_Z A <= q /\ q <= inject_Z B.
Proof.
  intros HA HB HAx HxB.
  assert (H0 : 0 <= inject_Z A).
  { change 0 with (inject_Z 0). now rewrite <- Zle_Qle. }
  unfold rnd. destruct (Qnum x) as [|n|n] eqn:En.
  - assert (x == 0) by (destruct x as [xn xd]; simpl in En; subst xn; reflexivity).
    exists 0. split; [reflexivity|]. lra.
  - pose proof (Qpos_value_eq x n En) as Ev.
    destruct (rnd_pos_between false n (Qden x) A B HA HB) as (m & e & E & H1 & H2).
    + now rewrite Ev.
    + now rewrite Ev.
    + exists (dyadic m e). split; [exact E|]. now rewrite dyadic_spec.
  - pose proof (Qpos_value_opp x n En) as Ev.
    pose proof (Qpos_value_pos n (Qden x)) as Pv. lra.
Qed.

(** An integer of magnitude below [2^53] converts exactly. *)
Lemma rnd_int_exact (z : Z) :
  (0 <= z < 2 ^ 53)%Z ->
  exists q : Q, rnd (inject_Z z) = Fin q /\ q == inject_Z z.
Proof.
  intros Hz.
  destruct (rnd_between (inject_Z z) z z) as (q & E & H1 & H2);
    try lia; try apply Qle_refl.
  exists q. split; [exact E|]. lra.
Qed.

Local Open Scope Z_scope.

(* ================================================================== *)
(** ** Formatted ints as floats and fractions *)
(* ================================================================== *)

(** [str(z)]: an optional minus sign and the digits of [|z|]. *)
Lemma str_of_Z_shape (z : Z) :
  exists u : Decimal.uint,
    u <> Decimal.Nil /\ Z.of_uint u = Z.abs z
    /\ str_of_Z z = (if z <? 0 then String "-" (NilEmpty.string_of_uint u)
                     else NilEmpty.string_of_uint u).
Proof.
  unfold str_of_Z. destruct z as [|p|p]; simpl Z.to_int.
  - exists (Decimal.D0 Decimal.Nil). repeat split. discriminate.
  - exists (Pos.to_uint p). split; [apply DecimalPos.Unsigned.to_uint_nonnil|].
    split; [|reflexivity].
    unfold Z.of_uint. now rewrite DecimalPos.Unsigned.of_to.
  - exists (Pos.to_uint p). split; [apply DecimalPos.Unsigned.to_uint_nonnil|].
    split; [|reflexivity].
    unfold Z.of_uint. now rewrite DecimalPos.Unsigned.of_to.
Qed.

Lemma is_digit_plain (c : ascii) :
  is_digit c = true ->
  lower c = c /\ is_exp_mark c = false /\ is_dot c = false
  /\ Ascii.eqb c "i" = false /\ Ascii.eqb c "n" = false
  /\ Ascii.eqb c "-" = false /\ Ascii.eqb c "+" = false
  /\ Ascii.eqb c "/" = false /\ is_space c = false.
Proof.
  destruct c as [[|] [|] [|] [|] [|] [|] [|] [|]]; vm_compute;
    intros H; try discriminate H; repeat split.
Qed.

Lemma cut_none (p : ascii -> bool) (s : string) :
  string_forall (fun c => negb (p c)) s = true -> cut p s = (s, None).
Proof.
  induction s as [|c s IH]; cbn [cut string_forall]; [reflexivity|].
  intros H. apply andb_true_iff in H as [H1 H2].
  rewrite (IH H2). now destruct (p c).
Qed.


Lemma lower_string_digits (s : string) :
  string_forall is_digit s = true -> lower_string s = s.
Proof.
  induction s as [|c s IH]; cbn [lower_string string_forall]; [reflexivity|].
  intros H. apply andb_true_iff in H as [H1 H2].
  destruct (is_digit_plain c H1) as (-> & _). now rewrite (IH H2).
Qed.

(** [float] of a run of digits: the number, rounded. *)
Lemma py_float_body_digits (u : Decimal.uint) :
  u <> Decimal.Nil ->
  let s := NilEmpty.string_of_uint u in
  String.eqb (lower_string s) "inf" = false
  /\ String.eqb (lower_string s) "infinity" = false
  /\ String.eqb (lower_string s) "nan" = false
  /\ parse_decimal s = Some (inject_Z (Z.of_uint u)).
Proof.
  intros Hu s.
  pose proof (string_of_uint_digits u) as D. fold s in D.
  destruct (string_of_uint_head u Hu) as (c & r & E & Hc). fold s in E.
  destruct (is_digit_plain c Hc) as (_ & _ & _ & Hi & Hn & _).
  rewrite (lower_string_digits s D).
  assert (X : forall p : ascii -> bool,
             (forall c, is_digit c = true -> p c = false) ->
             cut p s = (s, None)).
  { intros p Hp. apply cut_none.
    apply (string_forall_impl is_digit); [|exact D].
    intros c0 H0. now rewrite (Hp c0 H0). }
  repeat split.
  - rewrite E. cbn [String.eqb]. now rewrite Hi.
  - rewrite E. cbn [String.eqb]. now rewrite Hi.
  - rewrite E. cbn [String.eqb]. now rewrite Hn.
  - unfold parse_decimal.
    rewrite (X is_exp_mark) by (intros c0 H0; apply (is_digit_plain c0 H0)).
    rewrite (X is_dot) by (intros c0 H0; apply (is_digit_plain c0 H0)).
    assert (Ds : digits_opt s = Some u).
    { unfold digits_opt. rewrite E, <- E. now apply digits_string_of_uint. }
    rewrite E, <- E, Ds. cbn [digits_opt Decimal.nb_digits Z.of_nat Z.opp].
    rewrite DecimalFacts.app_nil_r.
    unfold decimal_value. cbn [Z.leb Z.compare Z.pow Z.pow_pos Pos.iter].
    now rewrite Z.mul_1_r.
Qed.

Lemma py_float_str_of_Z (z : Z) :
  py_float (str_of_Z z)
  = Ok (if z <? 0 then fneg (rnd (inject_Z (Z.abs z)))
        else rnd (inject_Z (Z.abs z))).
Proof.
  destruct (str_of_Z_shape z) as (u & Hu & Ev & Es).
  destruct (py_float_body_digits u Hu) as (H1 & H2 & H3 & H4).
  unfold py_float. rewrite literal_of_str_of_Z, Es.
  destruct (z <? 0).
  - cbn [take_sign]. rewrite H1, H2, H3, H4, Ev. reflexivity.
  - rewrite take_sign_string_of_uint, H1, H2, H3, H4, Ev. reflexivity.
Qed.

Lemma Qred_inject_Z (z : Z) : Qred (inject_Z z) = inject_Z z.
Proof.
  unfold Qred, inject_Z.
  pose proof (Z.ggcd_gcd z 1) as G.
  pose proof (Z.ggcd_correct_divisors z 1) as C.
  destruct (Z.ggcd z 1) as [g [aa bb]]. cbn [fst snd] in *.
  rewrite Z.gcd_1_r in G. subst g. destruct C as [C1 C2].
  rewrite Z.mul_1_l in C1, C2. subst. reflexivity.
Qed.

(** [Fraction(float(str(z)))] is [z/1] for an int of magnitude below
    [2^53]. *)
Lemma Fraction_of_float_str_of_Z (z : Z) :
  Z.abs z < 2 ^ 53 ->
  exists x : float,
    py_float (str_of_Z z) = Ok x
    /\ Fraction_of_float x = Ok (mkFraction z 1).
Proof.
  intros Hz.
  destruct (rnd_int_exact (Z.abs z)) as (q & Eq & Hq); [lia|].
  rewrite py_float_str_of_Z, Eq.
  eexists. split; [reflexivity|].
  destruct (Z.ltb_spec z 0) as [N|N]; cbn [fneg Fraction_of_float].
  - assert (E : (- q == inject_Z z)%Q).
    { rewrite Hq. rewrite <- inject_Z_opp. now replace (- Z.abs z) with z by lia. }
    rewrite (Qred_complete _ _ E), Qred_inject_Z. reflexivity.
  - assert (E : (q == inject_Z z)%Q).
    { rewrite Hq. now replace (Z.abs z) with z by lia. }
    rewrite (Qred_complete _ _ E), Qred_inject_Z. reflexivity.
Qed.

(* ================================================================== *)
(** ** Fractions in lowest terms *)
(* ================================================================== *)




(* ================================================================== *)
(** ** The comparator on formatted ints and fractions *)
(* ================================================================== *)

Lemma contains_none (s : string) :
  string_forall (fun c => negb (Ascii.eqb c "/")) s = true ->
  contains "/" s = false.
Proof.
  induction s as [|c s IH]; cbn [contains string_forall]; [reflexivity|].
  intros H. apply andb_true_iff in H as [H1 H2].
  rewrite (IH H2). now destruct (Ascii.eqb c "/").
Qed.

Lemma strip_str_of_Z (z : Z) : strip (str_of_Z z) = str_of_Z z.
Proof.
  assert (H : string_forall (fun c => negb (is_space c)) (str_of_Z z) = true).
  { apply (string_forall_impl is_int_char); [|apply str_of_Z_chars].
    intros c Hc. destruct (is_int_char_plain c Hc) as (-> & _). reflexivity. }
  unfold strip. rewrite (lstrip_of_id _ _ H). now apply rstrip_of_id.
Qed.


Lemma digits_unfold (c c' : ascii) (r : string) :
  digits (String c (String c' r))
  = match (if Ascii.eqb c' "_" then digits r else digits (String c' r)) with
    | Some u => digit_cons c u
    | None => None
    end.
Proof.
  destruct c' as [[|] [|] [|] [|] [|] [|] [|] [|]]; reflexivity.
Qed.











Lemma contains_str_of_Z (z : Z) : contains "/" (str_of_Z z) = false.
Proof. apply contains_none, str_of_Z_no_slash. Qed.

Lemma any_format_Fraction_str_of_Z (z : Z) :
  Z.abs z < 2 ^ 53 ->
  any_format_Fraction (str_of_Z z) = Ok (mkFraction z 1).
Proof.
  intros Hz. unfold any_format_Fraction. rewrite contains_str_of_Z.
  destruct (Fraction_of_float_str_of_Z z Hz) as (x & -> & E). exact E.
Qed.



(** The verdict on two ints. *)
Lemma verdict_on_ints (a b : Z) :
  Z.abs a < 2 ^ 53 -> Z.abs b < 2 ^ 53 ->
  check_answer (Some (str_of_Z a)) (str_of_Z b) = Ok (a =? b).
Proof.
  intros Ha Hb. unfold check_answer. rewrite !strip_str_of_Z.
  destruct (String.eqb_spec (str_of_Z a) (str_of_Z b)) as [E|N].
  - apply str_of_Z_inj in E. subst. now rewrite Z.eqb_refl.
  - unfold comparison_body, fraction_block.
    rewrite !contains_str_of_Z. cbn [andb bind].
    rewrite (numeric_block_exact _ _ _ _
               (any_format_Fraction_str_of_Z a Ha)
               (any_format_Fraction_str_of_Z b Hb)).
    cbn [bind try_except_Exception]. unfold Fraction_eqb.
    cbn [numerator denominator]. now rewrite Z.eqb_refl, andb_true_r.
Qed.

(** game.py, [check_answer] on two ints as [str] prints them, both of
    magnitude below [2^53]: the verdict is their equality.  (The values are
    compared as floats turned into fractions, which is exact in this
    range.) *)
Theorem check_answer_on_ints (a b : Z) :
  Z.abs a < 2 ^ 53 -> Z.abs b < 2 ^ 53 ->
  check_answer (Some (str_of_Z a)) (str_of_Z b) = Ok (a =? b).
Proof. exact (verdict_on_ints a b). Qed.

Lemma check_answer_on_ints_witness :
  check_answer (Some "-12") "-12" = Ok true
  /\ check_answer (Some "7") "12" = Ok false.
Proof.
  split.
  - apply (check_answer_on_ints (-12) (-12)); reflexivity.
  - apply (check_answer_on_ints 7 12); reflexivity.
Defined.




(* ================================================================== *)
(** ** Bounds on the score *)
(* ================================================================== *)

Local Open Scope Q_scope.

Lemma between_rnd (x : Q) (A B : Z) :
  (0 <= A)%Z -> (B < 2 ^ 53)%Z -> inject_Z A <= x -> x <= inject_Z B ->
  between A B (rnd x).
Proof.
  intros HA HB H1 H2.
  destruct (rnd_between x A B HA HB H1 H2) as (q & E & H). now exists q.
Qed.

Lemma between_weaken (A B A' B' : Z) (x : float) :
  between A B x -> (A' <= A)%Z -> (B <= B')%Z -> between A' B' x.
Proof.
  intros (q & -> & H1 & H2) HA HB. exists q. split; [reflexivity|].
  rewrite Zle_Qle in HA, HB. split; lra.
Qed.

Lemma Qeq0_true (q : Q) : Qeq0 q = true -> q == 0.
Proof.
  unfold Qeq0. intros E. apply Z.eqb_eq in E.
  destruct q as [n d]. simpl in E. subst n. reflexivity.
Qed.

Lemma fadd_between (A B C D : Z) (x y : float) :
  between A B x -> between C D y ->
  (0 <= A)%Z -> (0 <= C)%Z -> (B + D < 2 ^ 53)%Z ->
  between (A + C) (B + D) (fadd x y).
Proof.
  intros (a & -> & A1 & A2) (b & -> & B1 & B2) HA HC HB.
  assert (HA' : 0 <= inject_Z A) by (change 0 with (inject_Z 0); now rewrite <- Zle_Qle).
  assert (HC' : 0 <= inject_Z C) by (change 0 with (inject_Z 0); now rewrite <- Zle_Qle).
  cbn [fadd].
  destruct (Qeq0 b) eqn:Eb.
  - apply Qeq0_true in Eb. exists a. split; [reflexivity|].
    rewrite !inject_Z_plus. split; lra.
  - destruct (Qeq0 a) eqn:Ea.
    + apply Qeq0_true in Ea. exists b. split; [reflexivity|].
      rewrite !inject_Z_plus. split; lra.
    + apply between_rnd; [lia|lia| |]; rewrite inject_Z_plus; lra.
Qed.

Lemma fmul_between (A B C D : Z) (x y : float) :
  between A B x -> between C D y ->
  (0 <= A)%Z -> (0 <= C)%Z -> (B * D < 2 ^ 53)%Z ->
  between (A * C) (B * D) (fmul x y).
Proof.
  intros (a & -> & A1 & A2) (b & -> & B1 & B2) HA HC HB.
  assert (HA' : 0 <= inject_Z A) by (change 0 with (inject_Z 0); now rewrite <- Zle_Qle).
  assert (HC' : 0 <= inject_Z C) by (change 0 with (inject_Z 0); now rewrite <- Zle_Qle).
  cbn [fmul].
  apply between_rnd; [nia|lia| |]; rewrite inject_Z_mult; nra.
Qed.

Lemma float_of_Z_between (z : Z) :
  (0 <= z < 2 ^ 53)%Z ->
  exists x, float_of_Z z = Ok x /\ between z z x.
Proof.
  intros Hz. unfold float_of_Z.
  destruct (rnd_between (inject_Z z) z z) as (q & E & H1 & H2);
    try lia; try apply Qle_refl.
  rewrite E. exists (Fin q). split; [reflexivity|]. now exists q.
Qed.

Lemma to_float_between (A B : Z) (n : number) :
  num_between A B n -> (0 <= A)%Z -> (B < 2 ^ 53)%Z ->
  exists x, to_float n = Ok x /\ between A B x.
Proof.
  destruct n as [z|x]; cbn [num_between to_float]; intros H HA HB.
  - destruct (float_of_Z_between z ltac:(lia)) as (x & E & Hx).
    exists x. split; [exact E|]. apply (between_weaken z z); [exact Hx|lia|lia].
  - now exists x.
Qed.

Lemma num_add_between (A B C D : Z) (n m : number) :
  num_between A B n -> num_between C D m ->
  (0 <= A)%Z -> (0 <= C)%Z -> (B + D < 2 ^ 53)%Z ->
  exists r, num_add n m = Ok r /\ num_between (A + C) (B + D) r.
Proof.
  intros Hn Hm HA HC HB.
  assert (HD : (C <= D)%Z).
  { destruct m as [z|y]; cbn [num_between] in Hm; [lia|].
    destruct Hm as (q & _ & H1 & H2). rewrite Zle_Qle. lra. }
  assert (HB' : (A <= B)%Z).
  { destruct n as [z|y]; cbn [num_between] in Hn; [lia|].
    destruct Hn as (q & _ & H1 & H2). rewrite Zle_Qle. lra. }
  destruct (to_float_between A B n Hn HA ltac:(lia)) as (x & Ex & Hx).
  destruct (to_float_between C D m Hm HC ltac:(lia)) as (y & Ey & Hy).
  pose proof (fadd_between A B C D x y Hx Hy HA HC HB) as F.
  destruct n as [z|x0], m as [w|y0]; cbn [num_add];
    try (rewrite Ex, Ey; cbn [bind]; eexists; split; [reflexivity|exact F]).
  cbn [num_between] in *. eexists. split; [reflexivity|]. cbn [num_between]. lia.
Qed.

Lemma num_mul_between (A B C D : Z) (n m : number) :
  num_between A B n -> num_between C D m ->
  (0 <= A)%Z -> (0 <= C)%Z -> (B * D < 2 ^ 53)%Z -> (B < 2 ^ 53)%Z ->
  (D < 2 ^ 53)%Z ->
  exists r, num_mul n m = Ok r /\ num_between (A * C) (B * D) r.
Proof.
  intros Hn Hm HA HC HB HB1 HD1.
  destruct (to_float_between A B n Hn HA HB1) as (x & Ex & Hx).
  destruct (to_float_between C D m Hm HC HD1) as (y & Ey & Hy).
  pose proof (fmul_between A B C D x y Hx Hy HA HC HB) as F.
  destruct n as [z|x0], m as [w|y0]; cbn [num_mul];
    try (rewrite Ex, Ey; cbn [bind]; eexists; split; [reflexivity|exact F]).
  cbn [num_between] in *. eexists. split; [reflexivity|]. cbn [num_between]. nia.
Qed.

Lemma int_of_number_between (A B : Z) (n : number) :
  num_between A B n -> (0 <= A)%Z ->
  exists z, int_of_number n = Ok z /\ (A <= z <= B)%Z.
Proof.
  destruct n as [z|x]; cbn [num_between int_of_number]; intros H HA.
  - now exists z.
  - destruct H as (q & -> & H1 & H2). cbn [int_of_float].
    eexists. split; [reflexivity|].
    destruct q as [n d]. cbn [Qnum Qden].
    unfold Qle in H1, H2. cbn [Qnum Qden inject_Z] in H1, H2.
    rewrite Z.mul_1_r in H1, H2.
    assert (N : (0 <= n)%Z) by nia.
    rewrite Z.quot_div_nonneg by lia.
    split.
    + apply Z.div_le_lower_bound; lia.
    + apply Z.div_le_upper_bound; lia.
Qed.

Local Open Scope Z_scope.

Lemma base_between (d : Z) :
  1 <= d <= 3 ->
  exists (mult base : number),
    getitem POINTS_DIFFICULTY_MULTIPLIER (d - 1) = Ok mult
    /\ num_mul (PyInt POINTS_BASE) mult = Ok base
    /\ num_between (base_points d) (base_points d) base.
Proof.
  intros Hd. assert (C : d = 1 \/ d = 2 \/ d = 3) by lia.
  destruct C as [-> | [-> | ->]].
  - exists (PyInt 1), (PyInt 100). repeat split; discriminate.
  - exists (PyFloat (Fin (3 # 2))), (PyFloat (Fin (inject_Z 150))).
    repeat split. exists (inject_Z 150). repeat split; discriminate.
  - exists (PyFloat (Fin (5 # 2))), (PyFloat (Fin (inject_Z 250))).
    repeat split. exists (inject_Z 250). repeat split; discriminate.
Qed.

Lemma speed_between (base : number) (bp : Z) (t : Q) :
  num_between bp bp base -> 0 <= bp <= 250 -> (0 <= t)%Q ->
  exists n : number,
    (if flt (Fin t) POINTS_SPEED_BONUS_THRESHOLD then
       ratio <- fdiv (fsub POINTS_SPEED_BONUS_THRESHOLD (Fin t))
                     POINTS_SPEED_BONUS_THRESHOLD ;;
       bonus <- num_mul (PyInt POINTS_SPEED_BONUS) (max_0 ratio) ;;
       num_add base bonus
     else Ok base) = Ok n
    /\ num_between bp (bp + (if Qltb t 5 then 50 else 0)) n.
Proof.
  intros Hb Hbp Ht. unfold POINTS_SPEED_BONUS_THRESHOLD, POINTS_SPEED_BONUS.
  cbn [flt]. destruct (Qltb t 5) eqn:Hlt.
  2:{ exists base. split; [reflexivity|]. now rewrite Z.add_0_r. }
  apply Qltb_spec in Hlt.
  assert (S : between 0 5 (fsub (Fin 5) (Fin t))).
  { unfold fsub. cbn [fneg fadd].
    destruct (Qeq0 (- t)).
    - exists 5%Q. repeat split; discriminate.
    - change (Qeq0 5) with false. cbv iota.
      apply between_rnd; [lia|reflexivity| |];
        change (inject_Z 0) with 0%Q; change (inject_Z 5) with 5%Q; lra. }
  destruct S as (a & Ea & A1 & A2). rewrite Ea.
  change (inject_Z 0) with 0%Q in A1. change (inject_Z 5) with 5%Q in A2.
  unfold fdiv. change (Qeq0 5) with false. cbv iota. cbn [bind].
  assert (R : between 0 1 (rnd (a / 5))).
  { apply between_rnd; [lia|reflexivity| |];
      change (inject_Z 0) with 0%Q; change (inject_Z 1) with 1%Q.
    - apply Qle_shift_div_l; lra.
    - apply Qle_shift_div_r; lra. }
  assert (M : num_between 0 1 (max_0 (rnd (a / 5)))).
  { unfold max_0. destruct (flt (Fin 0) (rnd (a / 5))); [exact R|].
    cbn [num_between]. lia. }
  destruct (num_mul_between 50 50 0 1 (PyInt 50) _ ltac:(cbn; lia) M)
    as (bonus & Eb & Hbonus); try lia; try reflexivity.
  rewrite Eb. cbn [bind].
  destruct (num_add_between bp bp 0 50 base bonus Hb) as (n & En & Hn);
    try lia.
  { exact Hbonus. }
  exists n. split; [exact En|]. now rewrite Z.add_0_r in Hn.
Qed.

Lemma streak_between (n : number) (s L U : Z) :
  num_between L U n -> 0 <= L -> U <= 300 -> 0 <= s < 2 ^ 40 ->
  exists n' : number,
    (if STREAK_BONUS_THRESHOLD <=? s then
       steps <- num_mul (PyInt (s - STREAK_BONUS_THRESHOLD)) (PyFloat lit_0_1) ;;
       growth <- num_add (PyInt 1) steps ;;
       bonus <- num_mul (PyInt STREAK_BONUS) growth ;;
       num_add n bonus
     else Ok n) = Ok n'
    /\ num_between (L + (if 3 <=? s then 25 else 0))
                   (U + (if 3 <=? s then 25 * (s - 2) else 0)) n'.
Proof.
  intros Hn HL HU Hs. unfold STREAK_BONUS_THRESHOLD, STREAK_BONUS.
  destruct (Z.leb_spec 3 s) as [H3|H3].
  2:{ exists n. split; [reflexivity|]. now rewrite !Z.add_0_r. }
  assert (P40 : 2 ^ 40 = 1099511627776) by reflexivity.
  assert (P53 : 2 ^ 53 = 9007199254740992) by reflexivity.
  assert (Lit : num_between 0 1 (PyFloat lit_0_1)).
  { eexists. split; [reflexivity|]. split; discriminate. }
  destruct (num_mul_between (s - 3) (s - 3) 0 1 (PyInt (s - 3)) _
              ltac:(cbn; lia) Lit) as (steps & E1 & H1); try lia.
  rewrite E1. cbn [bind].
  destruct (num_add_between 1 1 (( s - 3) * 0) ((s - 3) * 1) (PyInt 1) steps
              ltac:(cbn; lia) H1) as (growth & E2 & H2); try lia.
  rewrite E2. cbn [bind].
  destruct (num_mul_between 25 25 _ _ (PyInt 25) growth
              ltac:(cbn; lia) H2) as (bonus & E3 & H3'); try lia.
  rewrite E3. cbn [bind].
  destruct (num_add_between L U _ _ n bonus Hn H3') as (n' & E4 & H4); try lia.
  exists n'. split; [exact E4|].
  replace (L + 25) with (L + 25 * (1 + (s - 3) * 0)) by lia.
  replace (U + 25 * (s - 2)) with (U + 25 * (1 + (s - 3) * 1)) by lia.
  exact H4.
Qed.

(** game.py, [calculate_score]: a correct answer given after a
    non-negative time, at a difficulty in 1..3 and with a streak counter
    below [2^40], scores at least the base points of the level (100, 150,
    250), and at least 25 more once the streak counter has reached 3;
    without streak bonus it scores at most 50 above the base, and exactly
    the base when the answer took 5 seconds or more. *)
Theorem calculate_score_bounds (self : MathGame) (t : Q) :
  1 <= difficulty self <= 3 ->
  0 <= streak_count self < 2 ^ 40 ->
  (0 <= t)%Q ->
  exists sc : Z,
    calculate_score self true (Fin t) = Ok sc
    /\ base_points (difficulty self)
       + (if 3 <=? streak_count self then 25 else 0) <= sc
    /\ (streak_count self < 3 -> sc <= base_points (difficulty self) + 50)
    /\ (streak_count self < 3 -> (5 <= t)%Q ->
        sc = base_points (difficulty self)).
Proof.
  intros Hd Hs Ht. unfold calculate_score. cbn [negb].
  destruct (base_between (difficulty self) Hd) as (mult & base & E1 & E2 & Hb).
  rewrite E1. cbn [bind]. rewrite E2. cbn [bind].
  assert (Hbp : 0 <= base_points (difficulty self) <= 250).
  { unfold base_points. destruct (_ =? 1); [lia|]. destruct (_ =? 2); lia. }
  destruct (speed_between base _ t Hb Hbp Ht) as (n1 & C1 & H1).
  rewrite C1. cbn [bind].
  assert (U1 : base_points (difficulty self) + (if Qltb t 5 then 50 else 0) <= 300)
    by (destruct (Qltb t 5); lia).
  destruct (streak_between n1 (streak_count self) _ _ H1 ltac:(lia) U1 Hs)
    as (n2 & C2 & H2).
  rewrite C2. cbn [bind].
  destruct (int_of_number_between _ _ n2 H2) as (sc & E & Hsc).
  { destruct (3 <=? streak_count self); lia. }
  exists sc. split; [exact E|]. split; [lia|]. split.
  - intros S3. replace (3 <=? streak_count self) with false in Hsc
      by (symmetry; apply Z.leb_gt; lia).
    destruct (Qltb t 5); lia.
  - intros S3 T5. replace (3 <=? streak_count self) with false in Hsc
      by (symmetry; apply Z.leb_gt; lia).
    destruct (Qltb t 5) eqn:L; [|lia].
    apply Qltb_spec in L. exfalso. apply (Qlt_not_le _ _ L). exact T5.
Qed.

Lemma calculate_score_bounds_witness :
  exists sc : Z,
    calculate_score (session 2 4) true (Fin (9 # 2)) = Ok sc
    /\ 150 + 25 <= sc
    /\ (4 < 3 -> sc <= 150 + 50)
    /\ (4 < 3 -> (5 <= 9 # 2)%Q -> sc = 150).
Proof.
  apply (calculate_score_bounds (session 2 4) (9 # 2)).
  - cbn. lia.
  - cbn. lia.
  - discriminate.
Defined.

(* ================================================================== *)
(** ** cli.py: the answers the prompt lets through *)
(* ================================================================== *)

Lemma lstrip_of_head (p : ascii -> bool) (s : string) :
  match lstrip_of p s with
  | EmptyString => True
  | String c _ => p c = false
  end.
Proof.
  induction s as [|c s IH]; cbn [lstrip_of]; [exact I|].
  destruct (p c) eqn:E; [exact IH|exact E].
Qed.

Lemma rstrip_of_idem (p : ascii -> bool) (s : string) :
  rstrip_of p (rstrip_of p s) = rstrip_of p s.
Proof.
  induction s as [|c s IH]; cbn [rstrip_of]; [reflexivity|].
  destruct (rstrip_of p s) as [|c' r] eqn:E.
  - destruct (p c) eqn:Ec; cbn [rstrip_of]; [reflexivity|]. now rewrite Ec.
  - cbn [rstrip_of]. cbn [rstrip_of] in IH.
    destruct (rstrip_of p r) as [|c'' r'] eqn:E'.
    + destruct (p c') eqn:Ec'; [discriminate IH|]. congruence.
    + now rewrite IH.
Qed.

Lemma rstrip_of_head (p : ascii -> bool) (c : ascii) (s : string) :
  p c = false -> exists r, rstrip_of p (String c s) = String c r.
Proof.
  intros Hc. cbn [rstrip_of]. destruct (rstrip_of p s).
  - rewrite Hc. now eexists.
  - now eexists.
Qed.

Lemma strip_idem (s : string) : strip (strip s) = strip s.
Proof.
  unfold strip.
  pose proof (lstrip_of_head is_space s) as H.
  destruct (lstrip_of is_space s) as [|c r] eqn:E; [reflexivity|].
  destruct (rstrip_of_head is_space c r H) as (r' & Er).
  rewrite Er. cbn [lstrip_of]. rewrite H, <- Er. apply rstrip_of_idem.
Qed.

Lemma py_int_raises (s : string) (e : exn) :
  py_int s = Raise e -> e = ValueError.
Proof.
  unfold py_int. destruct (take_sign _) as [neg body].
  destruct (digits body); [discriminate|]. now intros [= <-].
Qed.

Lemma py_float_raises (s : string) (e : exn) :
  py_float s = Raise e -> e = ValueError.
Proof.
  unfold py_float. destruct (take_sign _) as [neg body].
  destruct (_ || _); [discriminate|]. destruct (String.eqb _ _); [discriminate|].
  destruct (parse_decimal body); [discriminate|]. now intros [= <-].
Qed.

(** One line: no exception, and an answer let through is valid. *)
Lemma get_answer_body_valid (allow_float : bool) (line : string) :
  exists (r : option string) (out : list string),
    get_answer_body allow_float line = Ok (r, out)
    /\ match r with
       | Some a => a = strip line /\ valid_answer allow_float a /\ out = []
       | None => List.length out = 1%nat
       end.
Proof.
  unfold get_answer_body, valid_answer.
  destruct (String.eqb_spec (strip line) "") as [E|N].
  { eexists None, _. split; reflexivity. }
  destruct (contains "/" (strip line)) eqn:C.
  - destruct (split "/" (strip line)) as [|p0 [|p1 [|p2 l]]] eqn:S;
      cbn [List.length Nat.eqb negb];
      try (eexists None, _; split; reflexivity).
    rewrite getitem_pair_0, getitem_pair_1. cbn [bind].
    destruct (py_int p0) as [n|e] eqn:E0; cbn [bind].
    2:{ rewrite (py_int_raises _ _ E0). eexists None, _. split; reflexivity. }
    destruct (py_int p1) as [m|e] eqn:E1; cbn [bind].
    2:{ rewrite (py_int_raises _ _ E1). eexists None, _. split; reflexivity. }
    destruct (Z.eqb_spec m 0) as [->|Hm].
    + eexists None, _. split; reflexivity.
    + eexists (Some _), _. split; [reflexivity|]. split; [reflexivity|].
      split; [|reflexivity]. split; [exact N|]. split; [apply strip_idem|].
      rewrite C. exists p0, p1, n, m. now rewrite S.
  - destruct allow_float.
    + destruct (py_float (strip line)) as [x|e] eqn:E; cbn [bind].
      * eexists (Some _), _. split; [reflexivity|]. split; [reflexivity|].
        split; [|reflexivity]. split; [exact N|]. split; [apply strip_idem|].
        rewrite C. now exists x.
      * rewrite (py_float_raises _ _ E). eexists None, _. split; reflexivity.
    + destruct (py_int (strip line)) as [z|e] eqn:E; cbn [bind].
      * eexists (Some _), _. split; [reflexivity|]. split; [reflexivity|].
        split; [|reflexivity]. split; [exact N|]. split; [apply strip_idem|].
        rewrite C. now exists z.
      * rewrite (py_int_raises _ _ E). eexists None, _. split; reflexivity.
Qed.

(** The loop: it raises nothing; an answer it returns is a validated,
    trimmed line of the input; it gives up only at an interrupt or at the
    end of the input. *)
Lemma get_answer_loop_valid (allow_float : bool) (inputs : list keyboard) :
  exists (r : option string) (out : list string) (rest : list keyboard),
    get_answer_loop allow_float inputs = (Ok r, out, rest)
    /\ match r with
       | Some a =>
           valid_answer allow_float a
           /\ exists (before : list keyboard) (l : string),
                inputs = (before ++ Line l :: rest)%list /\ a = strip l
                /\ List.length out = List.length before
                /\ Forall (fun k => exists l', k = Line l'
                             /\ exists o, get_answer_body allow_float l'
                                          = Ok (None, o)) before
       | None =>
           (rest = [] /\ List.length out = List.length inputs)
           \/ exists before,
                inputs = (before ++ Interrupted :: rest)%list
                /\ List.length out = List.length before
       end.
Proof.
  induction inputs as [|k inputs IH]; cbn [get_answer_loop].
  - exists None, [], []. split; [reflexivity|]. left. split; reflexivity.
  - destruct k as [l|].
    2:{ exists None, [], inputs. split; [reflexivity|]. right. now exists []. }
    destruct (get_answer_body_valid allow_float l) as (r & out & E & H).
    rewrite E. destruct r as [a|].
    + destruct H as (Ha & V & ->).
      exists (Some a), [], inputs. split; [reflexivity|]. split; [exact V|].
      exists [], l. repeat split; auto.
    + destruct IH as (r' & out' & rest' & E' & H').
      rewrite E'. exists r', (out ++ out')%list, rest'. split; [reflexivity|].
      destruct r' as [a|].
      * destruct H' as (V & before & l' & Ei & Ea & Hl & Hf).
        split; [exact V|]. exists (Line l :: before), l'.
        rewrite Ei. split; [reflexivity|]. split; [exact Ea|]. split.
        { rewrite length_app, H, Hl. reflexivity. }
        constructor; [|exact Hf]. exists l. split; [reflexivity|]. now exists out.
      * destruct H' as [(-> & Hl)|(before & Ei & Hl)].
        { left. split; [reflexivity|]. rewrite length_app, H, Hl. reflexivity. }
        { right. exists (Line l :: before). rewrite Ei. split; [reflexivity|].
          rewrite length_app, H, Hl. reflexivity. }
Qed.

(** game.py against cli.py, [get_answer]: whatever is typed, [get_answer]
    raises nothing.  An answer it returns is a line of the input, trimmed,
    not empty and valid: with a slash it consists of two int literals with
    a non-zero denominator, without one it is a float literal for a
    question with a slash, a dot or a division sign and an int literal for
    any other question; every line before it was refused with one line of
    explanation each.  It returns [None] only at an interrupt or at the
    end of the input. *)
Theorem get_answer_returns_a_valid_answer
    (question' : string) (inputs : list keyboard) :
  exists (r : option string) (out : list string) (rest : list keyboard),
    get_answer question' inputs = (Ok r, out, rest)
    /\ match r with
       | Some a =>
           valid_answer (allow_float_for question') a
           /\ exists (before : list keyboard) (l : string),
                inputs = (before ++ Line l :: rest)%list /\ a = strip l
                /\ List.length out = S (List.length before)
                /\ Forall (fun k => exists l', k = Line l'
                             /\ exists o,
                                  get_answer_body (allow_float_for question') l'
                                  = Ok (None, o)) before
       | None =>
           (rest = [] /\ List.length out = S (List.length inputs))
           \/ exists before,
                inputs = (before ++ Interrupted :: rest)%list
                /\ List.length out = S (List.length before)
       end.
Proof.
  unfold get_answer.
  destruct (get_answer_loop_valid (allow_float_for question') inputs)
    as (r & out & rest & E & H).
  rewrite E. exists r, (("Calculate: " ++ question') :: out), rest.
  split; [reflexivity|].
  destruct r as [a|].
  - destruct H as (V & before & l & Ei & Ea & Hl & Hf).
    split; [exact V|]. exists before, l. cbn [List.length]. auto.
  - destruct H as [(-> & Hl)|(before & Ei & Hl)].
    + left. cbn [List.length]. auto.
    + right. exists before. cbn [List.length]. auto.
Qed.

Lemma digit_cons_some (c : ascii) (v u : Decimal.uint) :
  digit_cons c v = Some u -> is_digit c = true.
Proof.
  destruct c as [[|] [|] [|] [|] [|] [|] [|] [|]];
    intros H; try discriminate H; reflexivity.
Qed.

(** A string [digits] accepts starts with a digit and consists of digits
    and underscores. *)
Lemma digits_chars (n : nat) :
  forall (s : string) (u : Decimal.uint),
    (String.length s <= n)%nat -> digits s = Some u ->
    string_forall (fun c => is_digit c || Ascii.eqb c "_") s = true
    /\ exists c r, s = String c r /\ is_digit c = true.
Proof.
  induction n as [|n IH]; intros s u Hn Hs.
  - destruct s; [discriminate Hs|cbn in Hn; lia].
  - destruct s as [|c r]; [discriminate Hs|].
    destruct r as [|c' r'].
    + cbn [digits] in Hs. pose proof (digit_cons_some _ _ _ Hs) as Hc.
      split; [|now exists c, ""%string].
      cbn [string_forall]. now rewrite Hc.
    + rewrite digits_unfold in Hs.
      destruct (Ascii.eqb c' "_") eqn:Eu.
      * destruct (digits r') as [u'|] eqn:E'; [|discriminate Hs].
        pose proof (digit_cons_some _ _ _ Hs) as Hc.
        destruct (IH r' u' ltac:(cbn in Hn; lia) E') as (F & _).
        split; [|now exists c, (String c' r')].
        cbn [string_forall]. now rewrite Hc, Eu, F, orb_true_r.
      * destruct (digits (String c' r')) as [u'|] eqn:E'; [|discriminate Hs].
        pose proof (digit_cons_some _ _ _ Hs) as Hc.
        destruct (IH (String c' r') u' ltac:(cbn in Hn; cbn; lia) E') as (F & _).
        split; [|now exists c, (String c' r')].
        cbn [string_forall] in *. now rewrite Hc, F.
Qed.

Lemma digit_or_underscore_plain (c : ascii) :
  is_digit c || Ascii.eqb c "_" = true ->
  lower c = c /\ is_exp_mark c = false /\ is_dot c = false.
Proof.
  destruct c as [[|] [|] [|] [|] [|] [|] [|] [|]]; vm_compute;
    intros H; try discriminate H; repeat split.
Qed.

(** [float] of the body of an int literal. *)
Lemma py_float_body_literal (body : string) (u : Decimal.uint) :
  digits body = Some u ->
  String.eqb (lower_string body) "inf" = false
  /\ String.eqb (lower_string body) "infinity" = false
  /\ String.eqb (lower_string body) "nan" = false
  /\ parse_decimal body = Some (inject_Z (Z.of_uint u)).
Proof.
  intros Hd.
  destruct (digits_chars _ body u (Nat.le_refl _) Hd) as (F & c & r & E & Hc).
  destruct (is_digit_plain c Hc) as (_ & _ & _ & Hi & Hn & _).
  assert (L : lower_string body = body).
  { clear -F. induction body as [|x s IH]; [reflexivity|].
    cbn [string_forall lower_string] in *.
    apply andb_true_iff in F as [F1 F2].
    destruct (digit_or_underscore_plain x F1) as (-> & _). now rewrite IH. }
  assert (X : forall p : ascii -> bool,
             (forall x, is_digit x || Ascii.eqb x "_" = true -> p x = false) ->
             cut p body = (body, None)).
  { intros p Hp. apply cut_none.
    apply (string_forall_impl (fun c => is_digit c || Ascii.eqb c "_"));
      [|exact F].
    intros x Hx. now rewrite (Hp x Hx). }
  rewrite L. repeat split.
  - rewrite E. cbn [String.eqb]. now rewrite Hi.
  - rewrite E. cbn [String.eqb]. now rewrite Hi.
  - rewrite E. cbn [String.eqb]. now rewrite Hn.
  - unfold parse_decimal.
    rewrite (X is_exp_mark) by (intros x Hx; apply (digit_or_underscore_plain x Hx)).
    rewrite (X is_dot) by (intros x Hx; apply (digit_or_underscore_plain x Hx)).
    assert (Ds : digits_opt body = Some u).
    { unfold digits_opt. rewrite E, <- E. exact Hd. }
    rewrite E, <- E, Ds. cbn [digits_opt Decimal.nb_digits Z.of_nat Z.opp].
    rewrite DecimalFacts.app_nil_r.
    unfold decimal_value. cbn [Z.leb Z.compare Z.pow Z.pow_pos Pos.iter].
    now rewrite Z.mul_1_r.
Qed.

Lemma of_uint_nonneg (u : Decimal.uint) : 0 <= Z.of_uint u.
Proof. unfold Z.of_uint. apply N2Z.is_nonneg. Qed.

(** An int literal read as a float and turned into a fraction is the int,
    below [2^53]. *)
Lemma any_format_Fraction_int_literal (s : string) (z : Z) :
  py_int s = Ok z -> contains "/" s = false -> Z.abs z < 2 ^ 53 ->
  any_format_Fraction s = Ok (mkFraction z 1).
Proof.
  intros Hi Hc Hz. unfold any_format_Fraction. rewrite Hc.
  unfold py_int in Hi. unfold py_float.
  destruct (take_sign (literal_of s)) as [neg body].
  destruct (digits body) as [u|] eqn:Hd; [|discriminate Hi].
  destruct (py_float_body_literal body u Hd) as (H1 & H2 & H3 & H4).
  rewrite H1, H2, H3, H4. cbn [orb bind].
  pose proof (of_uint_nonneg u) as Hu.
  injection Hi as Hi.
  destruct (rnd_int_exact (Z.of_uint u)) as (q & Eq & Hq).
  { destruct neg; lia. }
  rewrite Eq. destruct neg; cbn [fneg Fraction_of_float].
  - assert (E : (- q == inject_Z z)%Q).
    { rewrite Hq, <- inject_Z_opp. now rewrite Hi. }
    now rewrite (Qred_complete _ _ E), Qred_inject_Z.
  - assert (E : (q == inject_Z z)%Q) by (now rewrite Hq, Hi).
    now rewrite (Qred_complete _ _ E), Qred_inject_Z.
Qed.

Lemma py_int_inj_str_of_Z (s : string) (z c : Z) :
  py_int s = Ok z -> s = str_of_Z c -> z = c.
Proof. intros H ->. rewrite py_int_str_of_Z in H. congruence. Qed.

(** A validated int answer against an expected int. *)
Lemma check_answer_int_literal (a : string) (z c : Z) :
  strip a = a -> contains "/" a = false -> py_int a = Ok z ->
  Z.abs z < 2 ^ 53 -> Z.abs c < 2 ^ 53 ->
  check_answer (Some a) (str_of_Z c) = Ok (z =? c).
Proof.
  intros Hs Hc Hi Hz Hcz. unfold check_answer. rewrite Hs, strip_str_of_Z.
  destruct (String.eqb_spec a (str_of_Z c)) as [E|N].
  - rewrite (py_int_inj_str_of_Z a z c Hi E). now rewrite Z.eqb_refl.
  - unfold comparison_body, fraction_block. rewrite Hc. cbn [andb bind].
    rewrite (numeric_block_exact _ _ _ _
               (any_format_Fraction_int_literal a z Hi Hc Hz)
               (any_format_Fraction_str_of_Z c Hcz)).
    cbn [bind try_except_Exception]. unfold Fraction_eqb.
    cbn [numerator denominator]. now rewrite Z.eqb_refl, andb_true_r.
Qed.




(* ================================================================== *)
(** ** questions.py: normalize_answer *)
(* ================================================================== *)

Lemma unpack2_raises {A : Type} (items : list (result A)) (e : exn) :
  Forall (fun r => forall e', r = Raise e' -> e' = ValueError) items ->
  unpack2 items = Raise e -> e = ValueError.
Proof.
  intros F. unfold unpack2.
  destruct items as [|r0 [|r1 [|r2 rest]]]; try (now intros [= <-]).
  - inversion_clear F as [|? ? H0 _].
    destruct r0 as [a|e0]; cbn [bind]; [now intros [= <-]|].
    intros [= <-]. now apply H0.
  - inversion_clear F as [|? ? H0 F1]. inversion_clear F1 as [|? ? H1 _].
    destruct r0 as [a|e0]; cbn [bind]; [|intros [= <-]; now apply H0].
    destruct r1 as [b|e1]; cbn [bind]; [discriminate|].
    intros [= <-]. now apply H1.
  - inversion_clear F as [|? ? H0 F1]. inversion_clear F1 as [|? ? H1 F2].
    inversion_clear F2 as [|? ? H2 _].
    destruct r0 as [a|e0]; cbn [bind]; [|intros [= <-]; now apply H0].
    destruct r1 as [b|e1]; cbn [bind]; [|intros [= <-]; now apply H1].
    destruct r2 as [c|e2]; cbn [bind]; [now intros [= <-]|].
    intros [= <-]. now apply H2.
Qed.

Lemma Fraction_of_ints_raises (n d : Z) (e : exn) :
  Fraction_of_ints n d = Raise e -> e = ZeroDivisionError.
Proof.
  unfold Fraction_of_ints. destruct (d =? 0); [now intros [= <-]|discriminate].
Qed.

(** questions.py, [normalize_answer]: the only exception that leaves it is
    the [OverflowError] of [int] on an infinite float, for a string
    without slash that [float] reads as an infinity (such as "inf" or
    "1e999").  A string with a slash never raises: it gives a [Fraction],
    or comes back unchanged.  Whenever a string is returned it is the
    argument itself. *)
Theorem normalize_answer_raises_only_on_infinity (answer_str : string) :
  ((exists v, normalize_answer answer_str = Ok v
              /\ (forall s, v = NStr s -> s = answer_str)
              /\ (contains "/" answer_str = true ->
                  (exists f, v = NFraction f) \/ v = NStr answer_str))
   \/ (normalize_answer answer_str = Raise OverflowError
       /\ contains "/" answer_str = false
       /\ exists neg, py_float answer_str = Ok (Inf neg)))
  /\ (forall neg, contains "/" answer_str = false ->
      py_float answer_str = Ok (Inf neg) ->
      normalize_answer answer_str = Raise OverflowError).
Proof.
  unfold normalize_answer. split.
  - destruct (contains "/" answer_str) eqn:C.
    + left.
      destruct (unpack2 (map py_int (split "/" answer_str))) as [[n d]|e] eqn:U;
        cbn [bind].
      * destruct (Fraction_of_ints n d) as [f|e] eqn:F; cbn [bind try_except].
        { exists (NFraction f). split; [reflexivity|].
          split; [discriminate|]. intros _. left. now exists f. }
        { rewrite (Fraction_of_ints_raises _ _ _ F).
          exists (NStr answer_str). split; [reflexivity|].
          split; [now intros s [= <-]|]. intros _. now right. }
      * assert (e = ValueError) as ->.
        { apply (unpack2_raises _ _ (A:=Z)) in U; [exact U|].
          apply Forall_forall. intros r Hr. apply in_map_iff in Hr.
          destruct Hr as (p & <- & _). intros e'. apply py_int_raises. }
        exists (NStr answer_str). split; [reflexivity|].
        split; [now intros s [= <-]|]. intros _. now right.
    + destruct (py_float answer_str) as [[q|neg|]|e] eqn:P; cbn [bind].
      * left. cbn [int_of_float bind].
        destruct (float_eq_int _ _); cbn [try_except];
          eexists; (split; [reflexivity|]); split; discriminate.
      * right. split; [reflexivity|]. split; [reflexivity|]. now exists neg.
      * left. exists (NStr answer_str). split; [reflexivity|].
        split; [now intros s [= <-]|discriminate].
      * left. rewrite (py_float_raises _ _ P).
        exists (NStr answer_str). split; [reflexivity|].
        split; [now intros s [= <-]|discriminate].
  - intros neg C P. now rewrite C, P.
Qed.


(* ================================================================== *)
(** ** questions.py: the questions on whole numbers *)
(* ================================================================== *)

Lemma random_randint_inv (a b : Z) (s : list Z) (v : Z) (s' : list Z) :
  random_randint a b s = Some (v, s') -> a <= v <= b /\ s = v :: s'.
Proof.
  unfold random_randint. destruct s as [|x s0]; [discriminate|].
  destruct (Z.leb_spec a x), (Z.leb_spec x b); cbn [andb]; try discriminate.
  intros [= <- <-]. split; [lia|reflexivity].
Qed.

Lemma random_choice_inv {A : Type} (l : list A) (s : list Z) (x : A) (s' : list Z) :
  random_choice l s = Some (x, s') -> In x l.
Proof.
  unfold random_choice. destruct s as [|v s0]; [discriminate|].
  destruct (0 <=? v); [|discriminate].
  destruct (nth_error l (Z.to_nat v)) eqn:E; [|discriminate].
  intros [= <- <-]. now apply nth_error_In in E.
Qed.

Lemma rbind_inv {A B : Type} (m : rand A) (k : A -> rand B) (s : list Z)
    (r : B * list Z) :
  rbind m k s = Some r ->
  exists a s1, m s = Some (a, s1) /\ k a s1 = Some r.
Proof.
  unfold rbind. destruct (m s) as [[a s1]|]; [|discriminate].
  intros H. now exists a, s1.
Qed.

(** Take the next call to the random module out of a run that has
    succeeded. *)
Ltac draw H :=
  match type of H with
  | context [random_randint ?a ?b ?s] =>
      let v := fresh "v" in
      let s1 := fresh "s" in
      let E := fresh "E" in
      destruct (random_randint a b s) as [[v s1]|] eqn:E;
      [|discriminate H];
      apply random_randint_inv in E; destruct E as [? ?];
      cbv beta iota in H
  | context [@random_choice ?A ?l ?s] =>
      let v := fresh "v" in
      let s1 := fresh "s" in
      let E := fresh "E" in
      destruct (@random_choice A l s) as [[v s1]|] eqn:E;
      [|discriminate H];
      apply random_choice_inv in E;
      cbv beta iota in H
  end.

Lemma contains_app (c : ascii) (a b : string) :
  contains c (a ++ b) = contains c a || contains c b.
Proof.
  induction a as [|x a IH]; cbn [append contains]; [reflexivity|].
  now rewrite IH, orb_assoc.
Qed.

Lemma contains_forall (c : ascii) (p : ascii -> bool) (s : string) :
  p c = false -> string_forall p s = true -> contains c s = false.
Proof.
  intros Hc. induction s as [|x s IH]; cbn [contains string_forall];
    [reflexivity|].
  intros H. apply andb_true_iff in H as [H1 H2]. rewrite (IH H2).
  destruct (Ascii.eqb_spec x c) as [->|]; [congruence|reflexivity].
Qed.

Lemma contains_str_of_Z_other (c : ascii) (z : Z) :
  is_int_char c = false -> contains c (str_of_Z z) = false.
Proof. intros H. apply (contains_forall c is_int_char _ H), str_of_Z_chars. Qed.

Lemma prefix_head (h c : ascii) (t r : string) :
  h <> c -> String.prefix (String h t) (String c r) = false.
Proof. intros N. cbn [String.prefix]. now destruct (ascii_dec h c). Qed.

Lemma substring_in_no_head (h : ascii) (t s : string) :
  contains h s = false -> substring_in (String h t) s = false.
Proof.
  induction s as [|c s IH]; cbn [contains]; [reflexivity|].
  intros H. apply orb_false_iff in H as [H1 H2].
  cbn [substring_in]. rewrite (IH H2), orb_false_r.
  apply prefix_head. intros ->. now rewrite Ascii.eqb_refl in H1.
Qed.

Lemma substring_in_skip (h : ascii) (t a s : string) :
  contains h a = false ->
  substring_in (String h t) (a ++ s) = substring_in (String h t) s.
Proof.
  induction a as [|c a IH]; cbn [contains append]; [reflexivity|].
  intros H. apply orb_false_iff in H as [H1 H2].
  cbn [substring_in]. rewrite (IH H2).
  rewrite prefix_head; [reflexivity|].
  intros ->. now rewrite Ascii.eqb_refl in H1.
Qed.

(** A question of ints around a sign of ASCII characters other than the
    slash and the dot asks for an int. *)
Lemma allow_float_for_plain (a b : Z) (sign : string) :
  contains "/" sign = false -> contains "." sign = false ->
  contains (ascii_of_nat 224) sign = false ->
  allow_float_for (str_of_Z a ++ sign ++ str_of_Z b) = false.
Proof.
  intros H1 H2 H3. unfold allow_float_for.
  rewrite !contains_app, H1, H2.
  rewrite !contains_str_of_Z_other by reflexivity.
  cbn [orb]. apply substring_in_no_head.
  rewrite !contains_app, H3.
  now rewrite !contains_str_of_Z_other by reflexivity.
Qed.

Lemma substring_in_step (h c : ascii) (t r : string) :
  h <> c -> substring_in (String h t) (String c r) = substring_in (String h t) r.
Proof. intros N. cbn [substring_in]. now rewrite (prefix_head h c t r N). Qed.

Lemma allow_float_for_times (a b : Z) :
  allow_float_for (str_of_Z a ++ " " ++ times_sign ++ " " ++ str_of_Z b) = false.
Proof.
  unfold allow_float_for.
  assert (S : forall c, is_int_char c = false ->
                contains c (" " ++ times_sign ++ " ") = false ->
                contains c (str_of_Z a ++ " " ++ times_sign ++ " " ++ str_of_Z b)
                = false).
  { intros c Hc Hs.
    replace (str_of_Z a ++ " " ++ times_sign ++ " " ++ str_of_Z b)
      with (str_of_Z a ++ (" " ++ times_sign ++ " ") ++ str_of_Z b)
      by reflexivity.
    rewrite (contains_app c (str_of_Z a)).
    rewrite (contains_app c (" " ++ times_sign ++ " ")).
    now rewrite Hs, !contains_str_of_Z_other by assumption. }
  rewrite !S by reflexivity. cbn [orb]. unfold division_sign.
  rewrite substring_in_skip by (now apply contains_str_of_Z_other).
  cbn [append times_sign utf8 fold_right].
  rewrite substring_in_step by discriminate.
  assert (P : forall X,
             String.prefix
               (String (ascii_of_nat 224) (String (ascii_of_nat 184)
                 (String (ascii_of_nat 163) (String (ascii_of_nat 224)
                   (String (ascii_of_nat 184) (String (ascii_of_nat 151) ""))))))
               (String (ascii_of_nat 224) (String (ascii_of_nat 184)
                 (String (ascii_of_nat 163) (String (ascii_of_nat 194) X))))
             = false) by (intros X; reflexivity).
  cbn [substring_in]. rewrite P. cbn [orb].
  fold (substring_in
          (String (ascii_of_nat 224) (String (ascii_of_nat 184)
            (String (ascii_of_nat 163) (String (ascii_of_nat 224)
              (String (ascii_of_nat 184) (String (ascii_of_nat 151) ""))))))).
  repeat rewrite substring_in_step by discriminate.
  apply substring_in_no_head.
  now apply contains_str_of_Z_other.
Qed.

(** What a run of one of the three generators gives. *)
Lemma whole_number_runs (difficulty' : Z) (stream : list Z) (q a : string)
    (rest : list Z) :
  (generate_addition_question difficulty' stream = Some ((q, a), rest) ->
   exists num1 num2, 1 <= num1 <= 500 /\ 1 <= num2 <= 500
     /\ q = str_of_Z num1 ++ " + " ++ str_of_Z num2
     /\ a = str_of_Z (num1 + num2))
  /\ (generate_subtraction_question difficulty' stream = Some ((q, a), rest) ->
      exists num1 num2, 1 <= num2 <= num1 /\ num1 <= 500
        /\ q = str_of_Z num1 ++ " - " ++ str_of_Z num2
        /\ a = str_of_Z (num1 - num2))
  /\ (generate_multiplication_question difficulty' stream = Some ((q, a), rest) ->
      exists num1 num2, 1 <= num1 <= 30 /\ 1 <= num2 <= 30
        /\ q = str_of_Z num1 ++ " " ++ times_sign ++ " " ++ str_of_Z num2
        /\ a = str_of_Z (num1 * num2)).
Proof.
  split; [|split]; intros H.
  - unfold generate_addition_question, rbind in H.
    destruct (difficulty' =? 1); [|destruct (difficulty' =? 2)];
      draw H; subst; draw H; subst; unfold rret in H; cbv beta iota in H;
      injection H as <- <- <-; eexists _, _;
      (split; [|split; [|split; reflexivity]]); lia.
  - unfold generate_subtraction_question, rbind in H.
    destruct (difficulty' =? 1); [|destruct (difficulty' =? 2)];
      draw H; subst; draw H; subst; unfold rret in H; cbv beta iota in H;
      injection H as <- <- <-; eexists _, _;
      (split; [|split; [|split; reflexivity]]); lia.
  - unfold generate_multiplication_question, rbind in H.
    destruct (difficulty' =? 1); [|destruct (difficulty' =? 2)];
      draw H; subst; draw H; subst; unfold rret in H; cbv beta iota in H;
      injection H as <- <- <-; eexists _, _;
      (split; [|split; [|split; reflexivity]]); lia.
Qed.

(** An answer the prompt lets through for a question that asks for an int,
    against the expected int. *)
Lemma typed_int_verdict (q : string) (inputs : list keyboard) (typed : string)
    (r : Z) :
  allow_float_for q = false -> Z.abs r < 2 ^ 53 ->
  fst (fst (get_answer q inputs)) = Ok (Some typed) ->
  contains "/" typed = false ->
  exists z : Z,
    py_int typed = Ok z
    /\ (Z.abs z < 2 ^ 53 -> check_answer (Some typed) (str_of_Z r) = Ok (z =? r)).
Proof.
  intros F Hr H C. unfold get_answer in H.
  destruct (get_answer_loop_valid (allow_float_for q) inputs)
    as (o & out & rest & E & V).
  rewrite E in H. cbn [fst] in H. injection H as ->.
  destruct V as ((Hne & Hs & V) & _). rewrite C, F in V.
  destruct V as (z & Hz). exists z. split; [exact Hz|].
  intros Hzb. now apply check_answer_int_literal.
Qed.

(** questions.py, the addition, subtraction and multiplication
    generators, with cli.py and game.py: whatever the random module
    returns, the expected answer is the decimal form of the exact result
    of the two numbers of the question, which is never negative (in a
    subtraction the second number is at most the first); the question
    makes the prompt ask for an int; and an int the player types, however
    it is written, is judged correct exactly when it is that result. *)
Theorem whole_number_questions_are_judged_exactly
    (difficulty' : Z) (stream : list Z) (q a : string) (rest : list Z) :
  let judged (r : Z) :=
    0 <= r <= 1000 /\ a = str_of_Z r /\ allow_float_for q = false
    /\ forall (inputs : list keyboard) (typed : string),
         fst (fst (get_answer q inputs)) = Ok (Some typed) ->
         contains "/" typed = false ->
         exists z : Z,
           py_int typed = Ok z
           /\ (Z.abs z < 2 ^ 53 -> check_answer (Some typed) a = Ok (z =? r)) in
  (generate_addition_question difficulty' stream = Some ((q, a), rest) ->
   exists num1 num2,
     q = str_of_Z num1 ++ " + " ++ str_of_Z num2 /\ judged (num1 + num2))
  /\ (generate_subtraction_question difficulty' stream = Some ((q, a), rest) ->
      exists num1 num2,
        q = str_of_Z num1 ++ " - " ++ str_of_Z num2 /\ judged (num1 - num2))
  /\ (generate_multiplication_question difficulty' stream = Some ((q, a), rest) ->
      exists num1 num2,
        q = str_of_Z num1 ++ " " ++ times_sign ++ " " ++ str_of_Z num2
        /\ judged (num1 * num2)).
Proof.
  intros judged.
  destruct (whole_number_runs difficulty' stream q a rest) as (A & S & M).
  assert (J : forall r, 0 <= r <= 1000 -> a = str_of_Z r ->
                allow_float_for q = false -> judged r).
  { intros r Hr Ha F. split; [exact Hr|]. split; [exact Ha|]. split; [exact F|].
    intros inputs typed Ht C. rewrite Ha.
    apply (typed_int_verdict q inputs typed r F); try assumption.
    assert (2 ^ 53 = 9007199254740992) by reflexivity. lia. }
  split; [|split]; intros H.
  - destruct (A H) as (n1 & n2 & H1 & H2 & Hq & Ha).
    exists n1, n2. split; [exact Hq|]. apply J; [lia|exact Ha|].
    rewrite Hq. now apply (allow_float_for_plain n1 n2 " + ").
  - destruct (S H) as (n1 & n2 & H1 & H2 & Hq & Ha).
    exists n1, n2. split; [exact Hq|]. apply J; [lia|exact Ha|].
    rewrite Hq. now apply (allow_float_for_plain n1 n2 " - ").
  - destruct (M H) as (n1 & n2 & H1 & H2 & Hq & Ha).
    exists n1, n2. split; [exact Hq|]. apply J; [nia|exact Ha|].
    rewrite Hq. apply allow_float_for_times.
Qed.

Lemma whole_number_questions_are_judged_exactly_witness :
  exists num1 num2,
    "17 - 9"%string = str_of_Z num1 ++ " - " ++ str_of_Z num2
    /\ 0 <= num1 - num2 <= 1000.
Proof.
  destruct (proj1 (proj2 (whole_number_questions_are_judged_exactly
                            1 [9; 17; 3] "17 - 9" "8" [3])) eq_refl)
    as (n1 & n2 & Hq & Hr & _).
  now exists n1, n2.
Defined.

(* ================================================================== *)
(** ** questions.py: the division questions *)
(* ================================================================== *)

Local Open Scope Q_scope.

(** Rounding between two multiples of [2^(-j)]. *)
Lemma rnd_pos_between_dyadic (neg : bool) (n d : positive) (A B j : Z) :
  (0 <= j <= 1074)%Z -> (0 <= A)%Z -> (B < 2 ^ 53)%Z ->
  inject_Z A * 2 ^ (- j) <= Qpos_value n d ->
  Qpos_value n d <= inject_Z B * 2 ^ (- j) ->
  exists m e : Z,
    rnd_pos neg n d = Fin (dyadic (if neg then (- m)%Z else m) e)
    /\ inject_Z A * 2 ^ (- j) <= inject_Z m * 2 ^ e
    /\ inject_Z m * 2 ^ e <= inject_Z B * 2 ^ (- j).
Proof.
  intros Hj HA HB HAx HxB.
  destruct (ilog2_spec n d) as [L1 L2].
  pose proof (Qpos_value_pos n d) as Hx.
  set (x := Qpos_value n d) in *. set (l := ilog2 n d) in *.
  pose proof (two_pow_pos (- j)) as PJ.
  assert (Hl : (l < 53 - j)%Z).
  { apply two_pow_lt_inv.
    assert (T : 2 ^ (53 - j) == inject_Z (2 ^ 53) * 2 ^ (- j)).
    { rewrite <- (two_pow_Z 53) by lia. rewrite <- two_pow_add.
      now replace (53 + - j)%Z with (53 - j)%Z by lia. }
    rewrite T.
    assert (inject_Z B < inject_Z (2 ^ 53)) by (now rewrite <- Zlt_Qlt).
    set (J := 2 ^ (- j)) in *. set (L := 2 ^ l) in *.
    set (C := inject_Z (2 ^ 53)) in *. nra. }
  unfold rnd_pos. fold l.
  set (e := Z.max (l - 52) (-1074)).
  assert (He0 : (e <= - j)%Z) by lia. clearbody e.
  destruct (scale2_spec (Zpos n) (Zpos d) e ltac:(lia)) as [Hb Ha].
  destruct (scale2 (Zpos n) (Zpos d) e) as [a b]; simpl in Hb, Ha.
  fold (Qpos_value n d) in Ha. fold x in Ha.
  set (y := x * 2 ^ (- e)) in *.
  pose proof (two_pow_pos e) as Pe. pose proof (two_pow_pos (- e)) as Pe'.
  pose proof (two_pow_opp e) as Hinv.
  replace ((971 <? e)%Z || (e =? 971)%Z && (2 ^ 53 <=? rne a b)%Z) with false.
  2:{ symmetry. apply orb_false_iff. split.
      - apply Z.ltb_ge. lia.
      - apply andb_false_iff. left. apply Z.eqb_neq. lia. }
  exists (rne a b), e. split; [reflexivity|].
  assert (PZ : 2 ^ (- e - j) == inject_Z (2 ^ (- e - j))) by (apply two_pow_Z; lia).
  assert (PS : 2 ^ (- e - j) == 2 ^ (- e) * 2 ^ (- j)).
  { rewrite <- two_pow_add. now replace (- e + - j)%Z with (- e - j)%Z by lia. }
  set (P := 2 ^ (- e)) in *. set (Pz := (2 ^ (- e - j))%Z) in *.
  set (PJz := 2 ^ (- e - j)) in *.
  set (E := 2 ^ e) in *. set (J := 2 ^ (- j)) in *.
  split.
  - assert (Hm : (A * Pz <= rne a b)%Z).
    { apply (rne_ge_Q a b _ y Hb Ha).
      rewrite inject_Z_mult, <- PZ, PS. unfold y. nra. }
    rewrite Zle_Qle, inject_Z_mult, <- PZ, PS in Hm.
    assert (T : inject_Z A * (P * J) * E <= inject_Z (rne a b) * E) by nra.
    assert (T' : inject_Z A * (P * J) * E == inject_Z A * J).
    { transitivity (inject_Z A * J * (E * P)); [ring|]. rewrite Hinv. ring. }
    lra.
  - assert (Hm : (rne a b <= B * Pz)%Z).
    { apply (rne_le_Q a b _ y Hb Ha).
      rewrite inject_Z_mult, <- PZ, PS. unfold y. nra. }
    rewrite Zle_Qle, inject_Z_mult, <- PZ, PS in Hm.
    assert (T : inject_Z (rne a b) * E <= inject_Z B * (P * J) * E) by nra.
    assert (T' : inject_Z B * (P * J) * E == inject_Z B * J).
    { transitivity (inject_Z B * J * (E * P)); [ring|]. rewrite Hinv. ring. }
    lra.
Qed.

Lemma rnd_between_dyadic (x : Q) (A B j : Z) :
  (0 <= j <= 1074)%Z -> (0 < A)%Z -> (B < 2 ^ 53)%Z ->
  inject_Z A * 2 ^ (- j) <= x -> x <= inject_Z B * 2 ^ (- j) ->
  exists q : Q,
    rnd x = Fin q
    /\ inject_Z A * 2 ^ (- j) <= q /\ q <= inject_Z B * 2 ^ (- j).
Proof.
  intros Hj HA HB HAx HxB.
  pose proof (two_pow_pos (- j)) as PJ.
  assert (H0 : 0 < inject_Z A).
  { change 0 with (inject_Z 0). now rewrite <- Zlt_Qlt. }
  assert (Hx : 0 < x) by (set (J := 2 ^ (- j)) in *; nra).
  unfold rnd. destruct (Qnum x) as [|n|n] eqn:En.
  - assert (x == 0) by (destruct x as [xn xd]; simpl in En; subst xn; reflexivity).
    lra.
  - pose proof (Qpos_value_eq x n En) as Ev.
    destruct (rnd_pos_between_dyadic false n (Qden x) A B j Hj ltac:(lia) HB)
      as (m & e & E & H1 & H2).
    + now rewrite Ev.
    + now rewrite Ev.
    + exists (dyadic m e). split; [exact E|]. now rewrite dyadic_spec.
  - pose proof (Qpos_value_opp x n En) as Ev.
    pose proof (Qpos_value_pos n (Qden x)) as Pv. lra.
Qed.

Local Open Scope Z_scope.

(** The quotient of two small ints as a float: it is a whole number
    exactly when the division leaves no remainder, and its integer part is
    the integer quotient. *)
Lemma int_quotient_float (a b : Z) :
  1 <= b <= 32 -> 0 <= a < 2 ^ 40 ->
  exists q : Q,
    num_truediv (PyInt a) (PyInt b) = Ok (Fin q)
    /\ int_of_float (Fin q) = Ok (a / b)
    /\ float_eq_int (Fin q) (a / b) = (a mod b =? 0).
Proof.
  intros Hb Ha.
  assert (P40 : 2 ^ 40 = 1099511627776) by reflexivity.
  assert (P53 : 2 ^ 53 = 9007199254740992) by reflexivity.
  pose proof (Z.div_mod a b ltac:(lia)) as D.
  pose proof (Z.mod_pos_bound a b ltac:(lia)) as R.
  pose proof (Z.div_pos a b ltac:(lia) ltac:(lia)) as K0.
  assert (K1 : a / b <= a) by (apply Z.div_le_upper_bound; nia).
  set (k := a / b) in *. set (r := a mod b) in *.
  unfold num_truediv.
  destruct (Z.eqb_spec b 0) as [|_]; [lia|].
  set (x := (Qmake a 1 / Qmake b 1)%Q).
  assert (Hxb : (x * inject_Z b == inject_Z a)%Q).
  { unfold x. change (Qmake a 1) with (inject_Z a).
    change (Qmake b 1) with (inject_Z b). field.
    intros E. assert (T : (inject_Z 0 < inject_Z b)%Q) by (rewrite <- Zlt_Qlt; lia).
    rewrite E in T. now apply Qlt_irrefl in T. }
  assert (Bpos : (0 < inject_Z b)%Q).
  { change 0%Q with (inject_Z 0). rewrite <- Zlt_Qlt. lia. }
  assert (Ia : (inject_Z a == inject_Z b * inject_Z k + inject_Z r)%Q).
  { rewrite <- inject_Z_mult, <- inject_Z_plus. now rewrite <- D. }
  assert (Rb : (0 <= inject_Z r)%Q /\ (inject_Z r + 1 <= inject_Z b)%Q).
  { split.
    - change 0%Q with (inject_Z 0). rewrite <- Zle_Qle. lia.
    - change 1%Q with (inject_Z 1). rewrite <- inject_Z_plus, <- Zle_Qle. lia. }
  assert (Quot : forall q : Q,
             (inject_Z k <= q)%Q -> (q < inject_Z k + 1)%Q ->
             int_of_float (Fin q) = Ok k).
  { intros [qn qd] H1 H2. cbn [int_of_float Qnum Qden]. f_equal.
    unfold Qle, Qlt in *. cbn [Qnum Qden inject_Z Qplus] in *.
    rewrite ?Z.mul_1_r in *.
    assert (0 <= qn) by nia.
    rewrite Z.quot_div_nonneg by lia.
    symmetry. apply (Z.div_unique_pos qn (Z.pos qd) k (qn - k * Z.pos qd)); lia. }
  destruct (Z.eqb_spec r 0) as [Er|Nr].
  - assert (Hx : (x == inject_Z k)%Q).
    { rewrite Er in Ia. change (inject_Z 0) with 0%Q in Ia.
      rewrite Qplus_0_r in Ia.
      apply (Qmult_inj_r _ _ (inject_Z b)); [lra|]. rewrite Hxb, Ia. ring. }
    destruct (rnd_between x k k) as (q & E & H1 & H2);
      try lia; try (rewrite Hx; apply Qle_refl).
    rewrite E. exists q. split; [reflexivity|]. split.
    + apply Quot; lra.
    + cbn [float_eq_int]. apply Qeq_bool_iff. lra.
  - assert (J : (2 ^ (- (5)) == 1 # 32)%Q) by reflexivity.
    assert (I32 : (inject_Z 32 == 32)%Q) by reflexivity.
    assert (Rq : (1 <= inject_Z r)%Q).
    { change 1%Q with (inject_Z 1). rewrite <- Zle_Qle. lia. }
    assert (B32 : (inject_Z b <= 32)%Q).
    { rewrite <- I32, <- Zle_Qle. lia. }
    destruct (rnd_between_dyadic x (32 * k + 1) (32 * k + 31) 5)
      as (q & E & H1 & H2); try lia.
    + rewrite J, inject_Z_plus, inject_Z_mult, I32.
      change (inject_Z 1) with 1%Q.
      assert (T : ((32 * inject_Z k + 1) * (1 # 32) * inject_Z b
                   <= x * inject_Z b)%Q).
      { rewrite Hxb, Ia. destruct Rb. nra. }
      apply Qmult_le_r in T; assumption.
    + rewrite J, inject_Z_plus, inject_Z_mult, I32.
      change (inject_Z 31) with 31%Q.
      assert (T : (x * inject_Z b
                   <= (32 * inject_Z k + 31) * (1 # 32) * inject_Z b)%Q).
      { rewrite Hxb, Ia. destruct Rb. nra. }
      apply Qmult_le_r in T; assumption.
    + rewrite J, inject_Z_plus, inject_Z_mult, I32 in H1, H2.
      change (inject_Z 1) with 1%Q in H1. change (inject_Z 31) with 31%Q in H2.
      rewrite E. exists q. split; [reflexivity|]. split.
      * apply Quot; lra.
      * cbn [float_eq_int].
        destruct (Qeq_bool q (inject_Z k)) eqn:Eb; [|reflexivity].
        apply Qeq_bool_iff in Eb. lra.
Qed.

Lemma prefix_app (s x : string) : String.prefix s (s ++ x) = true.
Proof.
  induction s as [|c s IH]; cbn [String.prefix append]; [now destruct x|].
  destruct (ascii_dec c c); [exact IH|congruence].
Qed.

Lemma substring_in_here (needle x : string) :
  substring_in needle (needle ++ x) = true.
Proof.
  destruct (needle ++ x) eqn:E; cbn [substring_in];
    rewrite <- E, prefix_app; reflexivity.
Qed.

Lemma substring_in_app_r (needle a s : string) :
  substring_in needle s = true -> substring_in needle (a ++ s) = true.
Proof.
  intros H. induction a as [|c a IH]; cbn [append]; [exact H|].
  cbn [substring_in]. rewrite IH. apply orb_true_r.
Qed.

Lemma allow_float_for_division (a b : Z) :
  allow_float_for (str_of_Z a ++ " " ++ division_sign ++ " " ++ str_of_Z b)
  = true.
Proof.
  unfold allow_float_for.
  rewrite (substring_in_app_r division_sign (str_of_Z a));
    [now rewrite !orb_true_r|].
  apply (substring_in_app_r division_sign " "), substring_in_here.
Qed.

(** The answer of a division question, from the two numbers shown. *)
Lemma division_answer (str_round_2 : float -> string) (q : string)
    (dividend divisor : Z) :
  1 <= divisor <= 25 -> 1 <= dividend <= 500 ->
  exists x : float,
    num_truediv (PyInt dividend) (PyInt divisor) = Ok x
    /\ (result' <- num_truediv (PyInt dividend) (PyInt divisor) ;;
        whole <- int_of_float result' ;;
        if float_eq_int result' whole then Ok (q, str_of_Z whole)
        else Ok (q, str_round_2 result'))
       = Ok (q, if dividend mod divisor =? 0
                then str_of_Z (dividend / divisor)
                else str_round_2 x).
Proof.
  intros Hd Ha.
  destruct (int_quotient_float dividend divisor) as (x & E & I & F); [lia| |].
  { assert (2 ^ 40 = 1099511627776) by reflexivity. lia. }
  exists (Fin x). split; [exact E|].
  rewrite E. cbn [bind]. rewrite I. cbn [bind]. rewrite F.
  now destruct (dividend mod divisor =? 0).
Qed.

(** questions.py, [generate_division_question], with game.py: whatever
    the random module returns, the generator raises nothing and shows a
    divisor in 1..25 and a dividend in 1..500; the question lets the
    prompt accept decimals.  When the division leaves no remainder, which
    is always so at difficulty 1, the expected answer is the integer
    quotient in decimal form, and an int the player types is judged
    correct exactly when it is that quotient; otherwise the expected
    answer is the rounded form of the float quotient. *)
Theorem division_questions_have_exact_answers
    (str_round_2 : float -> string) (difficulty' : Z) (stream : list Z)
    (r : result (string * string)) (rest : list Z) :
  generate_division_question str_round_2 difficulty' stream = Some (r, rest) ->
  exists (dividend divisor : Z) (x : float),
    1 <= divisor <= 25 /\ 1 <= dividend <= 500
    /\ num_truediv (PyInt dividend) (PyInt divisor) = Ok x
    /\ (let q := str_of_Z dividend ++ " " ++ division_sign ++ " "
                 ++ str_of_Z divisor in
        allow_float_for q = true
        /\ r = Ok (q, if dividend mod divisor =? 0
                      then str_of_Z (dividend / divisor)
                      else str_round_2 x))
    /\ (difficulty' = 1 -> dividend mod divisor = 0)
    /\ (dividend mod divisor = 0 ->
        forall (typed : string) (z : Z),
          strip typed = typed -> contains "/" typed = false ->
          py_int typed = Ok z -> Z.abs z < 2 ^ 53 ->
          check_answer (Some typed) (str_of_Z (dividend / divisor))
          = Ok (z =? dividend / divisor)).
Proof.
  intros H.
  assert (G : forall dividend divisor,
             1 <= divisor <= 25 -> 1 <= dividend <= 500 ->
             (difficulty' = 1 -> dividend mod divisor = 0) ->
             r = (result' <- num_truediv (PyInt dividend) (PyInt divisor) ;;
                  whole <- int_of_float result' ;;
                  if float_eq_int result' whole
                  then Ok (str_of_Z dividend ++ " " ++ division_sign ++ " "
                           ++ str_of_Z divisor, str_of_Z whole)
                  else Ok (str_of_Z dividend ++ " " ++ division_sign ++ " "
                           ++ str_of_Z divisor, str_round_2 result')) ->
             exists (dividend divisor : Z) (x : float),
               1 <= divisor <= 25 /\ 1 <= dividend <= 500
               /\ num_truediv (PyInt dividend) (PyInt divisor) = Ok x
               /\ (let q := str_of_Z dividend ++ " " ++ division_sign ++ " "
                            ++ str_of_Z divisor in
                   allow_float_for q = true
                   /\ r = Ok (q, if dividend mod divisor =? 0
                                 then str_of_Z (dividend / divisor)
                                 else str_round_2 x))
               /\ (difficulty' = 1 -> dividend mod divisor = 0)
               /\ (dividend mod divisor = 0 ->
                   forall (typed : string) (z : Z),
                     strip typed = typed -> contains "/" typed = false ->
                     py_int typed = Ok z -> Z.abs z < 2 ^ 53 ->
                     check_answer (Some typed) (str_of_Z (dividend / divisor))
                     = Ok (z =? dividend / divisor))).
  { intros dividend divisor Hd Ha H1 Hr.
    destruct (division_answer str_round_2
                (str_of_Z dividend ++ " " ++ division_sign ++ " "
                 ++ str_of_Z divisor) dividend divisor Hd Ha) as (x & Ex & Er).
    exists dividend, divisor, x.
    split; [exact Hd|]. split; [exact Ha|]. split; [exact Ex|].
    split; [split; [apply allow_float_for_division|now rewrite Hr, Er]|].
    split; [exact H1|].
    intros _ typed z Hs Hc Hi Hz.
    apply check_answer_int_literal; try assumption.
    assert (2 ^ 53 = 9007199254740992) by reflexivity.
    pose proof (Z.div_pos dividend divisor ltac:(lia) ltac:(lia)).
    assert (dividend / divisor <= dividend)
      by (apply Z.div_le_upper_bound; nia).
    lia. }
  unfold generate_division_question, rbind in H.
  destruct (Z.eqb_spec difficulty' 1) as [D1|D1];
    [|destruct (Z.eqb_spec difficulty' 2) as [D2|D2]].
  - draw H; subst. draw H; subst. unfold rret in H. cbv beta iota in H.
    injection H as <- <-.
    apply (G (v * v0) v); try nia; [|reflexivity].
    intros _. rewrite Z.mul_comm. apply Z.mod_mul. lia.
  - draw H; subst. draw H; subst.
    destruct (Z.eqb_spec (v0 mod v) 0) as [M|M]; cbn [negb] in H;
      cbv beta iota in H.
    + unfold rret in H. injection H as <- <-.
      apply (G v0 v); try lia; reflexivity.
    + draw H. destruct v1; unfold rret in H; cbv beta iota in H;
        injection H as <- <-.
      * pose proof (Z.div_mod v0 v ltac:(lia)).
        pose proof (Z.mod_pos_bound v0 v ltac:(lia)).
        assert (1 <= v0 / v) by (apply Z.div_le_lower_bound; lia).
        apply (G (v0 / v * v) v); try nia; try lia; reflexivity.
      * apply (G v0 v); try lia; reflexivity.
  - draw H; subst. draw H; subst. unfold rret in H. cbv beta iota in H.
    injection H as <- <-.
    apply (G v0 v); try lia; reflexivity.
Qed.

Lemma division_questions_have_exact_answers_witness :
  exists (dividend divisor : Z) (x : float),
    1 <= divisor <= 25 /\ 1 <= dividend <= 500
    /\ num_truediv (PyInt dividend) (PyInt divisor) = Ok x
    /\ dividend mod divisor = 0.
Proof.
  destruct (division_questions_have_exact_answers (fun _ => "?"%string) 1
              [4; 7; 2]
              (Ok ("28 " ++ division_sign ++ " 4", "7"%string)) [2] eq_refl)
    as (dividend & divisor & x & H1 & H2 & H3 & _ & H4 & _).
  exists dividend, divisor, x.
  split; [exact H1|]. split; [exact H2|]. split; [exact H3|].
  now apply H4.
Defined.

(* ================================================================== *)
(** ** operations.py: the fraction questions *)
(* ================================================================== *)











(* ================================================================== *)
(** ** cli.py: the prompt of the timed challenge *)
(* ================================================================== *)

Lemma timed_rounds_before_sentinel (inputs : list RoundInput) :
  forall (self : MathGame) (n : Z),
    timed_rounds self n inputs = timed_rounds self n (before_sentinel inputs).
Proof.
  induction inputs as [|i rest IH]; intros self n; [reflexivity|].
  cbn [timed_rounds before_sentinel].
  destruct (is_sentinel (in_user_answer i)) eqn:S; [reflexivity|].
  cbn [timed_rounds]. rewrite S.
  destruct (timed_round self n i) as [[o|e] self']; [|reflexivity].
  now rewrite IH.
Qed.

(** cli.py, [get_answer_timed], with game.py, [play_timed_challenge]: the
    answer handed to the game ends the challenge exactly when the prompt
    was interrupted or the player typed one of the reserved words
    [__TIME_UP__] and [__QUIT__] (blanks around it apart); the rounds from
    that one on are not played and leave no trace in the statistics.  An
    empty line is handed over as no answer, which is judged wrong. *)
Theorem get_answer_timed_ends_the_challenge :
  (forall k : keyboard,
     is_sentinel (get_answer_timed k) = true
     <-> k = Interrupted
         \/ exists l, k = Line l
              /\ (strip l = "__TIME_UP__" \/ strip l = "__QUIT__"))
  /\ (forall (self : MathGame) (inputs : list RoundInput),
        play_timed_challenge self inputs
        = play_timed_challenge self (before_sentinel inputs))
  /\ (forall (l c : string),
        strip l = "" ->
        get_answer_timed (Line l) = None
        /\ check_answer (get_answer_timed (Line l)) c = Ok false).
Proof.
  split; [|split].
  - intros [l|]; cbn [get_answer_timed].
    + split.
      * intros H. right. exists l. split; [reflexivity|].
        destruct (String.eqb_spec (strip l) "") as [E|N]; [discriminate H|].
        cbn [is_sentinel] in H. apply orb_true_iff in H as [H|H];
          apply String.eqb_eq in H; auto.
      * intros [H|(l' & [= <-] & H)]; [discriminate H|].
        destruct (String.eqb_spec (strip l) "") as [E|N].
        { rewrite E in H. destruct H as [H|H]; discriminate H. }
        cbn [is_sentinel]. apply orb_true_iff.
        destruct H as [H|H]; rewrite H; [left|right]; reflexivity.
    + split; [intros _; now left|reflexivity].
  - intros self inputs. unfold play_timed_challenge.
    now rewrite timed_rounds_before_sentinel.
  - intros l c H. cbn [get_answer_timed]. rewrite H. split; reflexivity.
Qed.

Lemma get_answer_timed_ends_the_challenge_witness :
  get_answer_timed (Line "  ") = None
  /\ check_answer (get_answer_timed (Line "  ")) "4" = Ok false.
Proof.
  apply (proj2 (proj2 get_answer_timed_ends_the_challenge) "  " "4").
  reflexivity.
Defined.

(* ================================================================== *)
(** ** Instances *)
(* ================================================================== *)

Lemma normalize_answer_raises_only_on_infinity_witness :
  normalize_answer "1e999" = Raise OverflowError.
Proof.
  apply (proj2 (normalize_answer_raises_only_on_infinity "1e999") false).
  - reflexivity.
  - vm_compute. reflexivity.
Defined.


Lemma update_high_score_never_lowers_a_score_witness :
  let stats := Stats.mk 3 2 (PyFloat (Fin (200 # 3))) (PyFloat (Fin 2)) 320 in
  let after := snd (HighScoreManager.update_high_score
                      HighScoreManager.create_default_scores "2026-01-01 10:00"
                      "timed_mode" 2 3 stats None) in
  HighScoreManager.get_high_score after "normal_mode" 2 3
  = HighScoreManager.get_high_score HighScoreManager.create_default_scores
      "normal_mode" 2 3.
Proof.
  intros stats after.
  apply (proj2 (update_high_score_never_lowers_a_score
                  HighScoreManager.create_default_scores "2026-01-01 10:00"
                  "timed_mode" 2 3 stats None "normal_mode" 2 3)).
  left. discriminate.
Defined.

Lemma play_timed_challenge_keeps_session_consistent_witness :
  difficulty (snd (play_timed_challenge (session 2 7)
                     [mkRoundInput "1 + 1" "2" (Some "2") (Fin 2)]))
  = difficulty (session 2 7).
Proof.
  apply (proj2 (proj2 (proj2
           (play_timed_challenge_keeps_session_consistent (session 2 7)
              [mkRoundInput "1 + 1" "2" (Some "2") (Fin 2)])))).
  reflexivity.
Defined.

(* ================================================================== *)
(** ** main.py: the comparison of play_round against check_answer *)
(* ================================================================== *)

Lemma str_of_Z_eqb (a b : Z) : String.eqb (str_of_Z a) (str_of_Z b) = (a =? b).
Proof.
  destruct (String.eqb_spec (str_of_Z a) (str_of_Z b)) as [E|N].
  - apply str_of_Z_inj in E. subst. now rewrite Z.eqb_refl.
  - destruct (Z.eqb_spec a b) as [->|]; [now contradiction N|reflexivity].
Qed.

Lemma contains_dot_str_of_Z (z : Z) : contains "." (str_of_Z z) = false.
Proof. now apply contains_str_of_Z_other. Qed.




(* ================================================================== *)
(** ** The menus *)
(* ================================================================== *)

Lemma main_get_choice_range (lo hi : Z) (inputs : list keyboard) (c : Z)
    (rest : list keyboard) :
  main_get_choice lo hi inputs = Answered c rest -> lo <= c <= hi.
Proof.
  induction inputs as [|k inputs IH]; cbn [main_get_choice]; [discriminate|].
  destruct k as [l|]; [|discriminate].
  destruct (py_int l) as [z|e]; [|exact IH].
  destruct (Z.leb_spec lo z), (Z.leb_spec z hi); cbn [andb]; try exact IH.
  intros [= <- _]. lia.
Qed.

Lemma get_menu_choice_offered (options : list Z) (allow_quit : bool)
    (inputs : list keyboard) (r : option Z) (rest : list keyboard) :
  get_menu_choice options allow_quit inputs = Answered r rest ->
  match r with
  | Some c => In c options
  | None => allow_quit = true
  end.
Proof.
  induction inputs as [|k inputs IH]; cbn [get_menu_choice]; [discriminate|].
  destruct k as [l|]; [|discriminate].
  destruct (allow_quit && String.eqb (lower_string (strip l)) "q") eqn:Q.
  { intros [= <- _]. now apply andb_true_iff in Q as [-> _]. }
  destruct (py_int _) as [z|e]; [|exact IH].
  destruct (existsb (Z.eqb z) options) eqn:E; [|exact IH].
  intros [= <- _]. apply existsb_exists in E as (x & Hx & Ex).
  apply Z.eqb_eq in Ex. now subst.
Qed.

Lemma get_numeric_input_range (lo hi d : Z) (inputs : list keyboard)
    (v : number) (rest : list keyboard) :
  get_numeric_input (Some lo) (Some hi) false (Some d) inputs = Answered v rest ->
  exists z : Z, v = PyInt z /\ (z = d \/ lo <= z <= hi).
Proof.
  induction inputs as [|k inputs IH]; cbn [get_numeric_input]; [discriminate|].
  destruct k as [l|]; [|discriminate].
  destruct (String.eqb (strip l) "").
  { intros [= <- _]. exists d. auto. }
  destruct (py_int (strip l)) as [z|e]; cbn [bind]; [|exact IH].
  cbn [num_ltb].
  destruct (Z.ltb_spec z lo), (Z.ltb_spec hi z); cbn [orb]; try exact IH.
  intros [= <- _]. exists z. split; [reflexivity|]. right. lia.
Qed.

(** main.py and cli.py, the menus, with game.py, [setup_game]: the
    difficulty menus of both user interfaces return a choice between 1
    and 4 only (or [None] when the player quits), so that [setup_game]
    called with it on a reachable session gives a reachable session with
    a difficulty between 1 and 3, adaptive exactly for the choice 4; the
    operation menu of main.py returns a number between 1 and 9, each of
    which has a name; the number of rounds asked for is between 1 and 20
    and the time limit between 30 and 300 seconds. *)
Theorem menus_return_what_setup_game_expects :
  (forall (inputs rest : list keyboard) (c : Z) (self : MathGame)
          (op n : Z) (tm : bool) (tl : Z),
     get_difficulty inputs = Answered c rest
     \/ show_difficulty_menu inputs = Answered (Some c) rest ->
     1 <= c <= 4
     /\ (reachable self -> reachable (setup_game self op c n tm tl))
     /\ 1 <= difficulty (setup_game self op c n tm tl) <= 3
     /\ (adaptive_difficulty (setup_game self op c n tm tl) = true <-> c = 4))
  /\ (forall (inputs rest : list keyboard) (c : Z),
        get_operation_choice inputs = Answered c rest ->
        1 <= c <= 9 /\ get_operation_name c <> "Unknown")
  /\ (forall (inputs rest : list keyboard) (v : number),
        get_rounds inputs = Answered v rest ->
        exists n : Z, v = PyInt n /\ 1 <= n <= 20)
  /\ (forall (inputs rest : list keyboard) (v : number),
        get_time_limit inputs = Answered v rest ->
        exists t : Z, v = PyInt t /\ 30 <= t <= 300).
Proof.
  split; [|split; [|split]].
  - intros inputs rest c self op n tm tl H.
    assert (R : 1 <= c <= 4).
    { destruct H as [H|H].
      - now apply main_get_choice_range in H.
      - apply get_menu_choice_offered in H. cbn [In] in H. lia. }
    split; [exact R|]. split; [intros Hs; now constructor|].
    unfold setup_game. destruct (Z.ltb_spec c 4);
      cbn [difficulty adaptive_difficulty]; split; try lia;
      split; intros; (discriminate || lia || reflexivity).
  - intros inputs rest c H. apply main_get_choice_range in H.
    split; [exact H|].
    assert (C : c = 1 \/ c = 2 \/ c = 3 \/ c = 4 \/ c = 5 \/ c = 6 \/ c = 7
                \/ c = 8 \/ c = 9) by lia.
    destruct C as [-> | [-> | [-> | [-> | [-> | [-> | [-> | [-> | ->]]]]]]]];
      discriminate.
  - intros inputs rest v H.
    destruct (get_numeric_input_range 1 20 10 inputs v rest H) as (z & E & R).
    exists z. split; [exact E|]. lia.
  - intros inputs rest v H.
    destruct (get_numeric_input_range 30 300 60 inputs v rest H) as (z & E & R).
    exists z. split; [exact E|]. lia.
Qed.

Lemma menus_return_what_setup_game_expects_witness :
  1 <= 4 <= 4
  /\ (reachable init -> reachable (setup_game init 2 4 10 false 60))
  /\ 1 <= difficulty (setup_game init 2 4 10 false 60) <= 3
  /\ (adaptive_difficulty (setup_game init 2 4 10 false 60) = true <-> 4 = 4).
Proof.
  apply (proj1 menus_return_what_setup_game_expects
           [Line "7"; Line "x"; Line " 4 "; Line "1"] [Line "1"] 4 init 2 10
           false 60).
  left. reflexivity.
Defined.

(* ================================================================== *)
(** ** game.py: the ranges of the statistics *)
(* ================================================================== *)

Local Open Scope Q_scope.

(** The quotient of two ints [0 <= c <= n] as a float: between 0 and 1,
    and exactly 0 or 1 at the ends. *)
Lemma int_ratio_between (c n : Z) :
  (0 <= c <= n)%Z -> (0 < n)%Z ->
  exists q : Q,
    num_truediv (PyInt c) (PyInt n) = Ok (Fin q)
    /\ 0 <= q /\ q <= 1
    /\ (c = n -> q == 1) /\ (c = 0%Z -> q == 0).
Proof.
  intros Hc Hn. unfold num_truediv.
  destruct (Z.eqb_spec n 0) as [->|_]; [lia|].
  set (x := (c # 1) / (n # 1)).
  assert (Pn : 0 < n # 1) by (unfold Qlt; simpl; lia).
  assert (Pc : 0 <= c # 1) by (unfold Qle; simpl; lia).
  assert (Cn : c # 1 <= n # 1) by (unfold Qle; simpl; lia).
  assert (Hq : 0 <= x /\ x <= 1).
  { split; [apply Qle_shift_div_l; lra|apply Qle_shift_div_r; lra]. }
  destruct (rnd_between x 0 1) as (q & E & H1 & H2);
    try lia; try reflexivity;
    try (change (inject_Z 0) with 0; change (inject_Z 1) with 1; lra).
  change (inject_Z 0) with 0 in H1. change (inject_Z 1) with 1 in H2.
  rewrite E. exists q. split; [reflexivity|]. split; [exact H1|].
  split; [exact H2|]. split.
  - intros ->.
    assert (X : x == 1) by (unfold x; field; lra).
    destruct (rnd_between x 1 1) as (q' & E' & H1' & H2');
      try lia; try reflexivity;
      try (change (inject_Z 1) with 1; lra).
    rewrite E in E'. injection E' as <-.
    change (inject_Z 1) with 1 in *. lra.
  - intros ->.
    assert (X : x == 0) by (unfold x; field; lra).
    destruct (rnd_between x 0 0) as (q' & E' & H1' & H2');
      try lia; try reflexivity;
      try (change (inject_Z 0) with 0; lra).
    rewrite E in E'. injection E' as <-.
    change (inject_Z 0) with 0 in *. lra.
Qed.

Lemma percent_between (q : Q) :
  0 <= q -> q <= 1 ->
  exists a : Q,
    num_mul (PyFloat (Fin q)) (PyInt 100) = Ok (PyFloat (Fin a))
    /\ 0 <= a /\ a <= 100
    /\ (q == 1 -> a == 100) /\ (q == 0 -> a == 0).
Proof.
  intros H0 H1. cbn [num_mul to_float].
  change (float_of_Z 100) with (Ok (Fin 100)). cbn [bind fmul].
  destruct (rnd_between (q * 100) 0 100) as (a & E & A1 & A2);
    try lia; try reflexivity;
    try (change (inject_Z 0) with 0; change (inject_Z 100) with 100; lra).
  change (inject_Z 0) with 0 in A1. change (inject_Z 100) with 100 in A2.
  rewrite E. exists a. split; [reflexivity|]. split; [exact A1|].
  split; [exact A2|]. split.
  - intros X.
    destruct (rnd_between (q * 100) 100 100) as (a' & E' & H1' & H2');
      try lia; try reflexivity;
      try (change (inject_Z 100) with 100; lra).
    rewrite E in E'. injection E' as <-.
    change (inject_Z 100) with 100 in *. lra.
  - intros X.
    destruct (rnd_between (q * 100) 0 0) as (a' & E' & H1' & H2');
      try lia; try reflexivity;
      try (change (inject_Z 0) with 0; lra).
    rewrite E in E'. injection E' as <-.
    change (inject_Z 0) with 0 in *. lra.
Qed.

Local Open Scope Z_scope.

Lemma fold_fadd_between (T : Z) (l : list float) :
  forall (acc : float) (A : Z),
    0 <= T -> 0 <= A -> between 0 A acc -> Forall (between 0 T) l ->
    A + T * Z.of_nat (List.length l) < 2 ^ 53 ->
    between 0 (A + T * Z.of_nat (List.length l)) (fold_left fadd l acc).
Proof.
  induction l as [|x l IH]; intros acc A HT HA Hacc Hl Hb.
  - cbn [fold_left List.length]. now replace (A + T * Z.of_nat 0) with A by lia.
  - inversion_clear Hl as [|? ? Hx Hl'].
    cbn [fold_left List.length] in *. rewrite Nat2Z.inj_succ in *.
    replace (A + T * Z.succ (Z.of_nat (List.length l)))
      with ((A + T) + T * Z.of_nat (List.length l)) in * by lia.
    apply IH; try lia; [|exact Hl'].
    pose proof (fadd_between 0 A 0 T acc x Hacc Hx ltac:(lia) ltac:(lia)
                  ltac:(nia)) as F.
    exact F.
Qed.

(** game.py, [get_game_stats]: for a session with at least one result,
    each taken in a time between 0 and [T] seconds, the statistics are
    computed without fault; the number of correct answers is between 0 and
    the number of rounds; the accuracy is a float between 0 and 100, which
    is exactly 100 when every answer was correct and exactly 0 when none
    was; and the average time lies between 0 and [T].  (The product of the
    number of results and [T + 1] is below [2^53], where the sums are
    exact enough to stay within the bounds.) *)
Theorem get_game_stats_ranges (self : MathGame) (T : Z) :
  results self <> [] -> 0 <= T ->
  Z.of_nat (List.length (results self)) * (T + 1) < 2 ^ 53 ->
  Forall (fun r => between 0 T (time_taken r)) (results self) ->
  exists (st : Stats.t) (acc : Q) (avg : float),
    get_game_stats self = Ok st
    /\ 0 <= Stats.correct_count st <= Stats.total_rounds st
    /\ Stats.total_rounds st = Z.of_nat (List.length (results self))
    /\ Stats.accuracy st = PyFloat (Fin acc)
    /\ (0 <= acc)%Q /\ (acc <= 100)%Q
    /\ (Stats.correct_count st = Stats.total_rounds st -> (acc == 100)%Q)
    /\ (Stats.correct_count st = 0 -> (acc == 0)%Q)
    /\ Stats.avg_time st = PyFloat avg
    /\ between 0 T avg.
Proof.
  intros Hne HT Hn Ht. unfold get_game_stats.
  destruct (results self) as [|r rs] eqn:Er; [congruence|].
  set (l := r :: rs) in *.
  set (n := Z.of_nat (List.length l)) in *.
  assert (Hn1 : 1 <= n) by (unfold n, l; cbn [List.length]; lia).
  assert (P53 : 2 ^ 53 = 9007199254740992) by reflexivity.
  destruct (Z.ltb_spec 0 n) as [_|]; [|lia].
  pose proof (count_correct_range l) as Hc. fold n in Hc.
  destruct (int_ratio_between (count_correct l) n Hc ltac:(lia))
    as (q & Eq & Q0 & Q1 & QA & QN).
  rewrite Eq. cbn [bind].
  destruct (percent_between q Q0 Q1) as (a & Ea & A0 & A1 & AA & AN).
  rewrite Ea. cbn [bind].
  assert (S : between 0 (T * n) (fold_left fadd (map time_taken l) (Fin 0))).
  { replace (T * n) with (0 + T * Z.of_nat (List.length (map time_taken l)))
      by (rewrite length_map; unfold n; lia).
    apply fold_fadd_between; try lia.
    - exists 0%Q. repeat split; discriminate.
    - clear -Ht. induction Ht; cbn [map]; constructor; assumption.
    - rewrite length_map. fold n. nia. }
  assert (Es : sum_floats (map time_taken l)
               = PyFloat (fold_left fadd (map time_taken l) (Fin 0))).
  { unfold l. reflexivity. }
  rewrite Es. destruct S as (s & Efs & S0 & S1). rewrite Efs.
  cbn [num_truediv to_float bind].
  destruct (float_of_Z_between n ltac:(nia)) as (k & Ek & (kq & -> & K0 & K1)).
  rewrite Ek. cbn [bind].
  assert (Kn : (kq == inject_Z n)%Q) by lra.
  assert (Kp : (0 < kq)%Q).
  { rewrite Kn. change 0%Q with (inject_Z 0). rewrite <- Zlt_Qlt. lia. }
  unfold fdiv.
  assert (Ez : Qeq0 kq = false).
  { unfold Qeq0. apply Z.eqb_neq. intros E.
    destruct kq as [kn kd]. cbn [Qnum] in E. subst kn.
    unfold Qlt in Kp. cbn in Kp. lia. }
  rewrite Ez.
  assert (B : between 0 T (rnd (s / kq))).
  { apply between_rnd; try lia.
    - change (inject_Z 0) with 0%Q. apply Qle_shift_div_l; [exact Kp|].
      change (inject_Z 0) with 0%Q in S0. lra.
    - apply Qle_shift_div_r; [exact Kp|].
      rewrite Kn, <- inject_Z_mult. exact S1. }
  destruct B as (m & Em & M0 & M1). rewrite Em. cbn [bind].
  eexists _, a, (Fin m). split; [reflexivity|].
  cbn [Stats.correct_count Stats.total_rounds Stats.accuracy Stats.avg_time].
  split; [exact Hc|]. split; [reflexivity|]. split; [reflexivity|].
  split; [exact A0|]. split; [exact A1|].
  split; [intros E; apply AA, QA, E|].
  split; [intros E; apply AN, QN, E|].
  split; [reflexivity|]. now exists m.
Qed.

Lemma get_game_stats_ranges_witness :
  exists (st : Stats.t) (acc : Q) (avg : float),
    get_game_stats
      (add_result (session 1 0)
         (mkRoundResult true (Fin 2) "1 + 1" (Some "2") "2" (Some 130))) = Ok st
    /\ Stats.accuracy st = PyFloat (Fin acc)
    /\ (acc <= 100)%Q
    /\ between 0 60 avg.
Proof.
  destruct (get_game_stats_ranges
              (add_result (session 1 0)
                 (mkRoundResult true (Fin 2) "1 + 1" (Some "2") "2" (Some 130)))
              60)
    as (st & acc & avg & E & _ & _ & Ea & _ & A1 & _ & _ & _ & B).
  - discriminate.
  - lia.
  - reflexivity.
  - repeat constructor. exists 2%Q. repeat split; discriminate.
  - exists st, acc, avg. auto.
Defined.

(* ================================================================== *)
(** ** high_scores.py: the fresh table *)
(* ================================================================== *)

Lemma dict_get_Forall {V : Type} (P : V -> Prop) (d : dict string V)
    (k : string) (v : V) :
  Forall (fun kv => P (snd kv)) d -> dict_get String.eqb d k = Some v -> P v.
Proof.
  induction 1 as [|[k' v'] d H _ IH]; cbn [dict_get]; [discriminate|].
  destruct (String.eqb k' k); [|exact IH]. now intros [= <-].
Qed.

Lemma default_buckets_zero (gm op key : string) (e : HighScoreManager.entry) :
  HighScoreManager.bucket HighScoreManager.create_default_scores gm op key
  = Some e ->
  e = HighScoreManager.zero_entry.
Proof.
  unfold HighScoreManager.bucket.
  assert (Z : Forall (fun kv => Forall (fun kv' => snd kv' = HighScoreManager.zero_entry)
                                   (snd kv))
                (HighScoreManager.get_mode HighScoreManager.create_default_scores gm)).
  { unfold HighScoreManager.get_mode.
    destruct (String.eqb gm "normal_mode"); vm_compute; repeat constructor. }
  destruct (dict_get String.eqb _ op) as [by_difficulty|] eqn:E; [|discriminate].
  intros H.
  pose proof (dict_get_Forall
                (fun d => Forall (fun kv' => snd kv' = HighScoreManager.zero_entry) d)
                _ op by_difficulty Z E) as F.
  exact (dict_get_Forall (fun e => e = HighScoreManager.zero_entry)
           by_difficulty key e F H).
Qed.

(** high_scores.py, [_create_default_scores] with [get_high_score] and
    [update_high_score]: on the table a first start creates,
    [get_high_score] returns the zero entry for every mode, operation and
    difficulty, and the first game recorded under a valid mode with a
    positive total is always a new high score, over the previous score 0;
    a total of 0 or less is never one. *)
Theorem fresh_table_takes_any_positive_score :
  (forall (game_mode : string) (operation_type difficulty : Z),
     HighScoreManager.get_high_score HighScoreManager.create_default_scores
       game_mode operation_type difficulty
     = HighScoreManager.zero_entry)
  /\ (forall (now game_mode : string) (operation_type difficulty : Z)
             (stats : Stats.t) (average_difficulty : option Z),
        HighScoreManager.is_mode game_mode = true ->
        time_like (Stats.avg_time stats) ->
        0 <= Stats.total_rounds stats < 2 ^ 62 ->
        fst (HighScoreManager.update_high_score
               HighScoreManager.create_default_scores now game_mode
               operation_type difficulty stats average_difficulty)
        = Ok (Some (0 <? Stats.total_score stats, 0))).
Proof.
  split.
  - intros gm op d. unfold HighScoreManager.get_high_score.
    destruct (HighScoreManager.is_mode gm); [|reflexivity].
    destruct (HighScoreManager.bucket _ _ _ _) as [e|] eqn:E; [|reflexivity].
    now apply default_buckets_zero in E.
  - intros now gm op d st avg H Ha Hn.
    destruct (update_high_score_outcome HighScoreManager.create_default_scores
                now gm op d st avg H) as (_ & _ & O).
    destruct (session_time_total (PyInt 0) (Stats.avg_time st)
                (Stats.total_rounds st)) as (tp & Etp & _);
      [now left|exact Ha|exact Hn|].
    change (HighScoreManager.total_time_played
              (HighScoreManager.stats HighScoreManager.create_default_scores))
      with (PyInt 0) in O.
    rewrite Etp in O. destruct O as (F & _). rewrite F.
    destruct (HighScoreManager.bucket _ _ _ _) as [e|] eqn:E; [|reflexivity].
    apply default_buckets_zero in E. now subst e.
Qed.

Lemma fresh_table_takes_any_positive_score_witness :
  fst (HighScoreManager.update_high_score
         HighScoreManager.create_default_scores "2026-01-01 10:00" "normal_mode"
         9 4 (Stats.mk 3 2 (PyFloat (Fin (200 # 3))) (PyFloat (Fin 2)) 320) None)
  = Ok (Some (true, 0)).
Proof.
  apply (proj2 fresh_table_takes_any_positive_score "2026-01-01 10:00"
           "normal_mode" 9 4
           (Stats.mk 3 2 (PyFloat (Fin (200 # 3))) (PyFloat (Fin 2)) 320) None).
  - reflexivity.
  - right. eexists. reflexivity.
  - cbn. lia.
Defined.

(* ================================================================== *)
(** ** questions.py: generate_question *)
(* ================================================================== *)

Section DispatchFacts.

Variable str_round_2 : float -> string.
Variable gen_perc gen_exp gen_array : Z -> rand (result (string * string)).

Let gq := generate_question str_round_2 gen_perc gen_exp gen_array.

(** An operation other than the mixed challenge needs one call. *)
Lemma generate_question_one_call (fuel : nat) (op d : Z) (s : list Z) :
  op <> OPERATION_MIXED ->
  gq (S fuel) op d s = gq 1 op d s.
Proof.
  intros N. unfold gq. cbn [generate_question].
  repeat match goal with
         | |- context [?a =? ?b] =>
             destruct (Z.eqb_spec a b); [reflexivity|]
         end.
  destruct (Z.eqb_spec op OPERATION_MIXED); [contradiction|reflexivity].
Qed.

(** The mixed challenge: one draw, then one call. *)
Lemma generate_question_mixed (fuel : nat) (d : Z) (s : list Z) :
  gq (S (S fuel)) OPERATION_MIXED d s
  = (random_op <~ random_randint 1 8 ;; gq 1 random_op d)%rand s.
Proof.
  unfold gq at 1. cbn [generate_question].
  change (OPERATION_MIXED =? OPERATION_ADD) with false.
  change (OPERATION_MIXED =? OPERATION_SUB) with false.
  change (OPERATION_MIXED =? OPERATION_MUL) with false.
  change (OPERATION_MIXED =? OPERATION_DIV) with false.
  change (OPERATION_MIXED =? OPERATION_FRAC) with false.
  change (OPERATION_MIXED =? OPERATION_PERC) with false.
  change (OPERATION_MIXED =? OPERATION_EXP) with false.
  change (OPERATION_MIXED =? OPERATION_ARRAY) with false.
  change (OPERATION_MIXED =? OPERATION_MIXED) with true.
  cbv iota. unfold rbind.
  destruct (random_randint 1 8 s) as [[v s']|] eqn:E; [|reflexivity].
  apply random_randint_inv in E. destruct E as [Hv _].
  apply (generate_question_one_call fuel v d s').
  unfold OPERATION_MIXED. lia.
Qed.

(** One call never runs out. *)
Lemma generate_question_answers (op d : Z) (s : list Z) r rest :
  op <> OPERATION_MIXED -> gq 1 op d s = Some (r, rest) -> r <> None.
Proof.
  intros N. unfold gq. cbn [generate_question]. unfold rbind, rret.
  repeat match goal with
         | |- context [?a =? ?b] => destruct (Z.eqb_spec a b)
         end;
    try contradiction;
    match goal with
    | |- context [match ?g with Some _ => _ | None => _ end] =>
        destruct g as [[? ?]|]; [|discriminate]
    end; intros [= <- _]; discriminate.
Qed.

(** questions.py, [generate_question]: the mixed challenge draws an
    operation between 1 and 8 and generates its question, so that the
    function never calls itself more than once: two levels of calls
    suffice for every operation and every outcome of the random module.
    An operation type outside 1..9 gives an addition question, with a
    notice. *)
Theorem generate_question_calls_itself_once
    (fuel : nat) (operation_type' difficulty' : Z) (stream : list Z) :
  (2 <= fuel)%nat ->
  gq fuel operation_type' difficulty' stream
  = gq 2 operation_type' difficulty' stream
  /\ (forall r rest,
        gq fuel operation_type' difficulty' stream = Some (r, rest) ->
        r <> None)
  /\ (operation_type' = OPERATION_MIXED ->
      forall random_op rest,
        stream = random_op :: rest -> 1 <= random_op <= 8 ->
        gq fuel operation_type' difficulty' stream
        = gq 1 random_op difficulty' rest)
  /\ (operation_type' < 1 \/ 9 < operation_type' ->
      gq fuel operation_type' difficulty' stream
      = (qa <~ generate_addition_question difficulty' ;;
         rret (Some (Ok qa,
                     ["This operation is coming soon! Using addition for now."]%string)))%rand
          stream).
Proof.
  intros Hf. destruct fuel as [|[|fuel]]; try lia.
  assert (E2 : gq (S (S fuel)) operation_type' difficulty' stream
               = gq 2 operation_type' difficulty' stream).
  { destruct (Z.eq_dec operation_type' OPERATION_MIXED) as [->|N].
    - now rewrite !generate_question_mixed.
    - rewrite (generate_question_one_call (S fuel)) by assumption.
      now rewrite (generate_question_one_call 1) by assumption. }
  split; [exact E2|]. split; [|split].
  - intros r rest H.
    destruct (Z.eq_dec operation_type' OPERATION_MIXED) as [->|N].
    + rewrite generate_question_mixed in H. unfold rbind in H.
      destruct (random_randint 1 8 stream) as [[v s']|] eqn:E; [|discriminate H].
      apply random_randint_inv in E. destruct E as [Hv _].
      apply (generate_question_answers v difficulty' s' r rest); [|exact H].
      unfold OPERATION_MIXED. lia.
    + rewrite (generate_question_one_call (S fuel)) in H by assumption.
      now apply (generate_question_answers operation_type' difficulty' stream r rest).
  - intros -> v rest -> Hv. rewrite generate_question_mixed.
    unfold rbind, random_randint.
    now replace ((1 <=? v) && (v <=? 8)) with true
      by (symmetry; apply andb_true_iff; split; apply Z.leb_le; lia).
  - intros Ho.
    rewrite (generate_question_one_call (S fuel))
      by (unfold OPERATION_MIXED; lia).
    unfold gq. cbn [generate_question].
    repeat match goal with
           | |- context [?a =? ?b] =>
               destruct (Z.eqb_spec a b);
               [unfold OPERATION_ADD, OPERATION_SUB, OPERATION_MUL,
                  OPERATION_DIV, OPERATION_FRAC, OPERATION_PERC, OPERATION_EXP,
                  OPERATION_ARRAY, OPERATION_MIXED in *; lia|]
           end.
    reflexivity.
Qed.

End DispatchFacts.

Lemma generate_question_calls_itself_once_witness :
  let other := fun _ : Z => (fun _ => None) : rand (result (string * string)) in
  generate_question (fun _ => "?"%string) other other other 5 9 1 [2; 3; 7]
  = generate_question (fun _ => "?"%string) other other other 2 9 1 [2; 3; 7].
Proof.
  intros other.
  apply (proj1 (generate_question_calls_itself_once (fun _ => "?"%string)
                  other other other 5 9 1 [2; 3; 7] ltac:(lia))).
Defined.

(* ================================================================== *)
(** ** operations.py: percentage questions *)
(* ================================================================== *)

Local Open Scope Q_scope.

(** The quotient of two ints [0 <= a <= K * b] as a float lies between 0
    and [K]. *)
Lemma small_ratio_between (a b K : Z) :
  (0 <= a)%Z -> (1 <= b)%Z -> (a <= K * b)%Z -> (K < 2 ^ 53)%Z ->
  exists x, num_truediv (PyInt a) (PyInt b) = Ok x /\ between 0 K x.
Proof.
  intros Ha Hb Hab HK. unfold num_truediv.
  destruct (Z.eqb_spec b 0) as [->|_]; [lia|].
  set (x := (a # 1) / (b # 1)).
  assert (Pb : 0 < b # 1) by (unfold Qlt; simpl; lia).
  assert (Pa : 0 <= a # 1) by (unfold Qle; simpl; lia).
  assert (Cb : a # 1 <= inject_Z K * (b # 1)).
  { unfold Qle, inject_Z, Qmult. simpl. lia. }
  assert (K0 : (0 <= K)%Z) by nia.
  assert (Hq : inject_Z 0 <= x /\ x <= inject_Z K).
  { change (inject_Z 0) with 0.
    split; [apply Qle_shift_div_l; lra|apply Qle_shift_div_r; lra]. }
  destruct (rnd_between x 0 K) as (q & E & H1 & H2); try lia; try tauto.
  rewrite E. exists (Fin q). split; [reflexivity|]. now exists q.
Qed.

(** A float between 0 and 100 divided by the int 100. *)
Lemma hundredth_between (x : float) :
  between 0 100 x ->
  exists y, num_truediv (PyFloat x) (PyInt 100) = Ok y /\ between 0 1 y.
Proof.
  intros (q & -> & H1 & H2). cbn [num_truediv to_float].
  change (float_of_Z 100) with (Ok (Fin 100)). cbn [bind fdiv].
  change (Qeq0 100) with false. cbv iota.
  change (inject_Z 0) with 0 in H1. change (inject_Z 100) with 100 in H2.
  destruct (rnd_between (q / 100) 0 1) as (a & E & A1 & A2);
    try lia; try reflexivity.
  - change (inject_Z 0) with 0. apply Qle_shift_div_l; lra.
  - change (inject_Z 1) with 1. apply Qle_shift_div_r; lra.
  - rewrite E. exists (Fin a). split; [reflexivity|]. now exists a.
Qed.

(** [1 - r] for a float [r] between 0 and 1. *)
Lemma one_minus_between (r : float) :
  between 0 1 r ->
  exists y, num_sub (PyInt 1) (PyFloat r) = Ok (PyFloat y) /\ between 0 1 y.
Proof.
  intros (q & -> & H1 & H2). cbn [num_sub to_float].
  change (float_of_Z 1) with (Ok (Fin 1)). cbn [bind fsub fneg fadd].
  change (inject_Z 0) with 0 in H1. change (inject_Z 1) with 1 in H2.
  eexists. split; [reflexivity|].
  destruct (Qeq0 (- q)) eqn:Z0.
  - exists 1. split; [reflexivity|]. split; discriminate.
  - change (Qeq0 1) with false. cbv iota.
    apply between_rnd; try lia;
      [change (inject_Z 0) with 0|change (inject_Z 1) with 1]; lra.
Qed.

Local Open Scope Z_scope.

(** The product of a float between 0 and [B] and an int [0 <= n <= N]. *)
Lemma float_times_int_between (h : float) (n B N : Z) :
  between 0 B h -> 0 <= n <= N -> 0 <= B -> B * N < 2 ^ 53 -> N < 2 ^ 53 ->
  exists v, num_mul (PyFloat h) (PyInt n) = Ok (PyFloat v)
            /\ between 0 (B * N) v.
Proof.
  intros Hh Hn HB HBN HN. cbn [num_mul to_float bind].
  destruct (float_of_Z_between n ltac:(lia)) as (y & Ey & Hy).
  rewrite Ey. cbn [bind]. eexists. split; [reflexivity|].
  apply (between_weaken (0 * n) (B * n)); [|lia|nia].
  apply fmul_between; try assumption; try lia. nia.
Qed.

Lemma int_times_float_between (f : float) (n A B N : Z) :
  between A B f -> 0 <= n <= N -> 0 <= A -> 0 <= B -> N * B < 2 ^ 53 ->
  N < 2 ^ 53 ->
  exists v, num_mul (PyInt n) (PyFloat f) = Ok (PyFloat v)
            /\ between 0 (N * B) v.
Proof.
  intros Hf Hn HA HB HNB HN. cbn [num_mul to_float bind].
  destruct (float_of_Z_between n ltac:(lia)) as (y & Ey & Hy).
  rewrite Ey. cbn [bind]. eexists. split; [reflexivity|].
  apply (between_weaken (n * A) (n * B)); [|nia|nia].
  apply fmul_between; try assumption; try lia. nia.
Qed.

(** [P / 100] for a percentage between 0 and 100, int or float. *)
Lemma hundredth_of (pn : number) :
  num_between 0 100 pn ->
  exists h, num_truediv pn (PyInt 100) = Ok h /\ between 0 1 h.
Proof.
  destruct pn as [p|x]; cbn [num_between]; intros H.
  - apply small_ratio_between; lia.
  - now apply hundredth_between.
Qed.

Lemma percent_of_runs (str_float : float -> string) (pn : number) (n : Z) :
  num_between 0 100 pn -> 0 <= n <= 2000 ->
  exists v,
    percent_of str_float pn (PyInt n)
    = Ok ("What is " ++ str_number str_float pn ++ "% of " ++ str_of_Z n ++ "?",
          PyFloat v)
    /\ between 0 2000 v.
Proof.
  intros Hp Hn. unfold percent_of.
  destruct (hundredth_of pn Hp) as (h & Eh & Hh). rewrite Eh. cbn [bind].
  destruct (float_times_int_between h n 1 2000 Hh Hn) as (v & Ev & Hv);
    try lia.
  rewrite Ev. cbn [bind]. exists v. split; [reflexivity|exact Hv].
Qed.

(** [number * (1 + P / 100)] and [number * (1 - P / 100)]. *)
Lemma markup_runs (number' p : Z) :
  0 <= p <= 100 -> 0 <= number' <= 1000 ->
  exists h f v,
    num_truediv (PyInt p) (PyInt 100) = Ok h
    /\ num_add (PyInt 1) (PyFloat h) = Ok f
    /\ num_mul (PyInt number') f = Ok (PyFloat v)
    /\ between 0 2000 v.
Proof.
  intros Hp Hn.
  destruct (small_ratio_between p 100 1) as (h & Eh & Hh); try lia.
  exists h. cbn [num_add to_float]. change (float_of_Z 1) with (Ok (Fin 1)).
  cbn [bind]. eexists. 
  assert (F : between (1 + 0) (1 + 1) (fadd (Fin 1) h)).
  { apply fadd_between; try lia; [|exact Hh].
    exists 1%Q. split; [reflexivity|]. split; apply Qle_refl. }
  destruct (int_times_float_between (fadd (Fin 1) h) number' (1 + 0) (1 + 1)
              1000 F Hn) as (v & Ev & Hv); try lia.
  exists v. split; [exact Eh|]. split; [reflexivity|]. split; [exact Ev|].
  exact Hv.
Qed.

Lemma markdown_runs (number' p : Z) :
  0 <= p <= 100 -> 0 <= number' <= 1000 ->
  exists h f v,
    num_truediv (PyInt p) (PyInt 100) = Ok h
    /\ num_sub (PyInt 1) (PyFloat h) = Ok f
    /\ num_mul (PyInt number') f = Ok (PyFloat v)
    /\ between 0 2000 v.
Proof.
  intros Hp Hn.
  destruct (small_ratio_between p 100 1) as (h & Eh & Hh); try lia.
  destruct (one_minus_between h Hh) as (y & Ey & Hy).
  destruct (int_times_float_between y number' 0 1 1000 Hy Hn) as (v & Ev & Hv);
    try lia.
  exists h, (PyFloat y), v. split; [exact Eh|]. split; [exact Ey|].
  split; [exact Ev|]. apply (between_weaken 0 (1000 * 1)); [exact Hv|lia|lia].
Qed.

(** [(x / y) * 100] for ints [0 <= x <= y]. *)
Lemma ratio_percent_runs (x y : Z) :
  0 <= x <= y -> 1 <= y ->
  exists qt v,
    num_truediv (PyInt x) (PyInt y) = Ok qt
    /\ num_mul (PyFloat qt) (PyInt 100) = Ok (PyFloat v)
    /\ between 0 100 v.
Proof.
  intros Hx Hy.
  destruct (small_ratio_between x y 1) as (qt & Eq & Hq); try lia.
  destruct (float_times_int_between qt 100 1 100 Hq) as (v & Ev & Hv);
    try lia.
  exists qt, v. split; [exact Eq|]. split; [exact Ev|exact Hv].
Qed.

(** [int((P / 100) * Y)] in the easy questions: the product rounded
    down. *)
Lemma easy_percent_product (n p : Z) :
  5 <= n <= 10 -> In p [10; 20; 25; 50; 75] ->
  exists h m,
    num_truediv (PyInt p) (PyInt 100) = Ok h
    /\ num_mul (PyFloat h) (PyInt (n * 10)) = Ok m
    /\ int_of_number m = Ok (p * (n * 10) / 100).
Proof.
  intros Hn Hp.
  assert (N : n = 5 \/ n = 6 \/ n = 7 \/ n = 8 \/ n = 9 \/ n = 10) by lia.
  cbn [In] in Hp.
  destruct N as [N|[N|[N|[N|[N|N]]]]]; subst n;
    destruct Hp as [P|[P|[P|[P|[P|[]]]]]]; subst p;
    eexists _, _; (split; [vm_compute; reflexivity|]);
    (split; [vm_compute; reflexivity|]); vm_compute; reflexivity.
Qed.

Lemma some_pair_inv {A B : Type} (a c : A) (b d : B) :
  Some (a, b) = Some (c, d) -> a = c /\ b = d.
Proof. intros [= -> ->]. now split. Qed.

(** The branches of [generate_percentage_question]. *)
Ltac percent_of_branch :=
  match goal with
  | |- context [percent_of ?str_float ?pn (PyInt ?n)] =>
      let x := fresh "x" in
      let Ex := fresh "Ex" in
      let Hx := fresh "Hx" in
      destruct (percent_of_runs str_float pn n) as (x & Ex & Hx);
      [ cbn [num_between]; first [assumption | cbn [In] in *; lia]
      | lia
      | rewrite Ex; cbn [bind str_number];
        eexists _, _; split; [reflexivity|]; split; [reflexivity|];
        left; split; [reflexivity|]; exists pn, n, x;
        split; [intros [?|?]; first [eexists; reflexivity | contradiction]|];
        split; [reflexivity|]; split; [exact Hx|reflexivity] ]
  end.

Ltac what_percent_easy_branch :=
  match goal with
  | |- context [num_mul _ (PyInt (?n * 10))] =>
      match goal with
      | |- context [num_truediv (PyInt ?p) (PyInt 100)] =>
          let h := fresh "h" in
          let m := fresh "m" in
          let E1 := fresh "E" in
          let E2 := fresh "E" in
          let E3 := fresh "E" in
          destruct (easy_percent_product n p) as (h & m & E1 & E2 & E3);
          [ lia | assumption
          | rewrite E1; cbn [bind]; rewrite E2; cbn [bind]; rewrite E3;
            cbn [bind str_number];
            eexists _, _; split; [reflexivity|]; split; [reflexivity|];
            right; left; split; [reflexivity|]; split; [assumption|];
            exists n, p; split; [lia|]; split; [assumption|];
            split; reflexivity ]
      end
  end.

Ltac markup_branch :=
  match goal with
  | |- context [num_mul (PyInt ?n) _] =>
      match goal with
      | |- context [num_truediv (PyInt ?p) (PyInt 100)] =>
          let h := fresh "h" in
          let f := fresh "f" in
          let x := fresh "x" in
          let E1 := fresh "E" in
          let E2 := fresh "E" in
          let E3 := fresh "E" in
          let Hx := fresh "Hx" in
          destruct (markup_runs n p) as (h & f & x & E1 & E2 & E3 & Hx);
          [ cbn [In] in *; lia | lia
          | rewrite E1; cbn [bind]; rewrite E2; cbn [bind]; rewrite E3;
            cbn [bind str_number];
            eexists _, _; split; [reflexivity|]; split; [reflexivity|];
            right; right; right; split; [reflexivity|];
            exists n, p, " + ", x; split; [now left|];
            split; [reflexivity|]; split; [exact Hx|reflexivity] ]
      end
  end.

Ltac ratio_branch digits :=
  match goal with
  | |- context [num_truediv (PyInt ?a) (PyInt ?b)] =>
      let qt := fresh "qt" in
      let x := fresh "x" in
      let E1 := fresh "E" in
      let E2 := fresh "E" in
      let Hx := fresh "Hx" in
      destruct (ratio_percent_runs a b) as (qt & x & E1 & E2 & Hx);
      [ lia | lia
      | rewrite E1; cbn [bind]; rewrite E2;
        cbn [bind round_number str_number];
        eexists _, _; split; [reflexivity|]; split; [reflexivity|];
        right; right; left; split; [reflexivity|]; split; [lia|];
        exists a, b, x, digits; split; [lia|]; split; [reflexivity|];
        split; [exact Hx|]; split; [lia|reflexivity] ]
  end.

(** What a run of [generate_percentage_question] gives, by the kind of
    question drawn first. *)
Lemma percentage_runs (round_to : float -> Z -> float)
    (str_float : float -> string) (difficulty' : Z) (stream : list Z)
    (r : result (string * string)) (rest : list Z) :
  generate_percentage_question round_to str_float difficulty' stream
  = Some (r, rest) ->
  exists (q_type : Z) (s : list Z) (question' answer : string),
    stream = q_type :: s /\ r = Ok (question', answer)
    /\ ((q_type = 1
         /\ exists (pn : number) (n : Z) (v : float),
              ((difficulty' = 1 \/ difficulty' = 2) -> exists p, pn = PyInt p)
              /\ question' = "What is " ++ str_number str_float pn ++ "% of "
                             ++ str_of_Z n ++ "?"
              /\ between 0 2000 v /\ answer = str_float (round_to v 2))
        \/ (q_type = 2 /\ difficulty' = 1
            /\ exists n p : Z,
                 5 <= n <= 10 /\ In p [10; 20; 25; 50; 75]
                 /\ question' = what_percent (p * (n * 10) / 100) (n * 10)
                 /\ answer = str_of_Z p)
        \/ (q_type = 2 /\ difficulty' <> 1
            /\ exists (x y : Z) (v : float) (n : Z),
                 1 <= x <= y /\ question' = what_percent x y
                 /\ between 0 100 v /\ 1 <= n <= 2
                 /\ answer = str_float (round_to (round_to v n) 2))
        \/ (q_type = 3
            /\ exists (number' p : Z) (sign : string) (v : float),
                 (sign = " + " \/ sign = " - ")
                 /\ question' = str_of_Z number' ++ sign ++ str_of_Z p ++ "%"
                 /\ between 0 2000 v /\ answer = str_float (round_to v 2))).
Proof.
  intros H. unfold generate_percentage_question, rbind in H.
  draw H. subst stream.
  assert (Q : v = 1 \/ v = 2 \/ v = 3) by lia.
  exists v, s.
  destruct (Z.eqb_spec difficulty' 1) as [D1|D1];
    [|destruct (Z.eqb_spec difficulty' 2) as [D2|D2]];
    destruct Q as [Q|[Q|Q]]; subst v; cbv beta iota in H;
    repeat match type of H with
           | context [?a =? ?b] =>
               let c := eval vm_compute in (a =? b) in
               change (a =? b) with c in H
           end;
    cbv beta iota in H; draw H; draw H; unfold rret in H;
    apply some_pair_inv in H; destruct H as [<- <-].
  - percent_of_branch.
  - what_percent_easy_branch.
  - markup_branch.
  - percent_of_branch.
  - ratio_branch 1.
  - markup_branch.
  - match goal with
    | |- context [num_truediv (PyInt ?a) (PyInt 10)] =>
        destruct (small_ratio_between a 10 100) as (x & Ex & Hx); try lia;
        rewrite Ex; cbn [bind]
    end.
    percent_of_branch.
  - ratio_branch 2.
  - match goal with
    | |- context [num_mul (PyInt ?n) _] =>
        match goal with
        | |- context [num_truediv (PyInt ?p) (PyInt 100)] =>
            destruct (markdown_runs n p) as (h & f & x & E1 & E2 & E3 & Hx);
            try lia;
            rewrite E1; cbn [bind]; rewrite E2; cbn [bind]; rewrite E3;
            cbn [bind str_number];
            eexists _, _; split; [reflexivity|]; split; [reflexivity|];
            right; right; right; split; [reflexivity|];
            exists n, p, " - ", x; split; [now right|];
            split; [reflexivity|]; split; [exact Hx|reflexivity]
        end
    end.
Qed.

(** *** What the prompt of [get_answer] lets through without decimals *)

Lemma contains_lstrip_of (p : ascii -> bool) (c : ascii) (s : string) :
  p c = false -> contains c (lstrip_of p s) = contains c s.
Proof.
  intros Hc. induction s as [|x s IH]; cbn [lstrip_of]; [reflexivity|].
  destruct (p x) eqn:Ex; [|reflexivity].
  rewrite IH. cbn [contains].
  destruct (Ascii.eqb_spec x c) as [->|_]; [congruence|reflexivity].
Qed.

Lemma contains_rstrip_of (p : ascii -> bool) (c : ascii) (s : string) :
  p c = false -> contains c (rstrip_of p s) = contains c s.
Proof.
  intros Hc. induction s as [|x s IH]; cbn [rstrip_of]; [reflexivity|].
  cbn [contains]. rewrite <- IH.
  destruct (rstrip_of p s) as [|y r]; [|reflexivity].
  destruct (p x) eqn:Ex; [|reflexivity].
  cbn [contains]. destruct (Ascii.eqb_spec x c) as [->|_]; [congruence|reflexivity].
Qed.

Lemma contains_split (sep c : ascii) (s : string) :
  sep <> c -> contains c s = existsb (contains c) (split sep s).
Proof.
  intros N. induction s as [|x s IH]; cbn [split]; [reflexivity|].
  cbn [contains]. destruct (Ascii.eqb_spec x sep) as [->|_].
  - cbn [existsb contains]. rewrite <- IH.
    destruct (Ascii.eqb_spec sep c) as [E|_]; [contradiction|reflexivity].
  - rewrite IH. destruct (split sep s) as [|h t]; cbn [existsb contains].
    + now rewrite !orb_false_r.
    + now rewrite orb_assoc.
Qed.

(** An int literal has no decimal point. *)
Lemma py_int_no_dot (s : string) (z : Z) :
  py_int s = Ok z -> contains "." s = false.
Proof.
  unfold py_int, literal_of. intros H.
  rewrite <- (contains_lstrip_of is_literal_space "." s) by reflexivity.
  rewrite <- (contains_rstrip_of is_literal_space "."
                (lstrip_of is_literal_space s)) by reflexivity.
  destruct (take_sign _) as [neg body] eqn:T.
  destruct (digits body) as [u|] eqn:D; [|discriminate].
  destruct (digits_chars (String.length body) body u (le_n _) D) as (F & _).
  assert (B : contains "." body = false).
  { apply (contains_forall "." (fun c => is_digit c || Ascii.eqb c "_") body);
      [reflexivity|exact F]. }
  unfold take_sign in T.
  destruct (rstrip_of is_literal_space (lstrip_of is_literal_space s))
    as [|a r]; [now injection T as _ <-|].
  destruct (Ascii.eqb_spec a "-") as [->|N1];
    [injection T as _ <-; cbn [contains]; exact B|].
  destruct (Ascii.eqb_spec a "+") as [->|N2];
    [injection T as _ <-; cbn [contains]; exact B|].
  assert (T' : (false, String a r) = (neg, body)).
  { rewrite <- T.
    destruct a as [[|] [|] [|] [|] [|] [|] [|] [|]];
      try reflexivity; contradiction. }
  injection T' as _ <-. exact B.
Qed.

(** An answer the prompt lets through when it asks for an int: an int
    literal, or two of them around a slash. *)
Lemma valid_answer_no_dot (a : string) :
  valid_answer false a -> contains "." a = false.
Proof.
  intros (_ & _ & V).
  destruct (contains "/" a).
  - destruct V as (p0 & p1 & n & m & S & H0 & H1 & _).
    rewrite (contains_split "/" "." a) by discriminate.
    rewrite S. cbn [existsb].
    now rewrite (py_int_no_dot p0 n H0), (py_int_no_dot p1 m H1).
  - destruct V as (z & Hz). exact (py_int_no_dot a z Hz).
Qed.

Lemma allow_float_for_no_marks (q : string) :
  contains "/" q = false -> contains "." q = false ->
  contains (ascii_of_nat 224) q = false ->
  allow_float_for q = false.
Proof.
  intros H1 H2 H3. unfold allow_float_for. rewrite H1, H2. cbn [orb].
  now apply substring_in_no_head.
Qed.

(** operations.py, [generate_percentage_question], the easy questions
    [X is what percent of Y?]: [Y] is one of 50, 60, .., 100, the expected
    answer is the percentage drawn from 10, 20, 25, 50 and 75, and the [X]
    shown is [int((percentage / 100) * Y)], which is the exact product
    [percentage * Y / 100] rounded down.  So the expected answer is the
    percentage that [X] is of [Y] except for the percentages 25 and 75 of
    50, 70 and 90, where the [X] shown is half a unit short of the
    product. *)
Theorem easy_percent_questions_round_down
    (round_to : float -> Z -> float) (str_float : float -> string)
    (stream : list Z) (r : result (string * string)) (rest : list Z) :
  generate_percentage_question round_to str_float 1 (2 :: stream)
  = Some (r, rest) ->
  exists y percentage x : Z,
    In y [50; 60; 70; 80; 90; 100] /\ In percentage [10; 20; 25; 50; 75]
    /\ x = percentage * y / 100
    /\ r = Ok (str_of_Z x ++ " is what percent of " ++ str_of_Z y ++ "?",
               str_of_Z percentage)
    /\ (100 * x = percentage * y \/ 100 * x = percentage * y - 50)
    /\ (100 * x = percentage * y - 50
        <-> In percentage [25; 75] /\ In y [50; 70; 90]).
Proof.
  intros H.
  destruct (percentage_runs _ _ _ _ _ _ H)
    as (q_type & s & question' & answer & Es & Er & C).
  injection Es as <- <-.
  destruct C as [(Q & _)|[(_ & _ & n & p & Hn & Hp & Hq & Ha)
                         |[(_ & D & _)|(Q & _)]]];
    try discriminate Q; try (now contradiction D).
  exists (n * 10), p, (p * (n * 10) / 100).
  split; [cbn [In]; lia|]. split; [exact Hp|]. split; [reflexivity|].
  split; [now rewrite Er, Hq, Ha|].
  clear H Er Hq Ha.
  assert (N : n = 5 \/ n = 6 \/ n = 7 \/ n = 8 \/ n = 9 \/ n = 10) by lia.
  cbn [In] in Hp.
  destruct N as [N|[N|[N|[N|[N|N]]]]]; subst n;
    destruct Hp as [P|[P|[P|[P|[P|[]]]]]]; subst p;
    vm_compute; clear; intuition (try discriminate; try reflexivity).
Qed.

Lemma easy_percent_questions_round_down_witness :
  exists y percentage x : Z,
    In y [50; 60; 70; 80; 90; 100] /\ In percentage [10; 20; 25; 50; 75]
    /\ x = percentage * y / 100
    /\ Ok ("12 is what percent of 50?", "25")
       = Ok (str_of_Z x ++ " is what percent of " ++ str_of_Z y ++ "?",
             str_of_Z percentage)
    /\ (100 * x = percentage * y \/ 100 * x = percentage * y - 50)
    /\ (100 * x = percentage * y - 50
        <-> In percentage [25; 75] /\ In y [50; 70; 90]).
Proof.
  apply (easy_percent_questions_round_down (fun x _ => x) (fun _ => "")
           [5; 2] (Ok ("12 is what percent of 50?", "25")) []).
  vm_compute. reflexivity.
Defined.

(** operations.py, [generate_percentage_question]: whatever the random
    module returns and at every difficulty, the generator raises nothing.
    The expected answer of the easy [X is what percent of Y?] is the
    decimal form of the int drawn; every other answer is a float rounded
    to two places and written by [str]: a finite float between 0 and 2000,
    or, in the [what percent] questions of the other difficulties, a float
    between 0 and 100 rounded to one or two places before. *)
Theorem percentage_questions_raise_nothing
    (round_to : float -> Z -> float) (str_float : float -> string)
    (difficulty' : Z) (stream : list Z) (r : result (string * string))
    (rest : list Z) :
  generate_percentage_question round_to str_float difficulty' stream
  = Some (r, rest) ->
  exists question' answer : string,
    r = Ok (question', answer)
    /\ ((difficulty' = 1
         /\ exists p : Z, In p [10; 20; 25; 50; 75] /\ answer = str_of_Z p)
        \/ (exists v : float,
              between 0 2000 v /\ answer = str_float (round_to v 2))
        \/ (difficulty' <> 1
            /\ exists (v : float) (n : Z),
                 between 0 100 v /\ 1 <= n <= 2
                 /\ answer = str_float (round_to (round_to v n) 2))).
Proof.
  intros H.
  destruct (percentage_runs _ _ _ _ _ _ H)
    as (q_type & s & question' & answer & _ & Er & C).
  exists question', answer. split; [exact Er|].
  destruct C as [(_ & pn & n & v & _ & _ & Hv & Ha)
                |[(_ & D & n & p & _ & Hp & _ & Ha)
                 |[(_ & D & x & y & v & n & _ & _ & Hv & Hn & Ha)
                  |(_ & number' & p & sign & v & _ & _ & Hv & Ha)]]].
  - right. left. now exists v.
  - left. split; [exact D|]. now exists p.
  - right. right. split; [exact D|]. now exists v, n.
  - right. left. now exists v.
Qed.

Lemma percentage_questions_raise_nothing_witness :
  exists question' answer : string,
    Ok ("1000 - 75%", "250.0") = Ok (question', answer)
    /\ ((3 = 1
         /\ exists p : Z, In p [10; 20; 25; 50; 75] /\ answer = str_of_Z p)
        \/ (exists v : float, between 0 2000 v /\ answer = "250.0")
        \/ (3 <> 1
            /\ exists (v : float) (n : Z),
                 between 0 100 v /\ 1 <= n <= 2 /\ answer = "250.0")).
Proof.
  apply (percentage_questions_raise_nothing
           (fun x _ => x) (fun _ => "250.0")
           3 [3; 1000; 75] (Ok ("1000 - 75%", "250.0")) []).
  vm_compute. reflexivity.
Defined.

(** operations.py, [generate_percentage_question], with cli.py,
    [get_answer]: a percentage question of the easy or the medium
    difficulty, and a hard one other than [What is P% of N?], has no slash,
    no dot and no division sign, so the prompt asks for an int: no answer
    that [get_answer] returns for it has a decimal point, and an expected
    answer written with one is never what the prompt returns. *)
Theorem percentage_questions_take_no_decimals
    (round_to : float -> Z -> float) (str_float : float -> string)
    (difficulty' q_type : Z) (stream : list Z) (q key : string)
    (rest : list Z) :
  generate_percentage_question round_to str_float difficulty'
    (q_type :: stream) = Some (Ok (q, key), rest) ->
  difficulty' = 1 \/ difficulty' = 2 \/ q_type <> 1 ->
  allow_float_for q = false
  /\ (forall (inputs : list keyboard) (typed : string),
        fst (fst (get_answer q inputs)) = Ok (Some typed) ->
        contains "." typed = false)
  /\ (contains "." key = true ->
      forall inputs : list keyboard,
        fst (fst (get_answer q inputs)) <> Ok (Some key)).
Proof.
  intros H Hd.
  assert (F : allow_float_for q = false).
  { destruct (percentage_runs _ _ _ _ _ _ H)
      as (q_type' & s & question' & answer & Es & Er & C).
    injection Es as <- <-. injection Er as -> ->.
    apply allow_float_for_no_marks;
      destruct C as [(Q & pn & n & v & Hp & -> & _)
                    |[(_ & _ & n & p & _ & _ & -> & _)
                     |[(_ & _ & x & y & v & n & _ & -> & _)
                      |(_ & number' & p & sign & v & [->| ->] & -> & _)]]];
      try (destruct Hp as (p & ->); [lia|]; cbn [str_number]);
      unfold what_percent;
      rewrite !contains_app, !contains_str_of_Z_other by reflexivity;
      reflexivity. }
  assert (T : forall inputs typed,
             fst (fst (get_answer q inputs)) = Ok (Some typed) ->
             contains "." typed = false).
  { intros inputs typed G. unfold get_answer in G.
    destruct (get_answer_loop_valid (allow_float_for q) inputs)
      as (o & out & rest' & E & V).
    rewrite E in G. cbn [fst] in G. injection G as ->.
    destruct V as (V & _). rewrite F in V. now apply valid_answer_no_dot. }
  split; [exact F|]. split; [exact T|].
  intros K inputs G. apply T in G. congruence.
Qed.

Lemma percentage_questions_take_no_decimals_witness :
  allow_float_for "What is 10% of 4?" = false
  /\ (forall (inputs : list keyboard) (typed : string),
        fst (fst (get_answer "What is 10% of 4?" inputs)) = Ok (Some typed) ->
        contains "." typed = false)
  /\ (contains "." "0.4" = true ->
      forall inputs : list keyboard,
        fst (fst (get_answer "What is 10% of 4?" inputs)) <> Ok (Some "0.4")).
Proof.
  apply (percentage_questions_take_no_decimals
           (fun x _ => x) (fun _ => "0.4") 1 1 [0; 1] "What is 10% of 4?"
           "0.4" []).
  - vm_compute. reflexivity.
  - left. reflexivity.
Defined.

(* ================================================================== *)
(** ** main.py: the basic questions and their judgement *)
(* ================================================================== *)

Lemma basic_answer_int (str_float : float -> string) (line : string) (z : Z) :
  py_int line = Ok z -> basic_answer str_float line = Ok (Some (str_of_Z z)).
Proof. intros H. unfold basic_answer. now rewrite H. Qed.

Lemma main_check_ints (z c : Z) :
  main_check (Some (str_of_Z z)) (str_of_Z c) = Ok (z =? c).
Proof.
  unfold main_check.
  rewrite !contains_str_of_Z, !contains_dot_str_of_Z. cbn [andb orb try_except].
  now rewrite str_of_Z_eqb.
Qed.

(** What a run of one of the generators of main.py gives. *)
Lemma main_whole_number_runs (difficulty' : Z) (stream : list Z) (q : string)
    (a : Z) (rest : list Z) :
  (Main.generate_addition_question difficulty' stream = Some ((q, a), rest) ->
   exists x y, 1 <= x <= 999 /\ 1 <= y <= 999
     /\ q = str_of_Z x ++ " + " ++ str_of_Z y /\ a = x + y)
  /\ (Main.generate_subtraction_question difficulty' stream
      = Some ((q, a), rest) ->
      exists x y, 1 <= y <= x /\ x <= 999
        /\ q = str_of_Z x ++ " - " ++ str_of_Z y /\ a = x - y)
  /\ (Main.generate_multiplication_question difficulty' stream
      = Some ((q, a), rest) ->
      exists x y, 1 <= x <= 99 /\ 1 <= y <= 30
        /\ q = str_of_Z x ++ " " ++ Main.times_sign ++ " " ++ str_of_Z y
        /\ a = x * y).
Proof.
  split; [|split]; intros H.
  - unfold Main.generate_addition_question, rbind in H.
    destruct (difficulty' =? 1); [|destruct (difficulty' =? 2)];
      draw H; subst; draw H; subst; unfold rret in H; cbv beta iota in H;
      injection H as <- <- <-; eexists _, _;
      (split; [|split; [|split; reflexivity]]); lia.
  - unfold Main.generate_subtraction_question, rbind in H.
    destruct (difficulty' =? 1); [|destruct (difficulty' =? 2)];
      draw H; subst; draw H; subst; unfold rret in H; cbv beta iota in H;
      injection H as <- <- <-; eexists _, _;
      (split; [|split; [|split; reflexivity]]); lia.
  - unfold Main.generate_multiplication_question, rbind in H.
    destruct (difficulty' =? 1); [|destruct (difficulty' =? 2)];
      draw H; subst; draw H; subst; unfold rret in H; cbv beta iota in H;
      injection H as <- <- <-; eexists _, _;
      (split; [|split; [|split; reflexivity]]); lia.
Qed.

Lemma main_division_runs (difficulty' : Z) (stream : list Z)
    (r : result (string * Z)) (rest : list Z) :
  Main.generate_division_question difficulty' stream = Some (r, rest) ->
  exists y multiple,
    1 <= y <= 25 /\ 1 <= multiple <= 40
    /\ (difficulty' = 1 -> y <= 10 /\ multiple <= 10)
    /\ r = Ok (str_of_Z (y * multiple) ++ " " ++ Main.division_sign ++ " "
               ++ str_of_Z y, multiple).
Proof.
  intros H. unfold Main.generate_division_question, rbind in H.
  assert (F : forall y m, 1 <= y ->
                int_floordiv (y * m) y = Ok m).
  { intros y m Hy. unfold int_floordiv.
    destruct (Z.eqb_spec y 0) as [->|_]; [lia|].
    now rewrite Z.mul_comm, Z.div_mul by lia. }
  destruct (Z.eqb_spec difficulty' 1) as [D1|D1];
    [|destruct (Z.eqb_spec difficulty' 2) as [D2|D2]];
    draw H; subst; draw H; subst; unfold rret in H; cbv beta iota in H;
    apply some_pair_inv in H; destruct H as [<- <-];
    rewrite F by lia; cbn [bind];
    eexists _, _; (split; [|split; [|split; [|reflexivity]]]); lia.
Qed.

(** main.py, the generators of the four basic operations with the input
    stage and the comparison of [play_round]: whatever the random module
    returns, the expected answer is the exact int result of the two
    numbers shown, which is never negative; a division question always
    shows a dividend that is a multiple of the divisor, at every
    difficulty, and expects the whole quotient.  A line the player types
    that [int] accepts, however it is written and however large, is
    judged correct exactly when it is the expected int. *)
Theorem main_basic_questions_are_judged_exactly
    (str_float : float -> string) (difficulty' : Z) (stream : list Z)
    (q : string) (a : Z) (rest : list Z) :
  let judged (answer : Z) :=
    a = answer /\ 0 <= answer
    /\ forall (line : string) (z : Z),
         py_int line = Ok z ->
         exists ua : string,
           basic_answer str_float line = Ok (Some ua)
           /\ main_check (Some ua) (str_of_Z a) = Ok (z =? answer) in
  (Main.generate_addition_question difficulty' stream = Some ((q, a), rest) ->
   exists x y, q = str_of_Z x ++ " + " ++ str_of_Z y /\ judged (x + y))
  /\ (Main.generate_subtraction_question difficulty' stream
      = Some ((q, a), rest) ->
      exists x y, q = str_of_Z x ++ " - " ++ str_of_Z y /\ judged (x - y))
  /\ (Main.generate_multiplication_question difficulty' stream
      = Some ((q, a), rest) ->
      exists x y,
        q = str_of_Z x ++ " " ++ Main.times_sign ++ " " ++ str_of_Z y
        /\ judged (x * y))
  /\ (forall r : result (string * Z),
        Main.generate_division_question difficulty' stream = Some (r, rest) ->
        r = Ok (q, a) ->
        exists y multiple,
          1 <= y
          /\ q = str_of_Z (y * multiple) ++ " " ++ Main.division_sign ++ " "
                 ++ str_of_Z y
          /\ judged multiple)
  /\ (forall r : result (string * Z),
        Main.generate_division_question difficulty' stream = Some (r, rest) ->
        exists qa, r = Ok qa).
Proof.
  intros judged.
  destruct (main_whole_number_runs difficulty' stream q a rest) as (A & S & M).
  assert (J : forall r, a = r -> 0 <= r -> judged r).
  { intros r Ha Hr. split; [exact Ha|]. split; [exact Hr|].
    intros line z Hz. exists (str_of_Z z).
    split; [now apply basic_answer_int|]. rewrite Ha. apply main_check_ints. }
  split; [|split; [|split; [|split]]].
  - intros H. destruct (A H) as (x & y & H1 & H2 & Hq & Ha).
    exists x, y. split; [exact Hq|]. apply J; [exact Ha|lia].
  - intros H. destruct (S H) as (x & y & H1 & H2 & Hq & Ha).
    exists x, y. split; [exact Hq|]. apply J; [exact Ha|lia].
  - intros H. destruct (M H) as (x & y & H1 & H2 & Hq & Ha).
    exists x, y. split; [exact Hq|]. apply J; [exact Ha|nia].
  - intros r H Er.
    destruct (main_division_runs _ _ _ _ H) as (y & m & Hy & Hm & _ & E).
    rewrite Er in E. injection E as -> ->.
    exists y, m. split; [lia|]. split; [reflexivity|]. apply J; [reflexivity|lia].
  - intros r H.
    destruct (main_division_runs _ _ _ _ H) as (y & m & _ & _ & _ & E).
    eexists. exact E.
Qed.

Lemma main_basic_questions_are_judged_exactly_witness :
  exists y multiple,
    1 <= y
    /\ "21 " ++ Main.division_sign ++ " 3"
       = str_of_Z (y * multiple) ++ " " ++ Main.division_sign ++ " "
         ++ str_of_Z y
    /\ 7 = multiple
    /\ main_check (Some "7") (str_of_Z 7) = Ok (7 =? multiple).
Proof.
  destruct (proj1 (proj2 (proj2 (proj2
              (main_basic_questions_are_judged_exactly
                 (fun _ => "") 1
                 [3; 7] ("21 " ++ Main.division_sign ++ " 3") 7 []))))
              (Ok ("21 " ++ Main.division_sign ++ " 3", 7))
              eq_refl eq_refl)
    as (y & m & Hy & Hq & Ha & _ & J).
  exists y, m. split; [exact Hy|]. split; [exact Hq|]. split; [exact Ha|].
  destruct (J "7" 7 eq_refl) as (ua & Eu & Ec).
  injection Eu as <-. exact Ec.
Defined.
